(** * IN8 web application: meeting-session reconciliation and admin API

    A shallow embedding of the parts of the repository that carry logic:

    - [Js]: the few JavaScript built-ins the code leans on (string
      trimming and case folding, substrings, insertion-ordered [Set]s,
      truthiness) and the display-name [normalize] helper;
    - [Jitsi]: the conferencing widget as the meeting page uses it;
    - [Dispatcher]: the host-side handler of inserted [meeting_actions]
      rows (widget commands, mirroring of moderator grants into the
      meeting row, done/error write-back);
    - [Page]: the state of the meeting page in one tab;
    - [Resolver]: [initializeMeeting] with [validateMeetingAccess],
      [handleHostJoin] and [handleParticipantJoin];
    - [Reconciler]: the per-tab role state ([isCurrentAdmin], the manual
      override, the transition toast) and the handlers that feed it;
    - [AdminApi]: the Express handlers of the user-management server,
      written over JavaScript's numbers and their operators.

    Strings are Rocq [string]s read as sequences of code units in the
    range U+0000..U+00FF. *)

From Stdlib Require Import ZArith Lia Ascii String List Bool DecimalN DecimalString.
From stdpp Require Import base option list strings gmap.

Local Open Scope string_scope.
Local Open Scope list_scope.
Local Open Scope nat_scope.

(* ===================================================================== *)
(** ** JavaScript built-ins used by the code *)
(* ===================================================================== *)

Module Js.

(** [WhiteSpace] and [LineTerminator] code units below U+0100: what
    [String.prototype.trim] strips and what [\s] matches. *)
Definition is_space (c : ascii) : bool :=
  let n := nat_of_ascii c in
  ((9 <=? n) && (n <=? 13)) || (n =? 32) || (n =? 160).

Fixpoint trimStart (s : string) : string :=
  match s with
  | EmptyString => EmptyString
  | String c s' => if is_space c then trimStart s' else s
  end.

Fixpoint trimEnd (s : string) : string :=
  match s with
  | EmptyString => EmptyString
  | String c s' =>
      match trimEnd s' with
      | EmptyString => if is_space c then EmptyString else String c EmptyString
      | t => String c t
      end
  end.

(** [s.trim()] *)
Definition trim (s : string) : string := trimEnd (trimStart s).

(** Lower-case mapping of one code unit: A-Z, and the capital letters of
    Latin-1 (U+00C0..U+00DE without the multiplication sign U+00D7). *)
Definition lower (c : ascii) : ascii :=
  let n := nat_of_ascii c in
  if ((65 <=? n) && (n <=? 90)) || ((192 <=? n) && (n <=? 222) && negb (n =? 215))
  then ascii_of_nat (n + 32) else c.

Fixpoint map_string (f : ascii -> ascii) (s : string) : string :=
  match s with
  | EmptyString => EmptyString
  | String c s' => String (f c) (map_string f s')
  end.

(** [s.toLowerCase()] *)
Definition toLowerCase (s : string) : string := map_string lower s.

Fixpoint all_space (s : string) : bool :=
  match s with
  | EmptyString => true
  | String c s' => is_space c && all_space s'
  end.

(** The text after an opening parenthesis matches [[^)]*\)\s*$]. *)
Fixpoint closes_at_end (s : string) : bool :=
  match s with
  | EmptyString => false
  | String c s' => if Ascii.eqb c ")" then all_space s' else closes_at_end s'
  end.

(** The whole of [s] matches [\s*\([^)]*\)\s*$]. *)
Definition paren_suffix (s : string) : bool :=
  match trimStart s with
  | String c s' => Ascii.eqb c "(" && closes_at_end s'
  | EmptyString => false
  end.

(** [v.replace(/\s*\([^)]*\)\s*$/g, '')]: the leftmost position from which
    the rest of the string is one parenthesised group up to the end is
    where the string is cut. *)
Fixpoint strip_paren (s : string) : string :=
  if paren_suffix s then EmptyString
  else match s with
       | EmptyString => EmptyString
       | String c s' => String c (strip_paren s')
       end.

(** [c.normalize('NFKD')] followed by the removal of the combining marks
    U+0300..U+036F, for one code unit below U+0100: the compatibility
    decomposition without its marks.  The four code units whose
    decomposition leaves the range (micro sign and the three vulgar
    fractions) are outside this model and are kept as they are. *)
Definition fold_mark (c : ascii) : ascii :=
  let n := nat_of_ascii c in
  let base (upper : nat) : nat :=
    if (192 <=? upper) && (upper <=? 197) then 65          (* A *)
    else if upper =? 199 then 67                           (* C *)
    else if (200 <=? upper) && (upper <=? 203) then 69     (* E *)
    else if (204 <=? upper) && (upper <=? 207) then 73     (* I *)
    else if upper =? 209 then 78                           (* N *)
    else if (210 <=? upper) && (upper <=? 214) then 79     (* O *)
    else if (217 <=? upper) && (upper <=? 220) then 85     (* U *)
    else if upper =? 221 then 89                           (* Y *)
    else 0 in
  if (n =? 160) || (n =? 168) || (n =? 175) || (n =? 180) || (n =? 184)
  then " "%char
  else if n =? 170 then "a"%char
  else if n =? 186 then "o"%char
  else if n =? 178 then "2"%char
  else if n =? 179 then "3"%char
  else if n =? 185 then "1"%char
  else if n =? 255 then "y"%char
  else if (192 <=? n) && (n <=? 223)
  then match base n with 0 => c | b => ascii_of_nat b end
  else if (224 <=? n) && (n <=? 254)
  then match base (n - 32) with 0 => c | b => ascii_of_nat (b + 32) end
  else c.

Definition fold_marks (s : string) : string := map_string fold_mark s.

(** [v.replace(/\s+/g, ' ')]: [in_run] tells that the previous code unit
    was white space, already replaced. *)
Fixpoint collapse_from (in_run : bool) (s : string) : string :=
  match s with
  | EmptyString => EmptyString
  | String c s' =>
      if is_space c
      then if in_run then collapse_from true s'
           else String " " (collapse_from true s')
      else String c (collapse_from false s')
  end.

Definition collapse_spaces (s : string) : string := collapse_from false s.

(** The [normalize] helper the meeting page defines in four places:
    [(s || '').toString()], the trailing parenthesised suffix removed,
    diacritics folded, white space collapsed, trimmed, lower-cased. *)
Definition normalize (s : string) : string :=
  toLowerCase (trim (collapse_spaces (fold_marks (strip_paren s)))).

(** [s.includes(sub)] *)
Definition includes (sub s : string) : bool :=
  match String.index 0 sub s with Some _ => true | None => false end.

(** Truthiness of a possibly missing string: [null], [undefined] and the
    empty string are falsy. *)
Definition truthy (o : option string) : option string :=
  match o with
  | Some s => if decide (s = "") then None else Some s
  | None => None
  end.

Lemma truthy_Some o t : truthy o = Some t ↔ o = Some t ∧ t ≠ "".
Proof.
  unfold truthy. destruct o as [x|]; [|split; [discriminate | intros [? _]; discriminate]].
  case_decide as Hx; split.
  - discriminate.
  - intros [[= ->] Hne]. contradiction.
  - intros [= ->]. split; [reflexivity | exact Hx].
  - intros [[= ->] _]. reflexivity.
Qed.

(** [Array.isArray(x) ? x : []] *)
Definition array_or_empty {A} (x : option (list A)) : list A := default [] x.

(** *** Insertion-ordered sets

    A JavaScript [Set] iterates in insertion order and holds a value at
    most once; it is modelled by the list [Array.from] returns. *)
Section JsSet.
Context {A : Type} `{EqDecision A}.

(** [s.add(x)] *)
Definition set_add (x : A) (s : list A) : list A :=
  if decide (x ∈ s) then s else s ++ [x].

(** [s.delete(x)] *)
Definition set_delete (x : A) (s : list A) : list A :=
  filter (λ y, y ≠ x) s.

(** [new Set(array)]: the elements are added one by one. *)
Definition new_Set (l : list A) : list A :=
  fold_left (λ s x, set_add x s) l [].

Lemma elem_of_set_add x y s : y ∈ set_add x s ↔ y = x ∨ y ∈ s.
Proof.
  unfold set_add. case_decide as Hx.
  - split; [auto | intros [->|H]; assumption].
  - rewrite elem_of_app, list_elem_of_singleton. tauto.
Qed.

Lemma elem_of_set_delete x y s : y ∈ set_delete x s ↔ y ≠ x ∧ y ∈ s.
Proof. unfold set_delete. rewrite list_elem_of_filter. reflexivity. Qed.

Lemma NoDup_set_add x s : NoDup s → NoDup (set_add x s).
Proof.
  intros Hs. unfold set_add. case_decide as Hx; [exact Hs|].
  apply NoDup_app. split; [exact Hs|]. split.
  - intros y Hy Hy'. apply list_elem_of_singleton in Hy' as ->. contradiction.
  - apply NoDup_singleton.
Qed.

Lemma NoDup_set_delete x s : NoDup s → NoDup (set_delete x s).
Proof. apply NoDup_filter. Qed.

Lemma adds_spec l acc y :
  y ∈ fold_left (λ s x, set_add x s) l acc ↔ y ∈ acc ∨ y ∈ l.
Proof.
  revert acc. induction l as [|x l IH]; intros acc; simpl.
  - rewrite elem_of_nil. tauto.
  - rewrite IH, elem_of_set_add, elem_of_cons. tauto.
Qed.

Lemma adds_NoDup l acc :
  NoDup acc → NoDup (fold_left (λ s x, set_add x s) l acc).
Proof.
  revert acc. induction l as [|x l IH]; intros acc H; simpl; [exact H|].
  apply IH, NoDup_set_add, H.
Qed.

Lemma adds_fresh l acc :
  NoDup (acc ++ l) → fold_left (λ s x, set_add x s) l acc = acc ++ l.
Proof.
  revert acc. induction l as [|x l IH]; intros acc H; simpl.
  - rewrite app_nil_r. reflexivity.
  - assert (Hx : x ∉ acc).
    { apply NoDup_app in H as (_ & H & _). intros Hin. apply (H x Hin). left. }
    unfold set_add. rewrite decide_False by exact Hx.
    rewrite IH; rewrite <- app_assoc; [reflexivity | exact H].
Qed.

Lemma elem_of_new_Set y l : y ∈ new_Set l ↔ y ∈ l.
Proof. unfold new_Set. rewrite adds_spec, elem_of_nil. tauto. Qed.

Lemma NoDup_new_Set l : NoDup (new_Set l).
Proof. apply adds_NoDup, NoDup_nil_2. Qed.

(** Building a set from a list without duplicates and reading it back
    gives the list. *)
Lemma new_Set_NoDup l : NoDup l → new_Set l = l.
Proof. intros H. unfold new_Set. rewrite adds_fresh; [reflexivity | exact H]. Qed.

Lemma set_add_elem x s : x ∈ s → set_add x s = s.
Proof. intros H. unfold set_add. rewrite decide_True by exact H. reflexivity. Qed.

Lemma set_delete_fresh x s : x ∉ s → set_delete x s = s.
Proof.
  intros H. unfold set_delete. induction s as [|y s IH]; [reflexivity|].
  rewrite filter_cons. rewrite decide_True.
  - f_equal. apply IH. intros Hin. apply H. right. exact Hin.
  - intros ->. apply H. left.
Qed.

Lemma set_delete_add x s : x ∉ s → set_delete x (set_add x s) = s.
Proof.
  intros H. unfold set_add. rewrite decide_False by exact H.
  unfold set_delete. rewrite filter_app, filter_cons, filter_nil.
  rewrite decide_False by (intros Hne; apply Hne; reflexivity).
  rewrite app_nil_r. apply set_delete_fresh, H.
Qed.

(** Deleting [x] forgets whether it was added before. *)
Lemma set_delete_set_add x s : set_delete x (set_add x s) = set_delete x s.
Proof.
  destruct (decide (x ∈ s)) as [H|H].
  - rewrite set_add_elem by exact H. reflexivity.
  - rewrite set_delete_add, set_delete_fresh by exact H. reflexivity.
Qed.

End JsSet.

(** *** Substrings *)

Lemma includes_cons sub c s :
  includes sub (String c s) = String.prefix sub (String c s) || includes sub s.
Proof.
  unfold includes.
  change (String.index 0 sub (String c s))
    with (if String.prefix sub (String c s) then Some 0
          else match String.index 0 sub s with Some n => Some (S n) | None => None end).
  destruct (String.prefix sub (String c s)); [reflexivity|].
  destruct (String.index 0 sub s); reflexivity.
Qed.

Lemma prefix_app_l a b s : String.prefix (a +:+ b) s = true → String.prefix a s = true.
Proof.
  revert s. induction a as [|c a IH]; intros s; [destruct s; reflexivity|].
  destruct s as [|d s]; simpl; [discriminate|].
  destruct (ascii_dec c d); [apply IH | discriminate].
Qed.

(** A string that includes [a ++ b] includes [a]. *)
Lemma includes_app_l a b s : includes (a +:+ b) s = true → includes a s = true.
Proof.
  induction s as [|c s IH].
  - unfold includes. simpl. destruct a; [reflexivity | discriminate].
  - rewrite !includes_cons. intros H. apply orb_true_iff in H as [H|H].
    + rewrite (prefix_app_l a b _ H). reflexivity.
    + rewrite (IH H). apply orb_true_r.
Qed.

(** *** The normalized form of a display name *)

Lemma is_space_lower c : is_space (lower c) = is_space c.
Proof. destruct c as [[] [] [] [] [] [] [] []]; reflexivity. Qed.

Lemma lower_idem c : lower (lower c) = lower c.
Proof. destruct c as [[] [] [] [] [] [] [] []]; reflexivity. Qed.

Lemma lower_fold_lower c : lower (fold_mark (lower c)) = lower (fold_mark c).
Proof. destruct c as [[] [] [] [] [] [] [] []]; reflexivity. Qed.

Lemma lower_paren c :
  Ascii.eqb (lower c) "(" = Ascii.eqb c "(" ∧ Ascii.eqb (lower c) ")" = Ascii.eqb c ")".
Proof. destruct c as [[] [] [] [] [] [] [] []]; split; reflexivity. Qed.

Lemma map_string_compose f g s : map_string f (map_string g s) = map_string (λ c, f (g c)) s.
Proof. induction s as [|c s IH]; simpl; [reflexivity | rewrite IH; reflexivity]. Qed.

Lemma map_string_ext f g s : (∀ c, f c = g c) → map_string f s = map_string g s.
Proof. intros H. induction s as [|c s IH]; simpl; [reflexivity | rewrite H, IH; reflexivity]. Qed.

Lemma map_string_empty f s : map_string f s = EmptyString → s = EmptyString.
Proof. destruct s; [reflexivity | discriminate]. Qed.

Lemma trimStart_lower s : trimStart (toLowerCase s) = toLowerCase (trimStart s).
Proof.
  induction s as [|c s IH]; simpl; [reflexivity|].
  rewrite is_space_lower. destruct (is_space c); [exact IH | reflexivity].
Qed.

Lemma trimEnd_lower s : trimEnd (toLowerCase s) = toLowerCase (trimEnd s).
Proof.
  induction s as [|c s IH]; simpl; [reflexivity|].
  fold (toLowerCase s). rewrite IH, is_space_lower.
  destruct (trimEnd s) as [|d t]; simpl; [destruct (is_space c)|]; reflexivity.
Qed.

Lemma trim_lower s : trim (toLowerCase s) = toLowerCase (trim s).
Proof. unfold trim. rewrite trimStart_lower, trimEnd_lower. reflexivity. Qed.

Lemma trimEnd_idem s : trimEnd (trimEnd s) = trimEnd s.
Proof.
  induction s as [|c s IH]; simpl; [reflexivity|].
  destruct (trimEnd s) as [|d t] eqn:Ht.
  - destruct (is_space c) eqn:Hc; simpl; [reflexivity | rewrite Hc; reflexivity].
  - simpl in *. rewrite IH. reflexivity.
Qed.

Lemma trimStart_trimEnd_head c s :
  is_space c = false → trimStart (trimEnd (String c s)) = trimEnd (String c s).
Proof.
  intros Hc. simpl. destruct (trimEnd s); rewrite ?Hc; simpl; rewrite ?Hc; reflexivity.
Qed.

Lemma trimStart_head s :
  trimStart s = EmptyString ∨ ∃ c t, trimStart s = String c t ∧ is_space c = false.
Proof.
  induction s as [|c s IH]; simpl; [left; reflexivity|].
  destruct (is_space c) eqn:Hc; [exact IH|]. right. exists c, s. split; [reflexivity | exact Hc].
Qed.

Lemma trim_idem s : trim (trim s) = trim s.
Proof.
  unfold trim. destruct (trimStart_head s) as [-> | (c & t & -> & Hc)]; [reflexivity|].
  rewrite trimStart_trimEnd_head by exact Hc. apply trimEnd_idem.
Qed.

Lemma toLowerCase_idem s : toLowerCase (toLowerCase s) = toLowerCase s.
Proof.
  unfold toLowerCase. rewrite map_string_compose. apply map_string_ext, lower_idem.
Qed.

(** A normalized name has no white space around it and no capital
    letter in it: trimming it or lower-casing it again changes nothing. *)
Theorem normalize_canonical s :
  trim (normalize s) = normalize s ∧ toLowerCase (normalize s) = normalize s.
Proof.
  unfold normalize. split.
  - rewrite trim_lower, trim_idem. reflexivity.
  - apply toLowerCase_idem.
Qed.

Lemma all_space_lower s : all_space (toLowerCase s) = all_space s.
Proof.
  induction s as [|c s IH]; simpl; [reflexivity|].
  fold (toLowerCase s). rewrite is_space_lower, IH. reflexivity.
Qed.

Lemma closes_at_end_lower s : closes_at_end (toLowerCase s) = closes_at_end s.
Proof.
  induction s as [|c s IH]; simpl; [reflexivity|].
  fold (toLowerCase s). rewrite (proj2 (lower_paren c)), all_space_lower, IH. reflexivity.
Qed.

Lemma paren_suffix_lower s : paren_suffix (toLowerCase s) = paren_suffix s.
Proof.
  unfold paren_suffix. rewrite trimStart_lower.
  destruct (trimStart s) as [|c t]; simpl; [reflexivity|].
  fold (toLowerCase t). rewrite (proj1 (lower_paren c)), closes_at_end_lower. reflexivity.
Qed.

Lemma strip_paren_lower s : strip_paren (toLowerCase s) = toLowerCase (strip_paren s).
Proof.
  induction s as [|c s IH].
  - reflexivity.
  - change (toLowerCase (String c s)) with (String (lower c) (toLowerCase s)).
    change (strip_paren (String (lower c) (toLowerCase s)))
      with (if paren_suffix (String (lower c) (toLowerCase s)) then EmptyString
            else String (lower c) (strip_paren (toLowerCase s))).
    change (String (lower c) (toLowerCase s)) with (toLowerCase (String c s)).
    rewrite paren_suffix_lower.
    change (strip_paren (String c s))
      with (if paren_suffix (String c s) then EmptyString
            else String c (strip_paren s)).
    destruct (paren_suffix (String c s)); [reflexivity|].
    rewrite IH. reflexivity.
Qed.

Lemma collapse_from_lower b s :
  collapse_from b (toLowerCase s) = toLowerCase (collapse_from b s).
Proof.
  revert b. induction s as [|c s IH]; intros b; simpl; [reflexivity|].
  fold (toLowerCase s). rewrite is_space_lower.
  destruct (is_space c); [destruct b|]; simpl; rewrite IH; reflexivity.
Qed.

(** Normalization ignores case: a name and its lower-cased form have the
    same normalized form. *)
Theorem normalize_ignores_case s : normalize (toLowerCase s) = normalize s.
Proof.
  unfold normalize, collapse_spaces.
  rewrite strip_paren_lower, <- !trim_lower, <- !collapse_from_lower.
  f_equal. f_equal. unfold fold_marks, toLowerCase.
  rewrite !map_string_compose. apply map_string_ext, lower_fold_lower.
Qed.

End Js.

(* ===================================================================== *)
(** ** Rows of the two tables the meeting page works on *)
(* ===================================================================== *)

(** A row of [meetings], with the columns the meeting page reads or
    writes.  A list-valued column may hold [null]. *)
Record MeetingRow := mkMeetingRow {
  meeting_id : string;
  host_token : option string;
  host_participant_id : option string;
  admin_ids : option (list string);
  admin_display_names : option (list string);
  banned_display_names : option (list (option string));
  whiteboard_open : bool
}.

(** A row of [meeting_actions]. *)
Record ActionRow := mkActionRow {
  action_id : string;
  type : string;
  target_participant_id : option string;
  target_display_name_normalized : option string;
  platform : option string;
  stream_key : option string;
  rtmp_url : option string;
  status : string;
  error : option string;
  processed_at : option string;
  requested_by : option string
}.

(** A thrown value: an [Error] object of some built-in class with its
    message. *)
Inductive ErrorClass := Error | TypeError | RangeError | ReferenceError.

Record JsError := mkJsError { err_class : ErrorClass; err_message : string }.

Definition class_name (c : ErrorClass) : string :=
  match c with
  | Error => "Error"
  | TypeError => "TypeError"
  | RangeError => "RangeError"
  | ReferenceError => "ReferenceError"
  end.

(** [String(err)], that is [Error.prototype.toString]. *)
Definition String_of_error (e : JsError) : string :=
  if decide (err_message e = "") then class_name (err_class e)
  else (class_name (err_class e) +:+ ": " +:+ err_message e).

(** The embedded conferencing widget, as the meeting page uses it. *)
Module Jitsi.

(** The object the page sends as an endpoint text message, and reads
    back from one: [JSON.stringify] on one side and [JSON.parse] on the
    other are left out. *)
Record Payload := mkPayload {
  payload_type : option string;
  payload_id : option string;
  payload_role : option string
}.

(** Commands, as the page passes them to [executeCommand]. *)
Inductive Command :=
  | kickParticipant (p : string)
  | muteParticipant (p : string)
  | muteEveryone
  | grantModerator (p : string)
  | revokeModerator (p : string)
  | startRecording_file
  | startRecording_youtube (youtubeStreamKey : string)
  | startRecording_rtmp (rtmpStreamKey rtmpStreamUrl : string)
  | stopRecording (mode : string)
  | hangup
  | toggleLobby (enabled : bool)
  | toggleWhiteboard
  | sendEndpointTextMessage (to : string) (payload : Payload).

(** An entry of [getParticipantsInfo()]. *)
Record ParticipantInfo := mkParticipantInfo {
  participantId : option string;
  displayName : option string;
  formattedDisplayName : option string;
  isModerator : bool;
  role : option string
}.

(** The widget as the page sees it: the local participant id, the
    participant list, and for each command whether executing it throws. *)
Record Widget := mkWidget {
  myUserId : option string;
  getParticipantsInfo : list ParticipantInfo;
  raises : Command -> option JsError
}.

End Jitsi.

(* ===================================================================== *)
(** ** Action Dispatcher (host side) *)
(* ===================================================================== *)

Module Dispatcher.
Import Js Jitsi.

(** What the handler reads and writes: the widget, the row of the active
    meeting ([None] when the select finds none), the [meeting_actions]
    table, and the commands the widget accepted so far. *)
Record World := mkWorld {
  jitsiApi : Widget;
  meeting : option MeetingRow;
  actions : list ActionRow;
  executed : list Command
}.

(** Computations of the handler: they change the world and either
    return or throw. *)
Inductive Res (A : Type) := Ok (a : A) | Throw (e : JsError).
Arguments Ok {A} a.
Arguments Throw {A} e.

Definition M (A : Type) : Type := World -> Res A * World.

Definition ret {A} (a : A) : M A := λ w, (Ok a, w).

Definition bind {A B} (m : M A) (k : A -> M B) : M B :=
  λ w, match m w with
       | (Ok a, w') => k a w'
       | (Throw e, w') => (Throw e, w')
       end.

Notation "'let*' x := m 'in' k" := (bind m (λ x, k))
  (at level 10, x name, m at level 100, k at level 200).
Notation "m >> k" := (bind m (λ _, k))
  (at level 100, k at level 200, right associativity).

(** [try { m } catch (err) { h err }] *)
Definition try_catch {A} (m : M A) (h : JsError -> M A) : M A :=
  λ w, match m w with
       | (Ok a, w') => (Ok a, w')
       | (Throw e, w') => h e w'
       end.

(** [try { m } catch (_) {}] *)
Definition swallow (m : M unit) : M unit := try_catch m (λ _, ret tt).

(** [jitsiApi.executeCommand(...)] *)
Definition executeCommand (c : Command) : M unit :=
  λ w, match raises (jitsiApi w) c with
       | Some e => (Throw e, w)
       | None => (Ok tt, mkWorld (jitsiApi w) (meeting w) (actions w) (executed w ++ [c]))
       end.

(** [supabase.from('meetings').select('admin_ids, admin_display_names')
    .eq('id', activeMeeting.id).single()], destructured as [data: row]. *)
Definition select_meeting : M (option MeetingRow) := λ w, (Ok (meeting w), w).

Definition set_admins (ids names : list string) (r : MeetingRow) : MeetingRow :=
  mkMeetingRow (meeting_id r) (host_token r) (host_participant_id r)
    (Some ids) (Some names) (banned_display_names r) (whiteboard_open r).

(** [supabase.from('meetings').update({ admin_ids, admin_display_names })
    .eq('id', activeMeeting.id)] *)
Definition update_meeting (ids names : list string) : M unit :=
  λ w, (Ok tt, mkWorld (jitsiApi w) (set_admins ids names <$> meeting w)
                  (actions w) (executed w)).

Definition write_back (st : string) (err : option string) (now : string)
    (by_ : option string) (a : ActionRow) : ActionRow :=
  mkActionRow (action_id a) (type a) (target_participant_id a)
    (target_display_name_normalized a) (platform a) (stream_key a) (rtmp_url a)
    st err (Some now) by_.

(** [supabase.from('meeting_actions').update({...}).eq('id', id)]; an
    update that names no [error] leaves that column as it is. *)
Definition update_action (id st : string) (err : option string) (now : string) : M unit :=
  λ w, (Ok tt,
        mkWorld (jitsiApi w) (meeting w)
          ((λ a, if decide (action_id a = id)
                 then write_back st (from_option Some (error a) err) now (myUserId (jitsiApi w)) a
                 else a) <$> actions w)
          (executed w)).

(** The [grant-moderator] mirroring into the meeting row. *)
Definition mirror_grant (a : ActionRow) (target : string) : M unit :=
  let* row := select_meeting in
  let ids := set_add target (new_Set (array_or_empty (row ≫= admin_ids))) in
  let names := new_Set (array_or_empty (row ≫= admin_display_names)) in
  let names := match truthy (target_display_name_normalized a) with
               | Some n => set_add n names
               | None => names
               end in
  update_meeting ids names.

(** The [revoke-moderator] mirroring. *)
Definition mirror_revoke (a : ActionRow) (target : string) : M unit :=
  let* row := select_meeting in
  let ids := set_delete target (new_Set (array_or_empty (row ≫= admin_ids))) in
  let names := new_Set (array_or_empty (row ≫= admin_display_names)) in
  let names := match truthy (target_display_name_normalized a) with
               | Some n => set_delete n names
               | None => names
               end in
  update_meeting ids names.

(** The loop of [end-meeting] over the participant list. *)
Fixpoint kick_others (me : option string) (l : list ParticipantInfo) : M unit :=
  match l with
  | [] => ret tt
  | p :: l' =>
      match truthy (participantId p) with
      | Some pid =>
          if decide (Some pid ≠ me)
          then swallow (executeCommand (kickParticipant pid)) >> kick_others me l'
          else kick_others me l'
      | None => kick_others me l'
      end
  end.

(** The [switch (action.type)] of the handler. *)
Definition dispatch (a : ActionRow) : M unit :=
  let ty := type a in
  if decide (ty = "kick") then
    match truthy (target_participant_id a) with
    | Some p => executeCommand (kickParticipant p)
    | None => ret tt
    end
  else if decide (ty = "mute") then
    match truthy (target_participant_id a) with
    | Some p => swallow (executeCommand (muteParticipant p))
    | None => ret tt
    end
  else if decide (ty = "mute-everyone") then
    swallow (executeCommand muteEveryone)
  else if decide (ty = "grant-moderator") then
    match truthy (target_participant_id a) with
    | Some p => swallow (executeCommand (grantModerator p)) >> swallow (mirror_grant a p)
    | None => ret tt
    end
  else if decide (ty = "revoke-moderator") then
    match truthy (target_participant_id a) with
    | Some p => swallow (executeCommand (revokeModerator p)) >> swallow (mirror_revoke a p)
    | None => ret tt
    end
  else if decide (ty = "recording-start") then executeCommand startRecording_file
  else if decide (ty = "recording-stop") then executeCommand (stopRecording "file")
  else if decide (ty = "stream-start") then
    match truthy (stream_key a), truthy (rtmp_url a) with
    | Some k, u =>
        if decide (platform a = Some "youtube")
        then executeCommand (startRecording_youtube k)
        else match u with
             | Some url => executeCommand (startRecording_rtmp k url)
             | None => ret tt
             end
    | None, _ => ret tt
    end
  else if decide (ty = "stream-stop") then executeCommand (stopRecording "stream")
  else if decide (ty = "end-meeting") then
    swallow (λ w, kick_others (myUserId (jitsiApi w)) (getParticipantsInfo (jitsiApi w)) w) >>
    swallow (executeCommand hangup)
  else ret tt.

(** The handler of an INSERT on [meeting_actions], run at time [now] on
    the inserted row ([None] for a payload without a row). *)
Definition hostActionHandler (now : string) (action : option ActionRow) : M unit :=
  match action with
  | None => ret tt
  | Some a =>
      if decide (status a = "pending") then
        try_catch
          (dispatch a >> update_action (action_id a) "done" None now)
          (λ err, update_action (action_id a) "error" (Some (String_of_error err)) now)
      else ret tt
  end.

(** An INSERT as the host's tab lives it: the row enters the table and
    the handler runs on it. *)
Definition insert_action (now : string) (a : ActionRow) (w : World) : World :=
  snd (hostActionHandler now (Some a)
         (mkWorld (jitsiApi w) (meeting w) (actions w ++ [a]) (executed w))).

(** INSERT events handled one after the other, each with its time. *)
Definition process (evs : list (string * ActionRow)) (w : World) : World :=
  fold_left (λ w ev, insert_action (fst ev) (snd ev) w) evs w.

(** The moderator-id list of the meeting record. *)
Definition moderator_ids (w : World) : list string :=
  array_or_empty (meeting w ≫= admin_ids).

(** The row of the table with a given id. *)
Definition action_row (id : string) (w : World) : option ActionRow :=
  find (λ a, bool_decide (action_id a = id)) (actions w).

(** The command of a row that the handler runs outside any inner
    [try]: only its exception reaches the handler's own [catch]. *)
Definition unguarded_command (a : ActionRow) : option Command :=
  let ty := type a in
  if decide (ty = "kick") then kickParticipant <$> truthy (target_participant_id a)
  else if decide (ty = "recording-start") then Some startRecording_file
  else if decide (ty = "recording-stop") then Some (stopRecording "file")
  else if decide (ty = "stream-start") then
    match truthy (stream_key a), truthy (rtmp_url a) with
    | Some k, u =>
        if decide (platform a = Some "youtube") then Some (startRecording_youtube k)
        else startRecording_rtmp k <$> u
    | None, _ => None
    end
  else if decide (ty = "stream-stop") then Some (stopRecording "stream")
  else None.

(** The exception, if any, that leaves the [switch] for a row. *)
Definition escaping (w : World) (a : ActionRow) : option JsError :=
  unguarded_command a ≫= raises (jitsiApi w).

(** *** Frame properties of the handler's computations *)

Definition keeps_table {A} (m : M A) : Prop :=
  ∀ w, jitsiApi (snd (m w)) = jitsiApi w ∧ actions (snd (m w)) = actions w.

Definition keeps_meeting {A} (m : M A) : Prop :=
  ∀ w, meeting (snd (m w)) = meeting w.

Definition never_throws {A} (m : M A) : Prop :=
  ∀ w, ∃ a, fst (m w) = Ok a.

Lemma keeps_table_ret {A} (a : A) : keeps_table (ret a).
Proof. intros w; split; reflexivity. Qed.

Lemma keeps_table_bind {A B} (m : M A) (k : A -> M B) :
  keeps_table m → (∀ a, keeps_table (k a)) → keeps_table (bind m k).
Proof.
  intros Hm Hk w. unfold bind. specialize (Hm w).
  destruct (m w) as [[a|e] w']; simpl in *.
  - destruct (Hk a w') as [H1 H2]. rewrite H1, H2. exact Hm.
  - exact Hm.
Qed.

Lemma keeps_table_try {A} (m : M A) (h : JsError -> M A) :
  keeps_table m → (∀ e, keeps_table (h e)) → keeps_table (try_catch m h).
Proof.
  intros Hm Hh w. unfold try_catch. specialize (Hm w).
  destruct (m w) as [[a|e] w']; simpl in *.
  - exact Hm.
  - destruct (Hh e w') as [H1 H2]. rewrite H1, H2. exact Hm.
Qed.

Lemma keeps_table_exec c : keeps_table (executeCommand c).
Proof. intros w. unfold executeCommand. destruct (raises _ _); split; reflexivity. Qed.

Lemma keeps_table_swallow m : keeps_table m → keeps_table (swallow m).
Proof. intros H. apply keeps_table_try; [exact H | intros; apply keeps_table_ret]. Qed.

Lemma keeps_table_mirror_grant a p : keeps_table (mirror_grant a p).
Proof. intros w; split; reflexivity. Qed.

Lemma keeps_table_mirror_revoke a p : keeps_table (mirror_revoke a p).
Proof. intros w; split; reflexivity. Qed.

Lemma keeps_table_kick_others me l : keeps_table (kick_others me l).
Proof.
  induction l as [|p l IH]; simpl.
  - apply keeps_table_ret.
  - destruct (truthy (participantId p)); [|exact IH].
    case_decide; [|exact IH].
    apply keeps_table_bind; [|intros; exact IH].
    apply keeps_table_swallow, keeps_table_exec.
Qed.

Create HintDb frame.
#[local] Hint Resolve keeps_table_ret keeps_table_exec keeps_table_swallow
  keeps_table_mirror_grant keeps_table_mirror_revoke keeps_table_kick_others : frame.

Lemma keeps_table_dispatch a : keeps_table (dispatch a).
Proof.
  unfold dispatch.
  repeat case_decide;
    repeat match goal with
      | |- context [truthy ?x] => destruct (truthy x)
      | |- keeps_table (bind _ _) => apply keeps_table_bind; [|intros]
      end; auto with frame.
  apply keeps_table_swallow. intros w.
  apply (keeps_table_kick_others (myUserId (jitsiApi w)) (getParticipantsInfo (jitsiApi w)) w).
Qed.

Lemma fst_swallow m w : fst (swallow m w) = Ok tt.
Proof. unfold swallow, try_catch. destruct (m w) as [[[]|e] w']; reflexivity. Qed.

Lemma fst_after_swallow {B} m (k : M B) w :
  fst ((swallow m >> k) w) = fst (k (snd (swallow m w))).
Proof.
  unfold bind. pose proof (fst_swallow m w) as H.
  destruct (swallow m w) as [[[]|e] w']; simpl in *; [reflexivity | discriminate].
Qed.

Lemma fst_exec c w :
  fst (executeCommand c w) =
  match raises (jitsiApi w) c with Some e => Throw e | None => Ok tt end.
Proof. unfold executeCommand. destruct (raises _ _); reflexivity. Qed.

(** The [switch] throws exactly the exception of its unguarded command. *)
Lemma dispatch_result a w :
  fst (dispatch a w) =
  match escaping w a with Some e => Throw e | None => Ok tt end.
Proof.
  unfold dispatch, escaping, unguarded_command.
  repeat case_decide;
    repeat match goal with
      | |- context [truthy ?x] => destruct (truthy x)
      end; simpl;
    rewrite ?fst_after_swallow, ?fst_swallow, ?fst_exec; try reflexivity;
    congruence.
Qed.

(** What the handler writes on a row [b] of the table that carries the
    id of the pending row [a] it was run on. *)
Definition written (now : string) (w : World) (a b : ActionRow) : ActionRow :=
  match escaping w a with
  | Some e => write_back "error" (Some (String_of_error e)) now (myUserId (jitsiApi w)) b
  | None => write_back "done" (error b) now (myUserId (jitsiApi w)) b
  end.

(** The inserted row as the handler leaves it. *)
Definition settled (now : string) (w : World) (a : ActionRow) : ActionRow :=
  written now w a a.

Lemma written_id now w a b : action_id (written now w a b) = action_id b.
Proof. unfold written. destruct (escaping w a); reflexivity. Qed.

Lemma handler_pending now a w :
  status a = "pending" →
  jitsiApi (snd (hostActionHandler now (Some a) w)) = jitsiApi w ∧
  actions (snd (hostActionHandler now (Some a) w)) =
    (λ b, if decide (action_id b = action_id a) then written now w a b else b)
      <$> actions w.
Proof.
  intros Hp. unfold hostActionHandler. rewrite decide_True by exact Hp.
  unfold try_catch, bind, written.
  pose proof (dispatch_result a w) as Hr.
  destruct (keeps_table_dispatch a w) as [Hj Ha].
  destruct (dispatch a w) as [[[]|e] w1]; simpl in *;
    destruct (escaping w a) as [e'|]; simplify_eq; simpl;
    rewrite Hj, Ha; split; reflexivity.
Qed.

Lemma handler_not_pending now a w :
  status a ≠ "pending" → hostActionHandler now (Some a) w = (Ok tt, w).
Proof. intros Hp. unfold hostActionHandler. rewrite decide_False by exact Hp. reflexivity. Qed.

Lemma insert_action_widget now a w : jitsiApi (insert_action now a w) = jitsiApi w.
Proof.
  unfold insert_action. destruct (decide (status a = "pending")) as [Hp|Hp].
  - destruct (handler_pending now a
                (mkWorld (jitsiApi w) (meeting w) (actions w ++ [a]) (executed w)) Hp)
      as [H _].
    exact H.
  - rewrite handler_not_pending by exact Hp. reflexivity.
Qed.

Lemma process_widget evs w : jitsiApi (process evs w) = jitsiApi w.
Proof.
  revert w. induction evs as [|ev evs IH]; intros w; [reflexivity|].
  unfold process in *. simpl. rewrite IH. apply insert_action_widget.
Qed.

Lemma find_row_app id l1 l2 :
  find (λ a, bool_decide (action_id a = id)) (l1 ++ l2) =
  match find (λ a, bool_decide (action_id a = id)) l1 with
  | Some r => Some r
  | None => find (λ a, bool_decide (action_id a = id)) l2
  end.
Proof.
  induction l1 as [|b l1 IH]; simpl; [reflexivity|].
  destruct (bool_decide (action_id b = id)); [reflexivity | exact IH].
Qed.

Lemma find_row_fmap (f : ActionRow -> ActionRow) id l :
  (∀ b, action_id (f b) = action_id b) →
  find (λ a, bool_decide (action_id a = id)) (f <$> l) =
  f <$> find (λ a, bool_decide (action_id a = id)) l.
Proof.
  intros Hf. induction l as [|b l IH]; simpl; [reflexivity|].
  rewrite Hf. destruct (bool_decide (action_id b = id)); [reflexivity | exact IH].
Qed.

Lemma find_row_fresh id l :
  (∀ b, b ∈ l → action_id b ≠ id) →
  find (λ a, bool_decide (action_id a = id)) l = None.
Proof.
  induction l as [|b l IH]; intros H; simpl; [reflexivity|].
  rewrite bool_decide_eq_false_2 by (apply H; left).
  apply IH. intros c Hc. apply H. right. exact Hc.
Qed.

Lemma find_row_id id l r :
  find (λ a, bool_decide (action_id a = id)) l = Some r → action_id r = id.
Proof.
  induction l as [|b l IH]; simpl; [discriminate|].
  destruct (bool_decide (action_id b = id)) eqn:E.
  - intros [= <-]. apply bool_decide_eq_true_1 in E. exact E.
  - exact IH.
Qed.

(** Handling one insertion leaves the rows with another id alone. *)
Lemma insert_action_other now a w id :
  id ≠ action_id a → action_row id (insert_action now a w) = action_row id w.
Proof.
  intros Hne. unfold insert_action, action_row.
  destruct (decide (status a = "pending")) as [Hp|Hp].
  - destruct (handler_pending now a
                (mkWorld (jitsiApi w) (meeting w) (actions w ++ [a]) (executed w)) Hp)
      as [_ ->].
    simpl actions. rewrite find_row_fmap by (intros b; case_decide; [apply written_id | reflexivity]).
    rewrite find_row_app. simpl.
    rewrite (bool_decide_eq_false_2 (action_id a = id)) by congruence.
    destruct (find _ (actions w)) as [r|] eqn:E; [|reflexivity].
    simpl. apply find_row_id in E. rewrite decide_False by congruence. reflexivity.
  - rewrite handler_not_pending by exact Hp. simpl.
    rewrite find_row_app. simpl.
    rewrite (bool_decide_eq_false_2 (action_id a = id)) by congruence.
    destruct (find _ (actions w)); reflexivity.
Qed.

(** Handling the insertion of a pending row with a fresh id settles it. *)
Lemma insert_action_settles now a w :
  status a = "pending" →
  (∀ b, b ∈ actions w → action_id b ≠ action_id a) →
  action_row (action_id a) (insert_action now a w) = Some (settled now w a).
Proof.
  intros Hp Hfresh. unfold insert_action, action_row.
  destruct (handler_pending now a
              (mkWorld (jitsiApi w) (meeting w) (actions w ++ [a]) (executed w)) Hp)
    as [_ ->].
  simpl actions. rewrite find_row_fmap by (intros b; case_decide; [apply written_id | reflexivity]).
  rewrite find_row_app, find_row_fresh by exact Hfresh.
  simpl. rewrite bool_decide_eq_true_2 by reflexivity. simpl.
  rewrite decide_True by reflexivity. reflexivity.
Qed.

Lemma insert_action_ids now a w b :
  b ∈ actions (insert_action now a w) →
  action_id b = action_id a ∨ ∃ b0, b0 ∈ actions w ∧ action_id b0 = action_id b.
Proof.
  unfold insert_action.
  destruct (decide (status a = "pending")) as [Hp|Hp].
  - destruct (handler_pending now a
                (mkWorld (jitsiApi w) (meeting w) (actions w ++ [a]) (executed w)) Hp)
      as [_ ->].
    simpl actions. intros Hb. apply list_elem_of_fmap in Hb as (b0 & -> & Hb0).
    apply elem_of_app in Hb0 as [Hb0|Hb0].
    + right. exists b0. split; [exact Hb0|].
      case_decide; [symmetry; apply written_id | reflexivity].
    + apply list_elem_of_singleton in Hb0 as ->. left.
      case_decide; [apply written_id | reflexivity].
  - rewrite handler_not_pending by exact Hp. simpl. intros Hb.
    apply elem_of_app in Hb as [Hb|Hb].
    + right. exists b. split; [exact Hb | reflexivity].
    + apply list_elem_of_singleton in Hb as ->. left. reflexivity.
Qed.

Lemma settled_widget now w w' a :
  jitsiApi w' = jitsiApi w → settled now w' a = settled now w a.
Proof. intros H. unfold settled, written, escaping. rewrite H. reflexivity. Qed.

Lemma process_other evs w id :
  (∀ ev, ev ∈ evs → action_id (snd ev) ≠ id) →
  action_row id (process evs w) = action_row id w.
Proof.
  revert w. induction evs as [|ev evs IH]; intros w H; [reflexivity|].
  unfold process in *. simpl. rewrite IH.
  - apply insert_action_other. intros Heq. apply (H ev); [left | congruence].
  - intros ev' Hev'. apply H. right. exact Hev'.
Qed.

(** Every pending row of a batch of insertions is settled by its own
    verdict, whatever the rows before it did. *)
Lemma process_settles evs w now a :
  NoDup ((λ ev, action_id (snd ev)) <$> evs) →
  (∀ ev b, ev ∈ evs → b ∈ actions w → action_id b ≠ action_id (snd ev)) →
  (now, a) ∈ evs → status a = "pending" →
  action_row (action_id a) (process evs w) = Some (settled now w a).
Proof.
  revert w. induction evs as [|ev evs IH]; intros w Hnd Hfresh Hin Hp.
  - inversion Hin.
  - rewrite fmap_cons in Hnd. apply NoDup_cons in Hnd as [Hhd Hnd].
    change (process (ev :: evs) w)
      with (process evs (insert_action (fst ev) (snd ev) w)).
    apply elem_of_cons in Hin as [<-|Hin].
    + simpl. rewrite process_other.
      * apply insert_action_settles; [exact Hp|].
        intros b Hb. apply (Hfresh (now, a) b); [left | exact Hb].
      * intros ev' Hev' Heq. apply Hhd. simpl. rewrite <- Heq.
        apply list_elem_of_fmap. exists ev'. split; [reflexivity | exact Hev'].
    + rewrite IH; [| exact Hnd | | exact Hin | exact Hp].
      * f_equal. apply settled_widget, insert_action_widget.
      * intros ev' b Hev' Hb.
        apply insert_action_ids in Hb as [Hb | (b0 & Hb0 & Hid)].
        -- rewrite Hb. intros Heq. apply Hhd. rewrite Heq.
           apply list_elem_of_fmap. exists ev'. split; [reflexivity | exact Hev'].
        -- rewrite <- Hid. apply Hfresh; [right; exact Hev' | exact Hb0].
Qed.

Lemma String_of_error_nonempty e : String_of_error e ≠ "".
Proof.
  unfold String_of_error. destruct e as [[] msg]; simpl;
    case_decide; discriminate.
Qed.

(** The commands the widget accepted are never forgotten. *)
Definition grows_log {A} (m : M A) : Prop :=
  ∀ w c, c ∈ executed w → c ∈ executed (snd (m w)).

Lemma grows_log_ret {A} (a : A) : grows_log (ret a).
Proof. intros w c H. exact H. Qed.

Lemma grows_log_bind {A B} (m : M A) (k : A -> M B) :
  grows_log m → (∀ a, grows_log (k a)) → grows_log (bind m k).
Proof.
  intros Hm Hk w c Hc. unfold bind. specialize (Hm w c Hc).
  destruct (m w) as [[a|e] w']; simpl in *; [apply Hk|]; exact Hm.
Qed.

Lemma grows_log_try {A} (m : M A) (h : JsError -> M A) :
  grows_log m → (∀ e, grows_log (h e)) → grows_log (try_catch m h).
Proof.
  intros Hm Hh w c Hc. unfold try_catch. specialize (Hm w c Hc).
  destruct (m w) as [[a|e] w']; simpl in *; [|apply Hh]; exact Hm.
Qed.

Lemma grows_log_exec c : grows_log (executeCommand c).
Proof.
  intros w c' H. unfold executeCommand. destruct (raises _ _); simpl; [exact H|].
  apply elem_of_app. left. exact H.
Qed.

Lemma grows_log_swallow m : grows_log m → grows_log (swallow m).
Proof. intros H. apply grows_log_try; [exact H | intros; apply grows_log_ret]. Qed.

Lemma grows_log_mirror_grant a p : grows_log (mirror_grant a p).
Proof. intros w c H. exact H. Qed.

Lemma grows_log_mirror_revoke a p : grows_log (mirror_revoke a p).
Proof. intros w c H. exact H. Qed.

Lemma grows_log_update id st err now : grows_log (update_action id st err now).
Proof. intros w c H. exact H. Qed.

Lemma grows_log_kick_others me l : grows_log (kick_others me l).
Proof.
  induction l as [|p l IH]; simpl.
  - apply grows_log_ret.
  - destruct (truthy (participantId p)); [|exact IH].
    case_decide; [|exact IH].
    apply grows_log_bind; [|intros; exact IH].
    apply grows_log_swallow, grows_log_exec.
Qed.

#[local] Hint Resolve grows_log_ret grows_log_exec grows_log_swallow
  grows_log_mirror_grant grows_log_mirror_revoke grows_log_kick_others
  grows_log_update : frame.

Lemma grows_log_dispatch a : grows_log (dispatch a).
Proof.
  unfold dispatch.
  repeat case_decide;
    repeat match goal with
      | |- context [truthy ?x] => destruct (truthy x)
      | |- grows_log (bind _ _) => apply grows_log_bind; [|intros]
      end; auto with frame.
  apply grows_log_swallow. intros w.
  apply (grows_log_kick_others (myUserId (jitsiApi w)) (getParticipantsInfo (jitsiApi w)) w).
Qed.

Lemma grows_log_handler now a : grows_log (hostActionHandler now a).
Proof.
  unfold hostActionHandler. destruct a as [a|]; [|apply grows_log_ret].
  case_decide; [|apply grows_log_ret].
  apply grows_log_try; [|intros; apply grows_log_update].
  apply grows_log_bind; [apply grows_log_dispatch | intros; apply grows_log_update].
Qed.

Lemma insert_action_log now a w c :
  c ∈ executed w → c ∈ executed (insert_action now a w).
Proof. intros H. unfold insert_action. apply grows_log_handler. exact H. Qed.

Lemma process_log evs w c : c ∈ executed w → c ∈ executed (process evs w).
Proof.
  revert w. induction evs as [|ev evs IH]; intros w H; [exact H|].
  change (process (ev :: evs) w)
    with (process evs (insert_action (fst ev) (snd ev) w)).
  apply IH, insert_action_log, H.
Qed.

Lemma process_app evs1 evs2 w :
  process (evs1 ++ evs2) w = process evs2 (process evs1 w).
Proof. unfold process. apply fold_left_app. Qed.

(** A pending kick with a target whose command is accepted reaches the
    widget. *)
Lemma kick_executed now a w p :
  status a = "pending" → type a = "kick" →
  truthy (target_participant_id a) = Some p →
  raises (jitsiApi w) (kickParticipant p) = None →
  kickParticipant p ∈ executed (insert_action now a w).
Proof.
  intros Hp Hty Htg Hok. unfold insert_action, hostActionHandler.
  rewrite decide_True by exact Hp.
  unfold try_catch, bind, dispatch. rewrite decide_True by exact Hty.
  rewrite Htg. unfold executeCommand. simpl. rewrite Hok. simpl.
  apply elem_of_app. right. left.
Qed.

(** *** The meeting row under the handler *)

Lemma keeps_meeting_ret {A} (a : A) : keeps_meeting (ret a).
Proof. intros w. reflexivity. Qed.

Lemma keeps_meeting_bind {A B} (m : M A) (k : A -> M B) :
  keeps_meeting m → (∀ a, keeps_meeting (k a)) → keeps_meeting (bind m k).
Proof.
  intros Hm Hk w. unfold bind. specialize (Hm w).
  destruct (m w) as [[a|e] w']; simpl in *; [rewrite Hk|]; exact Hm.
Qed.

Lemma keeps_meeting_try {A} (m : M A) (h : JsError -> M A) :
  keeps_meeting m → (∀ e, keeps_meeting (h e)) → keeps_meeting (try_catch m h).
Proof.
  intros Hm Hh w. unfold try_catch. specialize (Hm w).
  destruct (m w) as [[a|e] w']; simpl in *; [|rewrite Hh]; exact Hm.
Qed.

Lemma keeps_meeting_exec c : keeps_meeting (executeCommand c).
Proof. intros w. unfold executeCommand. destruct (raises _ _); reflexivity. Qed.

Lemma keeps_meeting_swallow m : keeps_meeting m → keeps_meeting (swallow m).
Proof. intros H. apply keeps_meeting_try; [exact H | intros; apply keeps_meeting_ret]. Qed.

Lemma keeps_meeting_update id st err now : keeps_meeting (update_action id st err now).
Proof. intros w. reflexivity. Qed.

Lemma keeps_meeting_kick_others me l : keeps_meeting (kick_others me l).
Proof.
  induction l as [|p l IH]; simpl.
  - apply keeps_meeting_ret.
  - destruct (truthy (participantId p)); [|exact IH].
    case_decide; [|exact IH].
    apply keeps_meeting_bind; [|intros; exact IH].
    apply keeps_meeting_swallow, keeps_meeting_exec.
Qed.

(** The row the handler was run on asks for a grant (a revoke) of the
    moderator role to [p]: it is pending, of that type, and names [p]. *)
Definition is_grant (a : ActionRow) (p : string) : Prop :=
  status a = "pending" ∧ type a = "grant-moderator" ∧
  truthy (target_participant_id a) = Some p.

Definition is_revoke (a : ActionRow) (p : string) : Prop :=
  status a = "pending" ∧ type a = "revoke-moderator" ∧
  truthy (target_participant_id a) = Some p.

(** The handler's own write-back never touches the meeting row. *)
Lemma handler_meeting now a w :
  status a = "pending" →
  meeting (snd (hostActionHandler now (Some a) w)) = meeting (snd (dispatch a w)).
Proof.
  intros Hp. unfold hostActionHandler. rewrite decide_True by exact Hp.
  unfold try_catch, bind. destruct (dispatch a w) as [[[]|e] w1]; reflexivity.
Qed.

Lemma snd_after_swallow {B} m (k : M B) w :
  snd ((swallow m >> k) w) = snd (k (snd (swallow m w))).
Proof.
  unfold bind. pose proof (fst_swallow m w) as H.
  destruct (swallow m w) as [[[]|e] w']; simpl in *; [reflexivity | discriminate].
Qed.

Lemma mirror_grant_meeting a p w :
  meeting (snd (swallow (mirror_grant a p) w)) =
  (λ r, set_admins
          (set_add p (new_Set (array_or_empty (admin_ids r))))
          (let names := new_Set (array_or_empty (admin_display_names r)) in
           match truthy (target_display_name_normalized a) with
           | Some n => set_add n names
           | None => names
           end) r) <$> meeting w.
Proof. destruct w as [j [r|] acts ex]; reflexivity. Qed.

Lemma mirror_revoke_meeting a p w :
  meeting (snd (swallow (mirror_revoke a p) w)) =
  (λ r, set_admins
          (set_delete p (new_Set (array_or_empty (admin_ids r))))
          (let names := new_Set (array_or_empty (admin_display_names r)) in
           match truthy (target_display_name_normalized a) with
           | Some n => set_delete n names
           | None => names
           end) r) <$> meeting w.
Proof. destruct w as [j [r|] acts ex]; reflexivity. Qed.

Lemma moderator_ids_meeting w w' :
  meeting w' = meeting w → moderator_ids w' = moderator_ids w.
Proof. unfold moderator_ids. intros ->. reflexivity. Qed.

(** A grant leaves the moderator-id list as the set of its former
    elements with the target added. *)
Lemma grant_ids now a w p :
  is_grant a p → meeting w ≠ None →
  moderator_ids (insert_action now a w) = set_add p (new_Set (moderator_ids w)).
Proof.
  intros (Hp & Hty & Htg) Hm. unfold insert_action, moderator_ids.
  rewrite handler_meeting by exact Hp.
  unfold dispatch. rewrite Hty, Htg. simpl.
  rewrite snd_after_swallow, mirror_grant_meeting.
  rewrite keeps_meeting_swallow by apply keeps_meeting_exec. simpl.
  destruct (meeting w) as [r|]; [reflexivity | contradiction].
Qed.

Lemma revoke_ids now a w p :
  is_revoke a p → meeting w ≠ None →
  moderator_ids (insert_action now a w) = set_delete p (new_Set (moderator_ids w)).
Proof.
  intros (Hp & Hty & Htg) Hm. unfold insert_action, moderator_ids.
  rewrite handler_meeting by exact Hp.
  unfold dispatch. rewrite Hty, Htg. simpl.
  rewrite snd_after_swallow, mirror_revoke_meeting.
  rewrite keeps_meeting_swallow by apply keeps_meeting_exec. simpl.
  destruct (meeting w) as [r|]; [reflexivity | contradiction].
Qed.

#[local] Hint Resolve keeps_meeting_ret keeps_meeting_exec keeps_meeting_swallow
  keeps_meeting_kick_others keeps_meeting_update : frame.

(** Every other row leaves the meeting row as it is. *)
Lemma other_meeting now a w :
  (∀ p, ¬ is_grant a p) → (∀ p, ¬ is_revoke a p) →
  meeting (insert_action now a w) = meeting w.
Proof.
  intros Hg Hr. unfold insert_action.
  destruct (decide (status a = "pending")) as [Hp|Hp];
    [|rewrite handler_not_pending by exact Hp; reflexivity].
  rewrite handler_meeting by exact Hp.
  enough (H : keeps_meeting (dispatch a)) by (rewrite H; reflexivity).
  unfold dispatch.
  repeat case_decide;
    repeat match goal with
      | |- context [truthy ?x] => destruct (truthy x) eqn:?
      | |- keeps_meeting (bind _ _) => apply keeps_meeting_bind; [|intros]
      end; auto with frame.
  all: try (exfalso; eapply Hg; repeat split; eassumption).
  all: try (exfalso; eapply Hr; repeat split; eassumption).
  apply keeps_meeting_swallow. intros w0.
    apply (keeps_meeting_kick_others (myUserId (jitsiApi w0)) (getParticipantsInfo (jitsiApi w0)) w0).
Qed.

Lemma grant_not_revoke a p q : is_grant a p → ¬ is_revoke a q.
Proof. intros (_ & Hty & _) (_ & Hty' & _). congruence. Qed.

Lemma grant_target a p q : is_grant a p → is_grant a q → p = q.
Proof. intros (_ & _ & H) (_ & _ & H'). congruence. Qed.

Lemma revoke_target a p q : is_revoke a p → is_revoke a q → p = q.
Proof. intros (_ & _ & H) (_ & _ & H'). congruence. Qed.

(** What a row asks for, if anything. *)
Lemma row_cases a :
  (∃ q, is_grant a q) ∨ (∃ q, is_revoke a q) ∨
  ((∀ p, ¬ is_grant a p) ∧ (∀ p, ¬ is_revoke a p)).
Proof.
  unfold is_grant, is_revoke.
  destruct (decide (status a = "pending")) as [Hp|Hp]; [|right; right; split; intros p; tauto].
  destruct (truthy (target_participant_id a)) as [q|] eqn:Hq;
    [|right; right; split; intros p (_ & _ & ?); discriminate].
  destruct (decide (type a = "grant-moderator")) as [Hg|Hg]; [left; eauto|].
  destruct (decide (type a = "revoke-moderator")) as [Hr|Hr]; [right; left; eauto|].
  right; right; split; intros p; tauto.
Qed.

Lemma insert_action_meeting_Some now a w :
  meeting w ≠ None → meeting (insert_action now a w) ≠ None.
Proof.
  intros Hm.
  destruct (row_cases a) as [[q (Hp & Hty & Htg)] | [[q (Hp & Hty & Htg)] | [Hg Hr]]].
  - unfold insert_action. rewrite handler_meeting by exact Hp.
    unfold dispatch. rewrite Hty, Htg. simpl.
    rewrite snd_after_swallow, mirror_grant_meeting.
    rewrite keeps_meeting_swallow by apply keeps_meeting_exec. simpl.
    destruct (meeting w); [discriminate | contradiction].
  - unfold insert_action. rewrite handler_meeting by exact Hp.
    unfold dispatch. rewrite Hty, Htg. simpl.
    rewrite snd_after_swallow, mirror_revoke_meeting.
    rewrite keeps_meeting_swallow by apply keeps_meeting_exec. simpl.
    destruct (meeting w); [discriminate | contradiction].
  - rewrite other_meeting by assumption. exact Hm.
Qed.

Lemma process_meeting_Some evs w : meeting w ≠ None → meeting (process evs w) ≠ None.
Proof.
  revert w. induction evs as [|ev evs IH]; intros w H; [exact H|].
  change (process (ev :: evs) w)
    with (process evs (insert_action (fst ev) (snd ev) w)).
  apply IH, insert_action_meeting_Some, H.
Qed.

(** Membership in the moderator-id list after one row. *)
Lemma insert_action_member now a w p :
  meeting w ≠ None →
  p ∈ moderator_ids (insert_action now a w) ↔
  is_grant a p ∨ (¬ is_revoke a p ∧ p ∈ moderator_ids w).
Proof.
  intros Hm.
  destruct (row_cases a) as [[q Hq] | [[q Hq] | [Hg Hr]]].
  - rewrite (grant_ids now a w q Hq Hm), elem_of_set_add, elem_of_new_Set.
    split.
    + intros [-> | H]; [left; exact Hq | right; split; [eapply grant_not_revoke, Hq | exact H]].
    + intros [H | [_ H]]; [left; eapply grant_target; eassumption | right; exact H].
  - rewrite (revoke_ids now a w q Hq Hm), elem_of_set_delete, elem_of_new_Set.
    split.
    + intros [Hne H]. right. split; [|exact H].
      intros Hr. apply Hne. eapply revoke_target; eassumption.
    + intros [H | [Hn H]].
      * exfalso. eapply grant_not_revoke; eassumption.
      * split; [|exact H]. intros ->. contradiction.
  - rewrite (moderator_ids_meeting w _ (other_meeting now a w Hg Hr)).
    split; [intros H; right; split; [apply Hr | exact H] | intros [H | [_ H]]; [destruct (Hg p H) | exact H]].
Qed.

(** [p] was granted the role by a row of the batch and no later row of
    the batch revoked it. *)
Definition granted_since (p : string) (evs : list (string * ActionRow)) : Prop :=
  ∃ l1 ev l2, evs = l1 ++ ev :: l2 ∧ is_grant (snd ev) p ∧
              ∀ ev', ev' ∈ l2 → ¬ is_revoke (snd ev') p.

(** No row of the batch revoked the role of [p]. *)
Definition never_revoked (p : string) (evs : list (string * ActionRow)) : Prop :=
  ∀ ev, ev ∈ evs → ¬ is_revoke (snd ev) p.

Lemma granted_since_snoc p evs ev :
  granted_since p (evs ++ [ev]) ↔
  is_grant (snd ev) p ∨ (¬ is_revoke (snd ev) p ∧ granted_since p evs).
Proof.
  split.
  - intros (l1 & e & l2 & Heq & Hg & Hl2).
    destruct l2 as [|x l2 _] using rev_ind.
    + apply app_inj_tail in Heq as [_ ->]. left. exact Hg.
    + rewrite app_comm_cons, app_assoc in Heq.
      apply app_inj_tail in Heq as [-> ->]. right. split.
      * apply Hl2, elem_of_app. right. left.
      * exists l1, e, l2. split; [reflexivity|]. split; [exact Hg|].
        intros ev' Hev'. apply Hl2, elem_of_app. left. exact Hev'.
  - intros [Hg | [Hr (l1 & e & l2 & -> & Hg & Hl2)]].
    + exists evs, ev, []. split; [reflexivity|]. split; [exact Hg|].
      intros ev' Hev'. inversion Hev'.
    + exists l1, e, (l2 ++ [ev]). split; [rewrite <- app_assoc; reflexivity|].
      split; [exact Hg|]. intros ev' Hev'.
      apply elem_of_app in Hev' as [Hev'|Hev']; [apply Hl2, Hev'|].
      apply list_elem_of_singleton in Hev' as ->. exact Hr.
Qed.

Lemma never_revoked_snoc p evs ev :
  never_revoked p (evs ++ [ev]) ↔ never_revoked p evs ∧ ¬ is_revoke (snd ev) p.
Proof.
  unfold never_revoked. split.
  - intros H. split; [intros e He; apply H, elem_of_app; left; exact He|].
    apply H, elem_of_app. right. left.
  - intros [H1 H2] e He. apply elem_of_app in He as [He|He]; [apply H1, He|].
    apply list_elem_of_singleton in He as ->. exact H2.
Qed.

(** Membership in the moderator-id list after a batch of rows. *)
Lemma process_member evs w p :
  meeting w ≠ None →
  p ∈ moderator_ids (process evs w) ↔
  granted_since p evs ∨ (p ∈ moderator_ids w ∧ never_revoked p evs).
Proof.
  intros Hm. induction evs as [|ev evs IH] using rev_ind.
  - simpl. split.
    + intros H. right. split; [exact H | intros ev Hev; inversion Hev].
    + intros [(l1 & e & l2 & Heq & _) | [H _]]; [|exact H].
      destruct l1; discriminate.
  - rewrite process_app. change (process [ev] (process evs w))
      with (insert_action (fst ev) (snd ev) (process evs w)).
    rewrite insert_action_member by (apply process_meeting_Some, Hm).
    rewrite IH, granted_since_snoc, never_revoked_snoc. tauto.
Qed.

(** *** Sample rows and worlds *)

(** A pending row with a type and a target, as the page inserts it. *)
Definition pending_row (id ty : string) (target : option string) : ActionRow :=
  mkActionRow id ty target None None None None "pending" None None None.

(** A widget of the host [h] that accepts every command but those of
    [refused], at which it throws [Error: not ready]. *)
Definition widget_refusing (refused : Command -> bool) : Widget :=
  mkWidget (Some "h") []
    (λ c, if refused c then Some (mkJsError Error "not ready") else None).

Definition meeting_with (ids : option (list string)) : MeetingRow :=
  mkMeetingRow "m1" (Some "T1") (Some "h") ids None None false.

Definition world_with (refused : Command -> bool) (ids : option (list string)) : World :=
  mkWorld (widget_refusing refused) (Some (meeting_with ids)) [] [].

(** *** Grant and revoke: round trip and convergence *)

(** C1, as stated, fails: a grant to a participant who is already in the
    moderator-id list followed by a revoke does not give the list back;
    the participant is gone from it. *)
Lemma grant_revoke_drops_earlier_member :
  let w := world_with (λ _, false) (Some ["X"]) in
  let g := pending_row "a1" "grant-moderator" (Some "X") in
  let r := pending_row "a2" "revoke-moderator" (Some "X") in
  is_grant g "X" ∧ is_revoke r "X" ∧
  moderator_ids w = ["X"] ∧
  moderator_ids (process [("t1", g); ("t2", r)] w) = [].
Proof. repeat split; reflexivity. Qed.

(** C1, amended.  For a meeting record that exists, with [g] a pending
    grant and [r] a pending revoke for the same participant [X]:
    - grant then revoke leaves the moderator-id list as the set of its
      former elements without [X], which is the former list itself when
      that list has no duplicates and did not hold [X];
    - a second grant (a second revoke) changes nothing: the add and the
      remove are idempotent;
    - after any batch of rows the list holds exactly the participants
      that a row of the batch granted with no later revoke, and those
      it held before that no row of the batch revoked. *)
Theorem grant_revoke_converges w t1 t2 g r X evs p :
  meeting w ≠ None → is_grant g X → is_revoke r X →
  moderator_ids (process [(t1, g); (t2, r)] w)
    = set_delete X (new_Set (moderator_ids w)) ∧
  (NoDup (moderator_ids w) → X ∉ moderator_ids w →
   moderator_ids (process [(t1, g); (t2, r)] w) = moderator_ids w) ∧
  moderator_ids (process [(t1, g); (t2, g)] w) = moderator_ids (process [(t1, g)] w) ∧
  moderator_ids (process [(t1, r); (t2, r)] w) = moderator_ids (process [(t1, r)] w) ∧
  (p ∈ moderator_ids (process evs w) ↔
   granted_since p evs ∨ (p ∈ moderator_ids w ∧ never_revoked p evs)).
Proof.
  intros Hm Hg Hr.
  assert (Hrt : moderator_ids (process [(t1, g); (t2, r)] w)
                = set_delete X (new_Set (moderator_ids w))).
  { change (process [(t1, g); (t2, r)] w)
      with (insert_action t2 r (insert_action t1 g w)).
    rewrite (revoke_ids t2 r _ X Hr) by (apply insert_action_meeting_Some, Hm).
    rewrite (grant_ids t1 g w X Hg Hm).
    rewrite new_Set_NoDup by apply NoDup_set_add, NoDup_new_Set.
    apply set_delete_set_add. }
  split; [exact Hrt|]. split; [|split; [|split]].
  - intros Hnd Hx. rewrite Hrt, new_Set_NoDup by exact Hnd.
    apply set_delete_fresh, Hx.
  - change (process [(t1, g); (t2, g)] w)
      with (insert_action t2 g (insert_action t1 g w)).
    change (process [(t1, g)] w) with (insert_action t1 g w).
    rewrite (grant_ids t2 g _ X Hg) by (apply insert_action_meeting_Some, Hm).
    rewrite (grant_ids t1 g w X Hg Hm).
    rewrite new_Set_NoDup by apply NoDup_set_add, NoDup_new_Set.
    apply set_add_elem, elem_of_set_add. left. reflexivity.
  - change (process [(t1, r); (t2, r)] w)
      with (insert_action t2 r (insert_action t1 r w)).
    change (process [(t1, r)] w) with (insert_action t1 r w).
    rewrite (revoke_ids t2 r _ X Hr) by (apply insert_action_meeting_Some, Hm).
    rewrite (revoke_ids t1 r w X Hr Hm).
    rewrite new_Set_NoDup by apply NoDup_set_delete, NoDup_new_Set.
    apply set_delete_fresh. rewrite elem_of_set_delete. intros [Hne _].
    apply Hne. reflexivity.
  - apply process_member, Hm.
Qed.

Lemma grant_revoke_converges_witness :
  let w := world_with (λ _, false) (Some ["h"]) in
  let g := pending_row "a1" "grant-moderator" (Some "X") in
  let r := pending_row "a2" "revoke-moderator" (Some "X") in
  moderator_ids (process [("t1", g); ("t2", r)] w) = set_delete "X" (new_Set (moderator_ids w)).
Proof.
  intros w g r.
  apply (grant_revoke_converges w "t1" "t2" g r "X" [] "h").
  - discriminate.
  - repeat split; reflexivity.
  - repeat split; reflexivity.
Defined.

(** *** Write-back of the verdict *)




(** *** Further properties of the handler *)

(** No exception leaves the handler: whatever the widget throws is
    either swallowed by an inner [try] or caught and written back. *)
Theorem handler_never_throws now a w : fst (hostActionHandler now a w) = Ok tt.
Proof.
  unfold hostActionHandler. destruct a as [a|]; [|reflexivity].
  case_decide; [|reflexivity].
  unfold try_catch, bind. destruct (dispatch a w) as [[[]|e] w']; reflexivity.
Qed.

(** The write-back of a batch reaches only the rows whose ids are those
    of inserted rows: every other row of the table is left as it was. *)
Theorem batch_leaves_other_rows evs w id :
  (∀ ev, ev ∈ evs → action_id (snd ev) ≠ id) →
  action_row id (process evs w) = action_row id w.
Proof. apply process_other. Qed.

Lemma batch_leaves_other_rows_witness :
  let old := mkActionRow "a0" "kick" (Some "p1") None None None None "pending"
               None None None in
  let w := mkWorld (widget_refusing (λ _, false)) None [old] [] in
  action_row "a0" (process [("t1", pending_row "a1" "mute-everyone" None)] w) = Some old.
Proof.
  intros old w.
  apply (batch_leaves_other_rows [("t1", pending_row "a1" "mute-everyone" None)] w "a0").
  intros ev Hev. apply list_elem_of_singleton in Hev as ->. discriminate.
Defined.

(** Only a grant and a revoke write the meeting row. *)
Theorem meeting_row_written_by_grants_only now a w :
  (∃ p, is_grant a p ∨ is_revoke a p) ∨ meeting (insert_action now a w) = meeting w.
Proof.
  destruct (row_cases a) as [[q Hq] | [[q Hq] | [Hg Hr]]].
  - left. exists q. left. exact Hq.
  - left. exists q. right. exact Hq.
  - right. apply other_meeting; assumption.
Qed.

(** A grant and a revoke leave both lists of the meeting row without
    duplicates, the target's normalized name (when the row carries one)
    in the name list after a grant and out of it after a revoke, and the
    other columns as they were. *)
Theorem mirror_keeps_sets now a w p r :
  meeting w = Some r → is_grant a p ∨ is_revoke a p →
  ∃ ids names,
    meeting (insert_action now a w) = Some (set_admins ids names r) ∧
    NoDup ids ∧ NoDup names ∧
    (∀ n, truthy (target_display_name_normalized a) = Some n →
          (is_grant a p → n ∈ names) ∧ (is_revoke a p → n ∉ names)).
Proof.
  intros Hm [(Hp & Hty & Htg) | (Hp & Hty & Htg)].
  - unfold insert_action. rewrite handler_meeting by exact Hp.
    unfold dispatch. rewrite Hty, Htg. simpl.
    rewrite snd_after_swallow, mirror_grant_meeting.
    rewrite keeps_meeting_swallow by apply keeps_meeting_exec. simpl. rewrite Hm. simpl.
    eexists _, _. split; [reflexivity|].
    split; [apply NoDup_set_add, NoDup_new_Set|].
    destruct (truthy (target_display_name_normalized a)) as [n|] eqn:Hn.
    + split; [apply NoDup_set_add, NoDup_new_Set|]. intros n' [= <-]. split.
      * intros _. apply elem_of_set_add. left. reflexivity.
      * intros (_ & Hty' & _). congruence.
    + split; [apply NoDup_new_Set | discriminate].
  - unfold insert_action. rewrite handler_meeting by exact Hp.
    unfold dispatch. rewrite Hty, Htg. simpl.
    rewrite snd_after_swallow, mirror_revoke_meeting.
    rewrite keeps_meeting_swallow by apply keeps_meeting_exec. simpl. rewrite Hm. simpl.
    eexists _, _. split; [reflexivity|].
    split; [apply NoDup_set_delete, NoDup_new_Set|].
    destruct (truthy (target_display_name_normalized a)) as [n|] eqn:Hn.
    + split; [apply NoDup_set_delete, NoDup_new_Set|]. intros n' [= <-]. split.
      * intros (_ & Hty' & _). congruence.
      * intros _. rewrite elem_of_set_delete. intros [Hne _]. apply Hne. reflexivity.
    + split; [apply NoDup_new_Set | discriminate].
Qed.

Lemma mirror_keeps_sets_witness :
  let a := mkActionRow "a1" "grant-moderator" (Some "p7") (Some "bob") None None None
             "pending" None None None in
  let w := world_with (λ _, false) (Some ["h"; "h"]) in
  ∃ ids names,
    meeting (insert_action "t1" a w) = Some (set_admins ids names (meeting_with (Some ["h"; "h"]))) ∧
    NoDup ids ∧ NoDup names ∧ "bob" ∈ names.
Proof.
  intros a w.
  destruct (mirror_keeps_sets "t1" a w "p7" (meeting_with (Some ["h"; "h"])))
    as (ids & names & Hm & Hi & Hn & Hname).
  - reflexivity.
  - left. repeat split.
  - exists ids, names. repeat split; try assumption.
    apply (Hname "bob"); [reflexivity | repeat split].
Defined.

(** Two rows that do not both speak of [p] may be handled in either
    order: [p] is a moderator after the one order exactly when it is
    after the other. *)
Theorem disjoint_targets_commute w t1 t2 a b p :
  meeting w ≠ None →
  ¬ (is_grant a p ∨ is_revoke a p) ∨ ¬ (is_grant b p ∨ is_revoke b p) →
  p ∈ moderator_ids (process [(t1, a); (t2, b)] w) ↔
  p ∈ moderator_ids (process [(t2, b); (t1, a)] w).
Proof.
  intros Hm Hdis.
  change (process [(t1, a); (t2, b)] w) with (insert_action t2 b (insert_action t1 a w)).
  change (process [(t2, b); (t1, a)] w) with (insert_action t1 a (insert_action t2 b w)).
  rewrite !insert_action_member by (try apply insert_action_meeting_Some; exact Hm).
  tauto.
Qed.

Lemma disjoint_targets_commute_witness :
  let w := world_with (λ _, false) None in
  let a := pending_row "a1" "grant-moderator" (Some "p1") in
  let b := pending_row "a2" "revoke-moderator" (Some "p2") in
  "p1" ∈ moderator_ids (process [("t1", a); ("t2", b)] w) ↔
  "p1" ∈ moderator_ids (process [("t2", b); ("t1", a)] w).
Proof.
  intros w a b. apply (disjoint_targets_commute w "t1" "t2" a b "p1").
  - discriminate.
  - right. intros [(_ & _ & H) | (_ & _ & H)]; discriminate.
Defined.

(** *** [end-meeting] *)

Lemma exec_log c c' w :
  c' ∈ executed (snd (swallow (executeCommand c) w)) → c' ∈ executed w ∨ c' = c.
Proof.
  unfold swallow, try_catch, executeCommand. destruct (raises _ _); simpl; [auto|].
  rewrite elem_of_app, list_elem_of_singleton. auto.
Qed.

Lemma kick_others_log me l w c :
  c ∈ executed (snd (kick_others me l w)) →
  c ∈ executed w ∨
  ∃ q pid, q ∈ l ∧ truthy (participantId q) = Some pid ∧ Some pid ≠ me ∧
           c = kickParticipant pid.
Proof.
  revert w. induction l as [|q l IH]; intros w; simpl; [auto|].
  assert (Hrest : ∀ w', c ∈ executed (snd (kick_others me l w')) →
            c ∈ executed w' ∨
            ∃ q' pid, q' ∈ q :: l ∧ truthy (participantId q') = Some pid ∧
                      Some pid ≠ me ∧ c = kickParticipant pid).
  { intros w' H. destruct (IH w' H) as [H' | (q' & pid & Hq' & Hrest)]; [auto|].
    right. exists q', pid. split; [right; exact Hq' | exact Hrest]. }
  destruct (truthy (participantId q)) as [pid|] eqn:Hpid; [|apply Hrest].
  case_decide as Hme; [|apply Hrest].
  rewrite snd_after_swallow. intros H.
  destruct (Hrest _ H) as [H' | H']; [|auto].
  destruct (exec_log _ _ _ H') as [H'' | ->]; [auto|].
  right. exists q, pid. split; [left | auto].
Qed.

Lemma handler_executed now a w :
  status a = "pending" →
  executed (snd (hostActionHandler now (Some a) w)) = executed (snd (dispatch a w)).
Proof.
  intros Hp. unfold hostActionHandler. rewrite decide_True by exact Hp.
  unfold try_catch, bind. destruct (dispatch a w) as [[[]|e] w1]; reflexivity.
Qed.

(** An [end-meeting] row kicks nobody but participants of the widget's
    list other than the host: every kick it adds to the log names a
    participant id of the list that is not the host's own. *)
Theorem end_meeting_spares_host now a w p :
  status a = "pending" → type a = "end-meeting" →
  kickParticipant p ∈ executed (insert_action now a w) →
  kickParticipant p ∈ executed w ∨
  (Some p ≠ myUserId (jitsiApi w) ∧
   ∃ q, q ∈ getParticipantsInfo (jitsiApi w) ∧ truthy (participantId q) = Some p).
Proof.
  intros Hp Hty. unfold insert_action. rewrite handler_executed by exact Hp.
  unfold dispatch. rewrite Hty. simpl. rewrite snd_after_swallow. intros H.
  apply exec_log in H as [H | [=]].
  unfold swallow, try_catch in H.
  match type of H with
  | context [kick_others ?me ?l ?w0] =>
      pose proof (kick_others_log me l w0 (kickParticipant p)) as Hk;
      destruct (kick_others me l w0) as [[[]|e] w1]
  end; simpl in *;
    (destruct (Hk H) as [H' | (q & pid & Hq & Hpid & Hme & [= ->])];
     [left; exact H' | right; split; [exact Hme | exists q; split; assumption]]).
Qed.

Lemma end_meeting_spares_host_witness :
  let list := [mkParticipantInfo (Some "h") (Some "Ann") None true None;
               mkParticipantInfo (Some "p7") (Some "Bob") None false None] in
  let w := mkWorld (mkWidget (Some "h") list (λ _, None)) None [] [] in
  let a := pending_row "a1" "end-meeting" None in
  executed (insert_action "t1" a w) = [kickParticipant "p7"; hangup] ∧
  (kickParticipant "p7" ∈ executed w ∨
   (Some "p7" ≠ myUserId (jitsiApi w) ∧
    ∃ q, q ∈ getParticipantsInfo (jitsiApi w) ∧ truthy (participantId q) = Some "p7")).
Proof.
  intros list w a. split; [reflexivity|].
  apply (end_meeting_spares_host "t1" a w "p7"); [reflexivity | reflexivity |].
  left.
Defined.

(** A pending row of a type the handler does not know runs no command,
    leaves the meeting row alone and is marked "done". *)
Theorem unknown_type_done now a w :
  status a = "pending" →
  type a ∉ ["kick"; "mute"; "mute-everyone"; "grant-moderator"; "revoke-moderator";
            "recording-start"; "recording-stop"; "stream-start"; "stream-stop";
            "end-meeting"] →
  (∀ b, b ∈ actions w → action_id b ≠ action_id a) →
  executed (insert_action now a w) = executed w ∧
  meeting (insert_action now a w) = meeting w ∧
  status <$> action_row (action_id a) (insert_action now a w) = Some "done".
Proof.
  intros Hp Hty Hfresh.
  assert (Hd : dispatch a = ret tt).
  { unfold dispatch. repeat case_decide; try reflexivity;
      exfalso; apply Hty; set_solver. }
  split; [|split].
  - unfold insert_action. rewrite handler_executed by exact Hp. rewrite Hd. reflexivity.
  - unfold insert_action. rewrite handler_meeting by exact Hp. rewrite Hd. reflexivity.
  - rewrite insert_action_settles by assumption.
    unfold settled, written, escaping, unguarded_command.
    repeat case_decide; try reflexivity; exfalso; apply Hty; set_solver.
Qed.

Lemma unknown_type_done_witness :
  let w := world_with (λ _, true) None in
  let a := pending_row "a1" "notify-admin-granted" (Some "p7") in
  executed (insert_action "t1" a w) = executed w ∧
  meeting (insert_action "t1" a w) = meeting w ∧
  status <$> action_row "a1" (insert_action "t1" a w) = Some "done".
Proof.
  intros w a. apply (unknown_type_done "t1" a w).
  - reflexivity.
  - apply not_elem_of_cons; split; [discriminate|].
    repeat (apply not_elem_of_cons; split; [discriminate|]). apply not_elem_of_nil.
  - intros b Hb. inversion Hb.
Defined.

End Dispatcher.

(* ===================================================================== *)
(** ** The meeting page: the state of one tab *)
(* ===================================================================== *)

Module Page.
Import Js.

(** The argument of [showToast]. *)
Record Toast := mkToast { title : string; message : string; toast_type : string }.

(** A call of [navigate]: the path and the [replace] option. *)
Record Navigation := mkNavigation { path : string; replace : bool }.

(** The signed-in user, with the fields the page reads. *)
Record User := mkUser {
  email : option string;
  full_name : option string;
  avatar_url : option string
}.

(** The argument of [createAdminJwt]. *)
Record JwtRequest := mkJwtRequest {
  jwt_name : string;
  jwt_email : option string;
  jwt_avatar : option string
}.

(** [meetingConfig]: [{ id, displayName, isHost, ...meetingData }].  No
    column of [meetings] that the code reads or writes is called
    [displayName] or [isHost], and the row was selected by [id], so the
    spread overrides none of the three. *)
Record MeetingConfig := mkMeetingConfig {
  id : string;
  displayName : string;
  isHost : bool;
  data : MeetingRow
}.

(** The [useState] and [useRef] cells of [MeetingPage] that the modelled
    code reads or writes, and what it did to the outside: the toasts
    shown, the navigations, the commands the widget accepted and the
    credentials requested, oldest first. *)
Record State := mkState {
  activeMeeting : option MeetingConfig;
  jitsiApi : option Jitsi.Widget;
  adminJwt : option string;
  isPageLoading : bool;
  isJitsiLoading : bool;
  canJoinMeeting : bool;
  isWaitingForHost : bool;
  hostParticipantId : option string;
  adminIds : list string;
  adminDisplayNames : list string;
  isCurrentAdmin : bool;
  prevIsAdminRef : bool;
  roleEventTick : nat;
  localAdminOverride : option bool;
  toasts : list Toast;
  navigations : list Navigation;
  commands : list Jitsi.Command;
  jwtRequests : list JwtRequest
}.

Definition setActiveMeeting (v : option MeetingConfig) (s : State) : State :=
  mkState v (jitsiApi s) (adminJwt s) (isPageLoading s) (isJitsiLoading s)
    (canJoinMeeting s) (isWaitingForHost s) (hostParticipantId s) (adminIds s)
    (adminDisplayNames s) (isCurrentAdmin s) (prevIsAdminRef s)
    (roleEventTick s) (localAdminOverride s) (toasts s) (navigations s)
    (commands s) (jwtRequests s).

Definition setJitsiApi (v : option Jitsi.Widget) (s : State) : State :=
  mkState (activeMeeting s) v (adminJwt s) (isPageLoading s)
    (isJitsiLoading s) (canJoinMeeting s) (isWaitingForHost s)
    (hostParticipantId s) (adminIds s) (adminDisplayNames s)
    (isCurrentAdmin s) (prevIsAdminRef s) (roleEventTick s)
    (localAdminOverride s) (toasts s) (navigations s) (commands s)
    (jwtRequests s).

Definition setAdminJwt (v : option string) (s : State) : State :=
  mkState (activeMeeting s) (jitsiApi s) v (isPageLoading s)
    (isJitsiLoading s) (canJoinMeeting s) (isWaitingForHost s)
    (hostParticipantId s) (adminIds s) (adminDisplayNames s)
    (isCurrentAdmin s) (prevIsAdminRef s) (roleEventTick s)
    (localAdminOverride s) (toasts s) (navigations s) (commands s)
    (jwtRequests s).

Definition setIsPageLoading (v : bool) (s : State) : State :=
  mkState (activeMeeting s) (jitsiApi s) (adminJwt s) v (isJitsiLoading s)
    (canJoinMeeting s) (isWaitingForHost s) (hostParticipantId s) (adminIds s)
    (adminDisplayNames s) (isCurrentAdmin s) (prevIsAdminRef s)
    (roleEventTick s) (localAdminOverride s) (toasts s) (navigations s)
    (commands s) (jwtRequests s).

Definition setIsJitsiLoading (v : bool) (s : State) : State :=
  mkState (activeMeeting s) (jitsiApi s) (adminJwt s) (isPageLoading s) v
    (canJoinMeeting s) (isWaitingForHost s) (hostParticipantId s) (adminIds s)
    (adminDisplayNames s) (isCurrentAdmin s) (prevIsAdminRef s)
    (roleEventTick s) (localAdminOverride s) (toasts s) (navigations s)
    (commands s) (jwtRequests s).

Definition setCanJoinMeeting (v : bool) (s : State) : State :=
  mkState (activeMeeting s) (jitsiApi s) (adminJwt s) (isPageLoading s)
    (isJitsiLoading s) v (isWaitingForHost s) (hostParticipantId s)
    (adminIds s) (adminDisplayNames s) (isCurrentAdmin s) (prevIsAdminRef s)
    (roleEventTick s) (localAdminOverride s) (toasts s) (navigations s)
    (commands s) (jwtRequests s).

Definition setIsWaitingForHost (v : bool) (s : State) : State :=
  mkState (activeMeeting s) (jitsiApi s) (adminJwt s) (isPageLoading s)
    (isJitsiLoading s) (canJoinMeeting s) v (hostParticipantId s) (adminIds s)
    (adminDisplayNames s) (isCurrentAdmin s) (prevIsAdminRef s)
    (roleEventTick s) (localAdminOverride s) (toasts s) (navigations s)
    (commands s) (jwtRequests s).

Definition setHostParticipantId (v : option string) (s : State) : State :=
  mkState (activeMeeting s) (jitsiApi s) (adminJwt s) (isPageLoading s)
    (isJitsiLoading s) (canJoinMeeting s) (isWaitingForHost s) v (adminIds s)
    (adminDisplayNames s) (isCurrentAdmin s) (prevIsAdminRef s)
    (roleEventTick s) (localAdminOverride s) (toasts s) (navigations s)
    (commands s) (jwtRequests s).

Definition setAdminIds (v : list string) (s : State) : State :=
  mkState (activeMeeting s) (jitsiApi s) (adminJwt s) (isPageLoading s)
    (isJitsiLoading s) (canJoinMeeting s) (isWaitingForHost s)
    (hostParticipantId s) v (adminDisplayNames s) (isCurrentAdmin s)
    (prevIsAdminRef s) (roleEventTick s) (localAdminOverride s) (toasts s)
    (navigations s) (commands s) (jwtRequests s).

Definition setAdminDisplayNames (v : list string) (s : State) : State :=
  mkState (activeMeeting s) (jitsiApi s) (adminJwt s) (isPageLoading s)
    (isJitsiLoading s) (canJoinMeeting s) (isWaitingForHost s)
    (hostParticipantId s) (adminIds s) v (isCurrentAdmin s) (prevIsAdminRef s)
    (roleEventTick s) (localAdminOverride s) (toasts s) (navigations s)
    (commands s) (jwtRequests s).

Definition setIsCurrentAdmin (v : bool) (s : State) : State :=
  mkState (activeMeeting s) (jitsiApi s) (adminJwt s) (isPageLoading s)
    (isJitsiLoading s) (canJoinMeeting s) (isWaitingForHost s)
    (hostParticipantId s) (adminIds s) (adminDisplayNames s) v
    (prevIsAdminRef s) (roleEventTick s) (localAdminOverride s) (toasts s)
    (navigations s) (commands s) (jwtRequests s).

Definition set_prevIsAdminRef (v : bool) (s : State) : State :=
  mkState (activeMeeting s) (jitsiApi s) (adminJwt s) (isPageLoading s)
    (isJitsiLoading s) (canJoinMeeting s) (isWaitingForHost s)
    (hostParticipantId s) (adminIds s) (adminDisplayNames s)
    (isCurrentAdmin s) v (roleEventTick s) (localAdminOverride s) (toasts s)
    (navigations s) (commands s) (jwtRequests s).

Definition setRoleEventTick (v : nat) (s : State) : State :=
  mkState (activeMeeting s) (jitsiApi s) (adminJwt s) (isPageLoading s)
    (isJitsiLoading s) (canJoinMeeting s) (isWaitingForHost s)
    (hostParticipantId s) (adminIds s) (adminDisplayNames s)
    (isCurrentAdmin s) (prevIsAdminRef s) v (localAdminOverride s) (toasts s)
    (navigations s) (commands s) (jwtRequests s).

Definition setLocalAdminOverride (v : option bool) (s : State) : State :=
  mkState (activeMeeting s) (jitsiApi s) (adminJwt s) (isPageLoading s)
    (isJitsiLoading s) (canJoinMeeting s) (isWaitingForHost s)
    (hostParticipantId s) (adminIds s) (adminDisplayNames s)
    (isCurrentAdmin s) (prevIsAdminRef s) (roleEventTick s) v (toasts s)
    (navigations s) (commands s) (jwtRequests s).

Definition set_toasts (v : list Toast) (s : State) : State :=
  mkState (activeMeeting s) (jitsiApi s) (adminJwt s) (isPageLoading s)
    (isJitsiLoading s) (canJoinMeeting s) (isWaitingForHost s)
    (hostParticipantId s) (adminIds s) (adminDisplayNames s)
    (isCurrentAdmin s) (prevIsAdminRef s) (roleEventTick s)
    (localAdminOverride s) v (navigations s) (commands s) (jwtRequests s).

Definition set_navigations (v : list Navigation) (s : State) : State :=
  mkState (activeMeeting s) (jitsiApi s) (adminJwt s) (isPageLoading s)
    (isJitsiLoading s) (canJoinMeeting s) (isWaitingForHost s)
    (hostParticipantId s) (adminIds s) (adminDisplayNames s)
    (isCurrentAdmin s) (prevIsAdminRef s) (roleEventTick s)
    (localAdminOverride s) (toasts s) v (commands s) (jwtRequests s).

Definition set_commands (v : list Jitsi.Command) (s : State) : State :=
  mkState (activeMeeting s) (jitsiApi s) (adminJwt s) (isPageLoading s)
    (isJitsiLoading s) (canJoinMeeting s) (isWaitingForHost s)
    (hostParticipantId s) (adminIds s) (adminDisplayNames s)
    (isCurrentAdmin s) (prevIsAdminRef s) (roleEventTick s)
    (localAdminOverride s) (toasts s) (navigations s) v (jwtRequests s).

Definition set_jwtRequests (v : list JwtRequest) (s : State) : State :=
  mkState (activeMeeting s) (jitsiApi s) (adminJwt s) (isPageLoading s)
    (isJitsiLoading s) (canJoinMeeting s) (isWaitingForHost s)
    (hostParticipantId s) (adminIds s) (adminDisplayNames s)
    (isCurrentAdmin s) (prevIsAdminRef s) (roleEventTick s)
    (localAdminOverride s) (toasts s) (navigations s) (commands s) v.

(** The state the component mounts with. *)
Definition initial (meetingId : option string) : State :=
  mkState None None None (bool_decide (truthy meetingId ≠ None)) false false false
    None [] [] false false 0 None [] [] [] [].

(** Setters in the order the code calls them. *)
Notation "s |> f" := (f s) (at level 45, left associativity, only parsing).

(** [showToast(t)] *)
Definition showToast (t : Toast) (s : State) : State := set_toasts (toasts s ++ [t]) s.

(** [navigate(path)] and [navigate(path, { replace: true })] *)
Definition navigate (p : string) (s : State) : State :=
  set_navigations (navigations s ++ [mkNavigation p false]) s.

Definition navigate_replace (p : string) (s : State) : State :=
  set_navigations (navigations s ++ [mkNavigation p true]) s.

(** [setRoleEventTick(t => t + 1)] *)
Definition tick (s : State) : State := setRoleEventTick (roleEventTick s + 1) s.

(** [try { jitsiApi.executeCommand(c) } catch (_) {}] on a widget. *)
Definition try_command (api : Jitsi.Widget) (c : Jitsi.Command) (s : State) : State :=
  match Jitsi.raises api c with
  | Some _ => s
  | None => set_commands (commands s ++ [c]) s
  end.

(** The condition under which the page renders the widget. *)
Definition widget_rendered (s : State) : bool :=
  match activeMeeting s with
  | Some m =>
      (isHost m && bool_decide (truthy (adminJwt s) ≠ None))
      || (negb (isHost m) && canJoinMeeting s)
  | None => false
  end.

(** The ban check, as [initializeMeeting] and the subscription to the
    meeting's row both write it: [banned.some(name => (name ||
    '').trim().toLowerCase() === normalizedName)] with [normalizedName]
    the viewer's name trimmed and lower-cased. *)
Definition isBanned (banned : list (option string)) (displayName : string) : bool :=
  let normalizedName := toLowerCase (trim displayName) in
  existsb (λ name, bool_decide (toLowerCase (trim (default "" name)) = normalizedName))
          banned.

Lemma isBanned_spec banned displayName :
  isBanned banned displayName = true ↔
  ∃ name, name ∈ banned ∧
          toLowerCase (trim (default "" name)) = toLowerCase (trim displayName).
Proof.
  unfold isBanned. rewrite existsb_exists. split.
  - intros (name & Hin & Heq). exists name. split.
    + apply list_elem_of_In, Hin.
    + apply bool_decide_eq_true_1 in Heq. exact Heq.
  - intros (name & Hin & Heq). exists name. split.
    + apply list_elem_of_In, Hin.
    + apply bool_decide_eq_true_2, Heq.
Qed.

End Page.

(* ===================================================================== *)
(** ** Session Resolver: [initializeMeeting] *)
(* ===================================================================== *)

Module Resolver.
Import Js Page.

(** The result of [validateMeetingAccess]. *)
Inductive Validation :=
  | Invalid (error : string)
  | Valid (cleanMeetingId : string) (isWebinar : bool) (urlType : string).

Definition validateMeetingAccess (meetingId : option string) (currentPath : string)
    : Validation :=
  match truthy meetingId with
  | None => Invalid "Invalid meeting ID"
  | Some meetingId =>
      let cleanMeetingId := trim meetingId in
      if String.length cleanMeetingId <? 1 then Invalid "Meeting ID cannot be empty"
      else
        let isWebinarPath := includes "/meeting/webinar/" currentPath in
        let isRegularPath := includes "/meeting/" currentPath && negb isWebinarPath in
        if negb isWebinarPath && negb isRegularPath
        then Invalid "Invalid meeting URL structure"
        else Valid cleanMeetingId isWebinarPath
                   (if isWebinarPath then "webinar" else "regular")
  end.

(** What the select of the meeting row comes back with: the row, an
    error or no row, or a rejected promise. *)
Inductive Fetch := Found (meetingData : MeetingRow) | NotFound | Rejected (e : JsError).

(** What becomes of the promise of [createAdminJwt] before the timer of
    5000 ms fires: it resolved, it rejected, or it is still pending. *)
Inductive Jwt := Issued (token : string) | Failed (e : JsError) | Pending.

(** What a run of [initializeMeeting] reads from outside the state: the
    route, the stored role, local storage (taken not to change during
    the run, but for the second read of [joinAsGuest] after the delay),
    the signed-in user and name, the session found after the delay, the
    [meetings] table and the credential service. *)
Record Env := mkEnv {
  meetingId : option string;
  pathname : string;
  role : string;
  localStorage : gmap string string;
  currentUser : option User;
  userName : string;
  finalJoinAsGuest : bool;
  getSession : option User;
  select_meeting : string -> Fetch;
  createAdminJwt : JwtRequest -> Jwt
}.

Definition isWebinarMode (e : Env) : bool := includes "/meeting/webinar/" (pathname e).

(** [role === 'admin' ? '/meeting' : '/home'] *)
Definition home (e : Env) : string :=
  if decide (role e = "admin") then "/meeting" else "/home".

Definition guestPath (e : Env) (meetingId : string) : string :=
  if isWebinarMode e then "/guest/webinar/" +:+ meetingId else "/guest/" +:+ meetingId.

Definition joinAsGuest (e : Env) : bool :=
  bool_decide (localStorage e !! "joinAsGuest" = Some "true").

(** Steps 1 and 2: the display name and user the viewer joins with, or
    [None] when the viewer is sent to the guest page. *)
Definition userIdentity (e : Env) : option (string * option User) :=
  let storedGuestName := default "Guest" (truthy (localStorage e !! "userName")) in
  let displayName :=
    if joinAsGuest e then storedGuestName
    else default "User" (truthy (Some (userName e))) in
  if bool_decide (currentUser e = None) && negb (joinAsGuest e) then
    match getSession e with
    | None => if finalJoinAsGuest e then Some (displayName, None) else None
    | Some user =>
        Some (if decide (displayName = "User")
              then default "User" (truthy (full_name user))
              else displayName,
              Some user)
    end
  else Some (displayName, currentUser e).

(** Step 5: [!!(localHostToken && localHostToken === meetingData.host_token)]. *)
Definition host_check (localHostToken host_token : option string) : bool :=
  match truthy localHostToken with
  | Some t => bool_decide (host_token = Some t)
  | None => false
  end.

(** [Promise.race([jwtPromise, timeoutPromise])] *)
Definition race (j : Jwt) : JsError + string :=
  match j with
  | Issued token => inr token
  | Failed e => inl e
  | Pending => inl (mkJsError Error "JWT creation timeout")
  end.

Definition handleHostJoin (e : Env) (displayName : string) (user : option User)
    (s : State) : State :=
  let request := mkJwtRequest displayName (user ≫= email) (user ≫= avatar_url) in
  let s := set_jwtRequests (jwtRequests s ++ [request]) s in
  match race (createAdminJwt e request) with
  | inr token =>
      s |> setAdminJwt (Some token) |> setCanJoinMeeting true
        |> setIsWaitingForHost false |> setIsJitsiLoading true
  | inl error =>
      let errorMessage :=
        if includes "timeout" (err_message error)
        then "Host setup taking too long. Joining as participant."
        else "Failed to initialize host privileges. Joining as participant." in
      s |> showToast (mkToast "Host Setup Error" errorMessage "warning")
        |> setAdminJwt None |> setCanJoinMeeting true
        |> setIsWaitingForHost false |> setIsJitsiLoading true
  end.

Definition handleParticipantJoin (s : State) : State :=
  s |> setAdminJwt None |> setCanJoinMeeting true
    |> setIsWaitingForHost false |> setIsJitsiLoading true.

(** Steps 1 to 7, inside the [try]. *)
Definition join (e : Env) (meetingId cleanMeetingId : string) (s : State) : State :=
  match userIdentity e with
  | None => s |> navigate_replace (guestPath e meetingId)
  | Some (displayName, user) =>
      match select_meeting e cleanMeetingId with
      | Rejected _ =>
          s |> showToast (mkToast "Connection Error"
                            "Unable to connect to meeting. Please try again." "error")
            |> navigate (home e)
      | NotFound =>
          if bool_decide (currentUser e = None) && negb (joinAsGuest e)
          then s |> navigate_replace (guestPath e meetingId)
          else s |> showToast (mkToast "Error" "Meeting not found or access denied." "error")
                 |> navigate (home e)
      | Found meetingData =>
          if isBanned (array_or_empty (banned_display_names meetingData)) displayName
          then s |> showToast (mkToast "Access Denied"
                                 "You have been removed from this meeting." "error")
                 |> navigate (home e)
          else
            let localHostToken := localStorage e !! ("hostToken_" +:+ cleanMeetingId) in
            let isHost := host_check localHostToken (host_token meetingData) in
            let s := setActiveMeeting
                       (Some (mkMeetingConfig cleanMeetingId displayName isHost meetingData)) s in
            if isHost then handleHostJoin e displayName user s
            else handleParticipantJoin s
      end
  end.

Definition initializeMeeting (e : Env) (s : State) : State :=
  match truthy (meetingId e) with
  | None => s
  | Some meetingId =>
      match validateMeetingAccess (Some meetingId) (pathname e) with
      | Invalid error =>
          s |> showToast (mkToast "Invalid Meeting Link" error "error")
            |> navigate (home e)
      | Valid cleanMeetingId _ _ =>
          if bool_decide (id <$> activeMeeting s = Some cleanMeetingId)
             && bool_decide (jitsiApi s ≠ None)
          then s |> setIsPageLoading false
          else
            s |> setIsPageLoading true |> setIsJitsiLoading false
              |> setCanJoinMeeting false |> setIsWaitingForHost false
              |> join e meetingId cleanMeetingId
              |> setIsPageLoading false
      end
  end.

(** *** Sample environments *)

(** A signed-in viewer called [name] opening [/meeting/abc123], whose row
    is [row], with [storage] as local storage and [jwt] as the fate of
    the credential request. *)
Definition viewer (name : string) (storage : gmap string string) (row : MeetingRow)
    (jwt : Jwt) : Env :=
  mkEnv (Some "abc123") "/meeting/abc123" "user" storage
        (Some (mkUser (Some "v@example.org") None None)) name false None
        (λ _, Found row) (λ _, jwt).

Definition row_abc123 (host_token : option string) (banned : option (list (option string)))
    : MeetingRow :=
  mkMeetingRow "abc123" host_token None None None banned false.

(** *** Ban check *)

(** C4, as stated, fails: the viewer's name and the banned entry are the
    same after the page's [normalize] (the name carries an e with acute
    accent, code unit 233), and the viewer is let in: the check of
    [initializeMeeting] trims and lower-cases, and folds no diacritic. *)
Lemma accented_name_not_banned :
  let name := "Jos" +:+ String "233"%char "" in
  let e := viewer name ∅ (row_abc123 (Some "T1") (Some [Some "jose"])) Pending in
  let s := initializeMeeting e (initial (meetingId e)) in
  normalize name = normalize "jose" ∧
  canJoinMeeting s = true ∧ toasts s = [] ∧ navigations s = [].
Proof. vm_compute. repeat split; reflexivity. Qed.

(** C4, amended.  In a run of [initializeMeeting] before a widget exists,
    with a valid link, an identity and the meeting row [r] found: when an
    entry of the row's banned-name list equals the viewer's display name
    after trimming and lower-casing both, the viewer is shown the toast
    "Access Denied" and sent to the home route, and nothing further
    happens: no meeting becomes active, no credential is requested, the
    page does not allow the join, and (from a page with no active
    meeting) the widget is not rendered.  The host token plays no part. *)
Theorem banned_viewer_redirected e s mid clean w u name user r entry :
  jitsiApi s = None →
  truthy (meetingId e) = Some mid →
  validateMeetingAccess (Some mid) (pathname e) = Valid clean w u →
  userIdentity e = Some (name, user) →
  select_meeting e clean = Found r →
  entry ∈ array_or_empty (banned_display_names r) →
  toLowerCase (trim (default "" entry)) = toLowerCase (trim name) →
  let s' := initializeMeeting e s in
  toasts s' = toasts s ++ [mkToast "Access Denied"
                             "You have been removed from this meeting." "error"] ∧
  navigations s' = navigations s ++ [mkNavigation (home e) false] ∧
  activeMeeting s' = activeMeeting s ∧
  adminJwt s' = adminJwt s ∧
  jwtRequests s' = jwtRequests s ∧
  canJoinMeeting s' = false ∧
  (activeMeeting s = None → widget_rendered s' = false).
Proof.
  intros Hapi Hmid Hval Hid Hsel Hin Heq s'. subst s'.
  unfold initializeMeeting. rewrite Hmid, Hval, Hapi.
  rewrite (bool_decide_eq_false_2 (None ≠ None)) by (intros H; apply H; reflexivity).
  rewrite andb_false_r. unfold join. rewrite Hid, Hsel.
  assert (Hb : isBanned (array_or_empty (banned_display_names r)) name = true).
  { apply isBanned_spec. exists entry. split; assumption. }
  rewrite Hb. simpl. repeat split.
  intros Hnone. unfold widget_rendered. simpl. rewrite Hnone. reflexivity.
Qed.

Lemma banned_viewer_redirected_witness :
  let e := viewer "  John DOE " {[ "hostToken_abc123" := "T1" ]}
                  (row_abc123 (Some "T1") (Some [None; Some "john doe"])) (Issued "jwt") in
  let s' := initializeMeeting e (initial (meetingId e)) in
  toasts s' = [mkToast "Access Denied" "You have been removed from this meeting." "error"] ∧
  navigations s' = [mkNavigation "/home" false] ∧
  activeMeeting s' = None ∧ adminJwt s' = None ∧ jwtRequests s' = [] ∧
  canJoinMeeting s' = false ∧
  (activeMeeting (initial (Some "abc123")) = None → widget_rendered s' = false).
Proof.
  intros e.
  apply (banned_viewer_redirected e (initial (meetingId e)) "abc123" "abc123" false "regular"
           "  John DOE " (currentUser e) (row_abc123 (Some "T1") (Some [None; Some "john doe"]))
           (Some "john doe")).
  - reflexivity.
  - reflexivity.
  - reflexivity.
  - reflexivity.
  - reflexivity.
  - right. left.
  - reflexivity.
Defined.

(** *** Host token and credential *)

Lemma host_check_spec localHostToken host_token :
  host_check localHostToken host_token = true ↔
  ∃ t, localHostToken = Some t ∧ t ≠ "" ∧ host_token = Some t.
Proof.
  unfold host_check. destruct (truthy localHostToken) as [t|] eqn:Ht.
  - apply truthy_Some in Ht as [-> Hne]. rewrite bool_decide_eq_true. split.
    + intros H. exists t. repeat split; assumption.
    + intros (t' & [= <-] & _ & H). exact H.
  - split; [discriminate|]. intros (t & Hl & Hne & _).
    assert (H : truthy localHostToken = Some t) by (apply truthy_Some; split; assumption).
    congruence.
Qed.

(** C6.  In a run of [initializeMeeting] before a widget exists, with a
    valid link, an identity, the meeting row [r] found and the viewer
    not banned, the viewer is marked host exactly when the token stored
    under [hostToken_<meetingId>] exists, is not empty, and is
    string-equal to the row's [host_token].  A host's run requests one
    signed credential; when it is issued before the timer it becomes
    the page's credential and the widget is rendered with it.  When the
    request fails or the timer fires first, the warning toast "Host
    Setup Error" announces "Joining as participant.", the credential is
    left unset and the page's join flag is set; but the viewer is still
    marked host, so the condition under which the page renders the
    widget is false: the viewer does not join.  A viewer who is not
    marked host joins without a credential. *)
Theorem host_resolved e s mid clean w u name user r :
  jitsiApi s = None →
  truthy (meetingId e) = Some mid →
  validateMeetingAccess (Some mid) (pathname e) = Valid clean w u →
  userIdentity e = Some (name, user) →
  select_meeting e clean = Found r →
  isBanned (array_or_empty (banned_display_names r)) name = false →
  let s' := initializeMeeting e s in
  let request := mkJwtRequest name (user ≫= email) (user ≫= avatar_url) in
  ∃ h, activeMeeting s' = Some (mkMeetingConfig clean name h r) ∧
       (h = true ↔ ∃ t, localStorage e !! ("hostToken_" +:+ clean) = Some t ∧
                        t ≠ "" ∧ host_token r = Some t) ∧
       canJoinMeeting s' = true ∧
       if h then
         jwtRequests s' = jwtRequests s ++ [request] ∧
         match createAdminJwt e request with
         | Issued token =>
             adminJwt s' = Some token ∧ toasts s' = toasts s ∧
             widget_rendered s' = bool_decide (token ≠ "")
         | Failed err =>
             adminJwt s' = None ∧
             toasts s' = toasts s ++
               [mkToast "Host Setup Error"
                  (if includes "timeout" (err_message err)
                   then "Host setup taking too long. Joining as participant."
                   else "Failed to initialize host privileges. Joining as participant.")
                  "warning"] ∧
             widget_rendered s' = false
         | Pending =>
             adminJwt s' = None ∧
             toasts s' = toasts s ++
               [mkToast "Host Setup Error"
                  "Host setup taking too long. Joining as participant." "warning"] ∧
             widget_rendered s' = false
         end
       else jwtRequests s' = jwtRequests s ∧ adminJwt s' = None ∧ toasts s' = toasts s ∧
            widget_rendered s' = true.
Proof.
  intros Hapi Hmid Hval Hid Hsel Hban s' request. subst s'.
  unfold initializeMeeting. rewrite Hmid, Hval, Hapi.
  rewrite (bool_decide_eq_false_2 (None ≠ None)) by (intros H; apply H; reflexivity).
  rewrite andb_false_r. unfold join. rewrite Hid, Hsel, Hban.
  exists (host_check (localStorage e !! ("hostToken_" +:+ clean)) (host_token r)).
  pose proof (host_check_spec (localStorage e !! ("hostToken_" +:+ clean)) (host_token r)) as Hspec.
  destruct (host_check _ _).
  - unfold handleHostJoin. fold request.
    destruct (createAdminJwt e request) as [token|err|]; simpl;
      (split; [reflexivity|]); (split; [exact Hspec|]); repeat split.
    unfold widget_rendered. simpl. rewrite orb_false_r. case_decide as Ht.
    + subst token. reflexivity.
    + rewrite bool_decide_eq_true_2 by discriminate.
      rewrite bool_decide_eq_true_2 by exact Ht. reflexivity.
  - simpl. split; [reflexivity|]. split; [exact Hspec|]. repeat split.
Qed.

Lemma host_resolved_witness :
  let e := viewer "Ann" {[ "hostToken_abc123" := "T1" ]} (row_abc123 (Some "T1") None) Pending in
  let s' := initializeMeeting e (initial (meetingId e)) in
  activeMeeting s' = Some (mkMeetingConfig "abc123" "Ann" true (row_abc123 (Some "T1") None)) ∧
  jwtRequests s' = [mkJwtRequest "Ann" (Some "v@example.org") None] ∧
  adminJwt s' = None ∧ canJoinMeeting s' = true ∧
  toasts s' = [mkToast "Host Setup Error"
                 "Host setup taking too long. Joining as participant." "warning"] ∧
  widget_rendered s' = false.
Proof.
  intros e s'. subst s'.
  destruct (host_resolved e (initial (meetingId e)) "abc123" "abc123" false "regular"
              "Ann" (currentUser e) (row_abc123 (Some "T1") None))
    as (h & Hcfg & Hh & Hjoin & Hrest); try reflexivity.
  destruct h.
  - destruct Hrest as (Hreq & Hjwt & Htoast & Hwidget).
    rewrite Hcfg, Hreq, Hjwt, Htoast, Hjoin, Hwidget. repeat split.
  - exfalso. destruct Hh as [_ Hh].
    enough (false = true) by discriminate.
    apply Hh. exists "T1". repeat split. discriminate.
Defined.

(** *** Further properties of the resolver *)

(** A link is valid exactly when the meeting id is not blank and the
    path includes [/meeting/]; the id is then trimmed, and the link is a
    webinar's exactly when the path includes [/meeting/webinar/]. *)
Theorem validateMeetingAccess_spec meetingId currentPath clean isWebinar urlType :
  validateMeetingAccess (Some meetingId) currentPath = Valid clean isWebinar urlType ↔
  trim meetingId ≠ "" ∧ includes "/meeting/" currentPath = true ∧
  clean = trim meetingId ∧
  isWebinar = includes "/meeting/webinar/" currentPath ∧
  urlType = (if isWebinar then "webinar" else "regular").
Proof.
  unfold validateMeetingAccess. simpl truthy.
  assert (Hweb : includes "/meeting/webinar/" currentPath = true →
                 includes "/meeting/" currentPath = true)
    by apply (includes_app_l "/meeting/" "webinar/").
  assert (Hblank : trim "" = "") by reflexivity.
  case_decide as Hid.
  - subst meetingId. split; [discriminate|]. intros (H & _). contradiction.
  - destruct (trim meetingId) as [|c t] eqn:Ht; simpl.
    + split; [discriminate|]. intros (H & _). contradiction.
    + destruct (includes "/meeting/webinar/" currentPath) eqn:Hw;
        destruct (includes "/meeting/" currentPath) eqn:Hr; simpl.
      * split; [intros [= <- <- <-]; repeat split; discriminate|].
        intros (_ & _ & -> & -> & ->). reflexivity.
      * discriminate (Hweb eq_refl).
      * split; [intros [= <- <- <-]; repeat split; discriminate|].
        intros (_ & _ & -> & -> & ->). reflexivity.
      * split; [discriminate|]. intros (_ & H & _). discriminate.
Qed.

(** A link that fails validation is answered by the toast "Invalid
    Meeting Link" with one of two messages, and by a navigation home;
    the meeting is not fetched and nothing else changes. *)
Theorem invalid_link_redirects e s mid error :
  truthy (meetingId e) = Some mid →
  validateMeetingAccess (Some mid) (pathname e) = Invalid error →
  error ∈ ["Meeting ID cannot be empty"; "Invalid meeting URL structure"] ∧
  initializeMeeting e s =
    (s |> showToast (mkToast "Invalid Meeting Link" error "error") |> navigate (home e)).
Proof.
  intros Hmid Hval. split.
  - revert Hval. unfold validateMeetingAccess. apply truthy_Some in Hmid as [_ Hne].
    simpl truthy. rewrite decide_False by exact Hne.
    repeat case_match; intros [= <-]; set_solver.
  - unfold initializeMeeting. rewrite Hmid, Hval. reflexivity.
Qed.

Lemma invalid_link_redirects_witness :
  let e := mkEnv (Some "abc123") "/profile" "admin" ∅ None "" false None
             (λ _, NotFound) (λ _, Pending) in
  let s := initializeMeeting e (initial (meetingId e)) in
  toasts s = [mkToast "Invalid Meeting Link" "Invalid meeting URL structure" "error"] ∧
  navigations s = [mkNavigation "/meeting" false].
Proof.
  intros e s. subst s.
  destruct (invalid_link_redirects e (initial (meetingId e)) "abc123"
              "Invalid meeting URL structure") as [_ ->]; [reflexivity ..|].
  split; reflexivity.
Defined.

(** Every run on a valid link ends with the page no longer loading. *)
Theorem run_ends_loading e s mid clean w u :
  truthy (meetingId e) = Some mid →
  validateMeetingAccess (Some mid) (pathname e) = Valid clean w u →
  isPageLoading (initializeMeeting e s) = false.
Proof.
  intros Hmid Hval. unfold initializeMeeting. rewrite Hmid, Hval.
  destruct (_ && _); reflexivity.
Qed.

Lemma run_ends_loading_witness :
  isPageLoading (initializeMeeting (viewer "Ann" ∅ (row_abc123 None None) Pending)
                   (initial (Some "abc123"))) = false.
Proof.
  apply (run_ends_loading _ _ "abc123" "abc123" false "regular"); reflexivity.
Defined.

(** A viewer who is neither signed in nor a guest, and for whom no
    session turns up, is sent to the guest page of the meeting (the
    webinar's when the path is a webinar's), replacing the history
    entry, without a toast, a fetch of the meeting or a join. *)
Theorem stranger_sent_to_guest_page e s mid clean w u :
  jitsiApi s = None →
  truthy (meetingId e) = Some mid →
  validateMeetingAccess (Some mid) (pathname e) = Valid clean w u →
  currentUser e = None → joinAsGuest e = false →
  getSession e = None → finalJoinAsGuest e = false →
  let s' := initializeMeeting e s in
  navigations s' = navigations s ++
    [mkNavigation ((if w then "/guest/webinar/" else "/guest/") +:+ mid) true] ∧
  toasts s' = toasts s ∧ activeMeeting s' = activeMeeting s ∧
  jwtRequests s' = jwtRequests s ∧ canJoinMeeting s' = false.
Proof.
  intros Hapi Hmid Hval Hu Hg Hs Hf s'. subst s'.
  apply truthy_Some in Hmid as Hmid'. destruct Hmid' as [_ Hne].
  pose proof (proj1 (validateMeetingAccess_spec mid (pathname e) clean w u) Hval)
    as (_ & _ & _ & Hw & _).
  unfold initializeMeeting. rewrite Hmid, Hval, Hapi.
  rewrite (bool_decide_eq_false_2 (None ≠ None)) by (intros H; apply H; reflexivity).
  rewrite andb_false_r. unfold join, userIdentity. rewrite Hu, Hg, Hs, Hf. simpl.
  unfold guestPath, isWebinarMode. rewrite <- Hw. destruct w; repeat split.
Qed.

Lemma stranger_sent_to_guest_page_witness :
  let e := mkEnv (Some "abc123") "/meeting/webinar/abc123" "" ∅ None "" false None
             (λ _, NotFound) (λ _, Pending) in
  let s' := initializeMeeting e (initial (meetingId e)) in
  navigations s' = [mkNavigation "/guest/webinar/abc123" true] ∧
  toasts s' = [] ∧ activeMeeting s' = None ∧ jwtRequests s' = [] ∧
  canJoinMeeting s' = false.
Proof.
  intros e.
  apply (stranger_sent_to_guest_page e (initial (meetingId e)) "abc123" "abc123" true
           "webinar"); reflexivity.
Defined.

(** Whether the page renders the widget once a run has resolved the
    viewer: always for a participant; for a host only when a non-empty
    credential was issued before the timer, and not after the request
    failed or timed out. *)
Theorem widget_after_resolution e s mid clean w u name user r :
  jitsiApi s = None →
  truthy (meetingId e) = Some mid →
  validateMeetingAccess (Some mid) (pathname e) = Valid clean w u →
  userIdentity e = Some (name, user) →
  select_meeting e clean = Found r →
  isBanned (array_or_empty (banned_display_names r)) name = false →
  widget_rendered (initializeMeeting e s) =
  if host_check (localStorage e !! ("hostToken_" +:+ clean)) (host_token r)
  then match createAdminJwt e (mkJwtRequest name (user ≫= email) (user ≫= avatar_url)) with
       | Issued token => bool_decide (token ≠ "")
       | Failed _ | Pending => false
       end
  else true.
Proof.
  intros Hapi Hmid Hval Hid Hsel Hban.
  unfold initializeMeeting. rewrite Hmid, Hval, Hapi.
  rewrite (bool_decide_eq_false_2 (None ≠ None)) by (intros H; apply H; reflexivity).
  rewrite andb_false_r. unfold join. rewrite Hid, Hsel, Hban.
  destruct (host_check _ _); [|reflexivity].
  unfold handleHostJoin.
  destruct (createAdminJwt e _) as [token|err|]; unfold widget_rendered; simpl;
    try reflexivity.
  rewrite orb_false_r. case_decide as Ht.
  - subst token. reflexivity.
  - rewrite bool_decide_eq_true_2 by discriminate.
    rewrite bool_decide_eq_true_2 by exact Ht. reflexivity.
Qed.

Lemma widget_after_resolution_witness :
  widget_rendered
    (initializeMeeting (viewer "Ann" {[ "hostToken_abc123" := "T1" ]}
                          (row_abc123 (Some "T1") None) (Issued "jwt"))
       (initial (Some "abc123"))) = true.
Proof.
  rewrite (widget_after_resolution _ _ "abc123" "abc123" false "regular" "Ann"
             (Some (mkUser (Some "v@example.org") None None))
             (row_abc123 (Some "T1") None)); reflexivity.
Defined.

(** A run allows the join only for a meeting it has found and made
    active, and only for a viewer the row does not ban. *)
Theorem join_needs_meeting e s :
  jitsiApi s = None → canJoinMeeting s = false →
  canJoinMeeting (initializeMeeting e s) = true →
  ∃ mid name h r,
    truthy (meetingId e) = Some mid ∧
    select_meeting e (trim mid) = Found r ∧
    isBanned (array_or_empty (banned_display_names r)) name = false ∧
    activeMeeting (initializeMeeting e s) = Some (mkMeetingConfig (trim mid) name h r).
Proof.
  intros Hapi Hno. unfold initializeMeeting.
  destruct (truthy (meetingId e)) as [mid|] eqn:Hmid; [|congruence].
  destruct (validateMeetingAccess (Some mid) (pathname e)) as [err|clean w u] eqn:Hval;
    [simpl; congruence|].
  apply validateMeetingAccess_spec in Hval as (_ & _ & -> & _ & _).
  rewrite Hapi.
  rewrite (bool_decide_eq_false_2 (None ≠ None)) by (intros H; apply H; reflexivity).
  rewrite andb_false_r. unfold join.
  destruct (userIdentity e) as [[name user]|]; [|simpl; congruence].
  destruct (select_meeting e (trim mid)) as [r| |err] eqn:Hsel;
    [| destruct (_ && _); simpl; congruence | simpl; congruence].
  destruct (isBanned _ name) eqn:Hban; [simpl; congruence|].
  intros _. exists mid, name, (host_check (localStorage e !! ("hostToken_" +:+ trim mid))
                                 (host_token r)), r.
  repeat split; try assumption.
  destruct (host_check _ _); [|reflexivity].
  unfold handleHostJoin. destruct (race _); reflexivity.
Qed.

Lemma join_needs_meeting_witness :
  let e := viewer "Ann" ∅ (row_abc123 (Some "T1") None) Pending in
  ∃ mid name h r,
    truthy (meetingId e) = Some mid ∧
    select_meeting e (trim mid) = Found r ∧
    isBanned (array_or_empty (banned_display_names r)) name = false ∧
    activeMeeting (initializeMeeting e (initial (meetingId e)))
      = Some (mkMeetingConfig (trim mid) name h r).
Proof.
  intros e. apply (join_needs_meeting e (initial (meetingId e))); reflexivity.
Defined.

End Resolver.

(* ===================================================================== *)
(** ** Role Reconciler: [isCurrentAdmin], the override, the toasts *)
(* ===================================================================== *)

Module Reconciler.
Import Js Page.

(** What the handlers read besides the state: the stored role and the
    viewer's name. *)
Record Props := mkProps { role : string; userName : string }.

Definition home (p : Props) : string :=
  if decide (role p = "admin") then "/meeting" else "/home".

Definition granted : Toast :=
  mkToast "Admin rights granted" "You now have admin controls." "success".

Definition removed : Toast :=
  mkToast "Admin rights removed" "You are no longer an admin." "info".

(** The entry of the participant list the effect takes for the viewer:
    [list.find(p => p.participantId === myId)]. *)
Definition me (api : Jitsi.Widget) : option Jitsi.ParticipantInfo :=
  find (λ p, bool_decide (Jitsi.participantId p = Jitsi.myUserId api))
       (Jitsi.getParticipantsInfo api).

(** [next] of the effect that computes [isCurrentAdmin], for a widget
    that is there. *)
Definition next (api : Jitsi.Widget) (s : State) : bool :=
  let myId := Jitsi.myUserId api in
  let myNameNorm :=
    match me api with
    | Some me =>
        match truthy (Jitsi.formattedDisplayName me), truthy (Jitsi.displayName me) with
        | Some n, _ => normalize n
        | None, Some n => normalize n
        | None, None => normalize (from_option displayName "" (activeMeeting s))
        end
    | None => normalize (from_option displayName "" (activeMeeting s))
    end in
  let isModerator :=
    match me api with
    | Some me => Jitsi.isModerator me || bool_decide (Jitsi.role me = Some "moderator")
    | None => false
    end in
  let dbAdminById :=
    match truthy myId with
    | Some myId => bool_decide (myId ∈ adminIds s)
    | None => false
    end in
  let dbAdminByName :=
    match truthy (Some myNameNorm) with
    | Some n => bool_decide (n ∈ adminDisplayNames s)
    | None => false
    end in
  match localAdminOverride s with
  | Some true => true
  | Some false => false
  | None =>
      isModerator || dbAdminById || dbAdminByName
      || from_option isHost false (activeMeeting s)
  end.

(** The effect that computes [isCurrentAdmin]. *)
Definition recompute (s : State) : State :=
  match jitsiApi s with
  | None => s
  | Some api => setIsCurrentAdmin (next api s) s
  end.

(** The effect that toasts a change of [isCurrentAdmin]. *)
Definition toast_effect (s : State) : State :=
  if bool_decide (prevIsAdminRef s ≠ isCurrentAdmin s) then
    let s :=
      if negb (from_option isHost false (activeMeeting s))
      then showToast (if isCurrentAdmin s then granted else removed) s
      else s in
    set_prevIsAdminRef (isCurrentAdmin s) s
  else s.

(** The two effects, in the order React runs them after a render. *)
Definition settle (s : State) : State := toast_effect (recompute s).

(** What both the role listener and the role broadcast do when the role
    that changed is the viewer's own. *)
Definition own_role_changed (api : Jitsi.Widget) (id role : option string) (s : State)
    : State :=
  match truthy id, truthy (Jitsi.myUserId api) with
  | Some id, Some myId =>
      if decide (id = myId) then
        if decide (role = Some "moderator")
        then s |> showToast granted |> setLocalAdminOverride (Some true)
        else s |> showToast removed |> setLocalAdminOverride (Some false)
      else s
  | _, _ => s
  end.

(** Listener of [participantRoleChanged]. *)
Definition onRoleChanged (api : Jitsi.Widget) (id role : option string) (s : State)
    : State :=
  s |> tick
    |> try_command api
         (Jitsi.sendEndpointTextMessage ""
            (Jitsi.mkPayload (Some "role-broadcast") id role))
    |> own_role_changed api id role.

(** Listener of the endpoint text messages; [None] stands for an event
    without a text that parses to an object. *)
Definition onEndpointMessage (api : Jitsi.Widget) (payload : option Jitsi.Payload)
    (s : State) : State :=
  match payload with
  | None => s
  | Some payload =>
      let ty := Jitsi.payload_type payload in
      let s := if decide (ty = Some "admin-granted")
               then s |> showToast granted |> tick else s in
      let s := if decide (ty = Some "admin-revoked")
               then s |> showToast removed |> tick else s in
      if decide (ty = Some "role-broadcast")
      then s |> tick
             |> own_role_changed api (Jitsi.payload_id payload) (Jitsi.payload_role payload)
      else s
  end.

(** Handler of an INSERT on [meeting_actions], in every tab. *)
Definition onActionInserted (p : Props) (m : MeetingConfig) (api : Jitsi.Widget)
    (action : option ActionRow) (s : State) : State :=
  match action with
  | None => s
  | Some action =>
      if decide (type action = "end-meeting") then
        s |> try_command api Jitsi.hangup |> setActiveMeeting None
          |> setJitsiApi None |> navigate (home p)
      else
        let myId := truthy (Jitsi.myUserId api) in
        let myName := truthy (Some (normalize (displayName m))) in
        let targetedById :=
          match truthy (target_participant_id action), myId with
          | Some t, Some myId => bool_decide (t = myId)
          | _, _ => false
          end in
        let targetedByName :=
          match truthy (target_display_name_normalized action), myName with
          | Some t, Some myName => bool_decide (t = myName)
          | _, _ => false
          end in
        if targetedById || targetedByName then
          let s :=
            if bool_decide (type action = "grant-moderator")
               || bool_decide (type action = "notify-admin-granted")
            then s |> showToast granted |> tick |> setLocalAdminOverride (Some true)
            else s in
          if bool_decide (type action = "revoke-moderator")
             || bool_decide (type action = "notify-admin-revoked")
          then s |> showToast removed |> tick |> setLocalAdminOverride (Some false)
          else s
        else s
  end.

(** [activeMeeting?.displayName || userName || 'Guest'] *)
Definition viewer_name (p : Props) (m : MeetingConfig) : string :=
  match truthy (Some (displayName m)), truthy (Some (userName p)) with
  | Some n, _ => n
  | None, Some n => n
  | None, None => "Guest"
  end.

(** Handler of a change of the meeting's row, without the whiteboard
    part; [dispose] leaves no trace in the state. *)
Definition onMeetingRow (p : Props) (m : MeetingConfig) (data : MeetingRow) (s : State)
    : State :=
  let s := match truthy (host_participant_id data) with
           | Some h => setHostParticipantId (Some h) s
           | None => s
           end in
  let s := s |> setAdminIds (array_or_empty (admin_ids data))
             |> setAdminDisplayNames
                  (normalize <$> array_or_empty (admin_display_names data))
             |> tick in
  let name := viewer_name p m in
  if isBanned (array_or_empty (banned_display_names data)) name then
    s |> showToast (mkToast "Removed by host" "You cannot rejoin this meeting." "error")
      |> setActiveMeeting None |> setJitsiApi None |> navigate (home p)
  else if negb (isHost m)
          && bool_decide (truthy (host_participant_id data) ≠ None)
          && negb (canJoinMeeting s)
  then s |> setCanJoinMeeting true |> setIsWaitingForHost false |> setIsJitsiLoading true
  else s.

(** What can happen to a tab in a meeting. *)
Inductive Event :=
  | RoleChanged (id role : option string)
  | EndpointMessage (payload : option Jitsi.Payload)
  | ActionInserted (action : option ActionRow)
  | MeetingRowChanged (data : MeetingRow)
  | Poll.

(** The handler of an event, where the tab listens to it: the widget's
    listeners need the widget, the subscription to [meeting_actions]
    needs the widget and a meeting with an id, the one to the meeting's
    row a meeting with an id. *)
Definition handle (p : Props) (ev : Event) (s : State) : State :=
  let meeting :=
    match activeMeeting s with
    | Some m => if decide (id m = "") then None else Some m
    | None => None
    end in
  match ev, meeting, jitsiApi s with
  | RoleChanged id role, _, Some api => onRoleChanged api id role s
  | EndpointMessage payload, _, Some api => onEndpointMessage api payload s
  | ActionInserted action, Some m, Some api => onActionInserted p m api action s
  | MeetingRowChanged data, Some m, _ => onMeetingRow p m data s
  | Poll, _, Some _ => tick s
  | _, _, _ => s
  end.

(** An event and the effects that follow it. *)
Definition step (p : Props) (ev : Event) (s : State) : State := settle (handle p ev s).

(** [handleApiReady(api)], called by the widget once it is rendered: the
    cells it sets and the command it sends in a host's tab.  The
    listeners it registers are the widget's events of [handle];
    registering them is taken not to throw. *)
Definition handleApiReady (api : Jitsi.Widget) (s : State) : State :=
  let s := s |> setJitsiApi (Some api) |> setIsJitsiLoading false
             |> setIsPageLoading false in
  if from_option isHost false (activeMeeting s)
  then try_command api (Jitsi.toggleLobby true) s
  else s.

(** *** Sample tabs *)

(** A widget whose local participant is [myId], with the participant
    list [list], that accepts every command. *)
Definition widget_of (myId : string) (list : list Jitsi.ParticipantInfo) : Jitsi.Widget :=
  Jitsi.mkWidget (Some myId) list (λ _, None).

(** The tab of a viewer called [name] in meeting [abc123], once the
    widget is ready and the effects have run. *)
Definition tab_of (name : string) (host : bool) (api : Jitsi.Widget) : State :=
  initial (Some "abc123")
    |> setActiveMeeting
         (Some (mkMeetingConfig "abc123" name host
                  (mkMeetingRow "abc123" (Some "T1") None None None None false)))
    |> setCanJoinMeeting true |> setJitsiApi (Some api) |> settle.

(** *** What the computed boolean depends on *)

(** The cells the computation of [isCurrentAdmin] reads. *)
Definition same_inputs (s s' : State) : Prop :=
  jitsiApi s = jitsiApi s' ∧ activeMeeting s = activeMeeting s' ∧
  adminIds s = adminIds s' ∧ adminDisplayNames s = adminDisplayNames s' ∧
  localAdminOverride s = localAdminOverride s'.

Lemma next_ext api s s' : same_inputs s s' → next api s = next api s'.
Proof.
  intros (_ & Hm & Hi & Hn & Ho). unfold next. rewrite Hm, Hi, Hn, Ho. reflexivity.
Qed.

Lemma next_override api s b : localAdminOverride s = Some b → next api s = b.
Proof. intros H. unfold next. rewrite H. destruct b; reflexivity. Qed.

Lemma settle_inputs s : same_inputs (settle s) s.
Proof.
  unfold settle, toast_effect, recompute.
  destruct (jitsiApi s) eqn:Hapi; case_bool_decide; simpl;
    try destruct (negb _); repeat split; simpl; try assumption; reflexivity.
Qed.

Lemma settle_current s :
  isCurrentAdmin (settle s) =
  match jitsiApi s with Some api => next api s | None => isCurrentAdmin s end.
Proof.
  unfold settle, toast_effect, recompute.
  destruct (jitsiApi s) eqn:Hapi; case_bool_decide; simpl;
    try destruct (negb _); reflexivity.
Qed.

(** No handler writes the computed boolean: only the effect does. *)
Lemma handle_current p ev s : isCurrentAdmin (handle p ev s) = isCurrentAdmin s.
Proof.
  unfold handle, onRoleChanged, onEndpointMessage, onActionInserted, onMeetingRow,
    own_role_changed, try_command, tick.
  repeat (case_match; simpl; try reflexivity).
Qed.

Lemma same_inputs_sym s s' : same_inputs s s' → same_inputs s' s.
Proof. intros (? & ? & ? & ? & ?). repeat split; symmetry; assumption. Qed.

Lemma same_inputs_trans s s' s'' :
  same_inputs s s' → same_inputs s' s'' → same_inputs s s''.
Proof.
  intros (? & ? & ? & ? & ?) (? & ? & ? & ? & ?).
  repeat split; etransitivity; eassumption.
Qed.

(** The override after a change of role that may be the viewer's own. *)
Definition own_override (api : Jitsi.Widget) (id role : option string)
    (override : option bool) : option bool :=
  match truthy id, truthy (Jitsi.myUserId api) with
  | Some id, Some myId =>
      if decide (id = myId) then Some (bool_decide (role = Some "moderator"))
      else override
  | _, _ => override
  end.

Lemma own_override_idem api id role o :
  own_override api id role (own_override api id role o) = own_override api id role o.
Proof. unfold own_override. repeat case_match; reflexivity. Qed.

Lemma own_role_changed_inputs api id role s :
  same_inputs (own_role_changed api id role s)
    (setLocalAdminOverride (own_override api id role (localAdminOverride s)) s).
Proof.
  unfold own_role_changed, own_override.
  repeat case_match; repeat split; simpl; try reflexivity;
    f_equal; symmetry; first [apply bool_decide_eq_true_2 | apply bool_decide_eq_false_2];
    assumption.
Qed.

Lemma onRoleChanged_inputs api id role s :
  same_inputs (onRoleChanged api id role s)
    (setLocalAdminOverride (own_override api id role (localAdminOverride s)) s).
Proof.
  unfold onRoleChanged.
  eapply same_inputs_trans; [apply own_role_changed_inputs|].
  unfold try_command, tick. case_match; repeat split.
Qed.

Lemma handle_role_changed p id role s :
  handle p (RoleChanged id role) s =
  match jitsiApi s with Some api => onRoleChanged api id role s | None => s end.
Proof. unfold handle. repeat case_match; reflexivity. Qed.

Lemma handle_meeting_row p data s :
  handle p (MeetingRowChanged data) s =
  match activeMeeting s with
  | Some m => if decide (id m = "") then s else onMeetingRow p m data s
  | None => s
  end.
Proof. unfold handle. repeat case_match; simplify_eq; reflexivity. Qed.

Lemma onMeetingRow_inputs p m data s :
  same_inputs (onMeetingRow p m data s)
    (let s := s |> setAdminIds (array_or_empty (admin_ids data))
                |> setAdminDisplayNames
                     (normalize <$> array_or_empty (admin_display_names data)) in
     if isBanned (array_or_empty (banned_display_names data)) (viewer_name p m)
     then s |> setActiveMeeting None |> setJitsiApi None
     else s).
Proof.
  unfold onMeetingRow, tick. simpl.
  destruct (isBanned _ _); repeat case_match; repeat split.
Qed.

(** Handling a role change or a row snapshot a second time leaves the
    cells the computation reads as the first time left them. *)
Lemma handle_role_changed_idem p id role s s1 :
  same_inputs s1 (handle p (RoleChanged id role) s) →
  same_inputs (handle p (RoleChanged id role) s1) (handle p (RoleChanged id role) s).
Proof.
  rewrite !handle_role_changed. intros H.
  destruct (jitsiApi s) as [api|] eqn:Hapi.
  - pose proof (onRoleChanged_inputs api id role s) as Hs.
    pose proof (same_inputs_trans _ _ _ H Hs) as (Ha & Hm & Hi & Hn & Ho).
    simpl in Ha, Hm, Hi, Hn, Ho. rewrite Ha, Hapi.
    eapply same_inputs_trans; [apply onRoleChanged_inputs|].
    eapply same_inputs_trans; [|apply same_inputs_sym, Hs].
    rewrite Ho, own_override_idem. repeat split; simpl; assumption.
  - destruct H as (Ha & Hm & Hi & Hn & Ho). rewrite Ha, Hapi.
    repeat split; assumption.
Qed.

Lemma handle_meeting_row_idem p data s s1 :
  same_inputs s1 (handle p (MeetingRowChanged data) s) →
  same_inputs (handle p (MeetingRowChanged data) s1) (handle p (MeetingRowChanged data) s).
Proof.
  rewrite !handle_meeting_row. intros H.
  destruct (activeMeeting s) as [m|] eqn:Hm;
    [destruct (decide (id m = "")) as [Hid|Hid]|].
  - pose proof H as (_ & Hm1 & _). rewrite Hm1, Hm, decide_True by exact Hid. exact H.
  - pose proof (onMeetingRow_inputs p m data s) as Hs.
    pose proof (same_inputs_trans _ _ _ H Hs) as H1. simpl in H1.
    destruct (isBanned _ _) eqn:Hb.
    + pose proof H1 as (_ & Hm1 & _). simpl in Hm1. rewrite Hm1. exact H.
    + pose proof H1 as (Ha1 & Hm1 & Hi1 & Hn1 & Ho1).
      simpl in Ha1, Hm1, Hi1, Hn1, Ho1. rewrite Hm1, Hm, decide_False by exact Hid.
      eapply same_inputs_trans; [apply onMeetingRow_inputs|].
      eapply same_inputs_trans; [|apply same_inputs_sym, Hs].
      simpl. rewrite Hb. repeat split; simpl; assumption.
  - pose proof H as (_ & Hm1 & _). rewrite Hm1, Hm. exact H.
Qed.

Lemma settle_same h h' :
  same_inputs h' h → isCurrentAdmin h' = isCurrentAdmin (settle h) →
  isCurrentAdmin (settle h') = isCurrentAdmin (settle h).
Proof.
  intros Hin Hcur. rewrite (settle_current h'). pose proof Hin as (Ha & _).
  rewrite Ha. destruct (jitsiApi h) as [api|] eqn:Hapi; [|exact Hcur].
  rewrite (next_ext api h' h Hin), settle_current, Hapi. reflexivity.
Qed.

(** *** Idempotence of the computed boolean *)

(** C3.  Delivering the same [participantRoleChanged] event, or the same
    snapshot of the meeting's row, a second time leaves the computed
    moderator boolean as the first delivery left it. *)
Theorem redelivery_idempotent p s id role data :
  isCurrentAdmin (step p (RoleChanged id role) (step p (RoleChanged id role) s))
    = isCurrentAdmin (step p (RoleChanged id role) s) ∧
  isCurrentAdmin (step p (MeetingRowChanged data) (step p (MeetingRowChanged data) s))
    = isCurrentAdmin (step p (MeetingRowChanged data) s).
Proof.
  unfold step. split.
  - apply settle_same; [|apply handle_current].
    apply handle_role_changed_idem, settle_inputs.
  - apply settle_same; [|apply handle_current].
    apply handle_meeting_row_idem, settle_inputs.
Qed.

(** *** The manual override *)

(** The inserted row names the viewer, by participant id or by
    normalized display name. *)
Definition targeted (m : MeetingConfig) (api : Jitsi.Widget) (a : ActionRow) : Prop :=
  (∃ t, truthy (target_participant_id a) = Some t ∧
        truthy (Jitsi.myUserId api) = Some t) ∨
  (∃ t, truthy (target_display_name_normalized a) = Some t ∧
        t = normalize (displayName m)).

Definition promotes (a : ActionRow) : Prop :=
  type a = "grant-moderator" ∨ type a = "notify-admin-granted".

Definition demotes (a : ActionRow) : Prop :=
  type a = "revoke-moderator" ∨ type a = "notify-admin-revoked".

Lemma handle_override p ev s b :
  localAdminOverride s = Some b → ∃ b', localAdminOverride (handle p ev s) = Some b'.
Proof.
  intros H. unfold handle, onRoleChanged, onEndpointMessage, onActionInserted,
    onMeetingRow, own_role_changed, try_command, tick.
  repeat (case_match; simpl; eauto).
Qed.

Lemma targeted_test m api a :
  targeted m api a →
  match truthy (target_participant_id a), truthy (Jitsi.myUserId api) with
  | Some t, Some myId => bool_decide (t = myId)
  | _, _ => false
  end
  || match truthy (target_display_name_normalized a),
           truthy (Some (normalize (displayName m))) with
     | Some t, Some myName => bool_decide (t = myName)
     | _, _ => false
     end = true.
Proof.
  intros [(t & Ht & Hme) | (t & Ht & Heq)].
  - rewrite Ht, Hme, bool_decide_eq_true_2 by reflexivity. reflexivity.
  - rewrite Ht. subst t. apply truthy_Some in Ht as [_ Hne].
    assert (Hn : truthy (Some (normalize (displayName m))) = Some (normalize (displayName m)))
      by (apply truthy_Some; split; [reflexivity | exact Hne]).
    rewrite Hn, bool_decide_eq_true_2 by reflexivity. apply orb_true_r.
Qed.

Lemma watcher_promotes p m api a s :
  targeted m api a → promotes a →
  onActionInserted p m api (Some a) s =
  s |> showToast granted |> tick |> setLocalAdminOverride (Some true).
Proof.
  intros Htg Hpro. unfold onActionInserted.
  rewrite decide_False by (destruct Hpro as [-> | ->]; discriminate).
  rewrite (targeted_test m api a Htg).
  destruct Hpro as [Hty | Hty]; rewrite Hty; reflexivity.
Qed.

Lemma watcher_demotes p m api a s :
  targeted m api a → demotes a →
  onActionInserted p m api (Some a) s =
  s |> showToast removed |> tick |> setLocalAdminOverride (Some false).
Proof.
  intros Htg Hdem. unfold onActionInserted.
  rewrite decide_False by (destruct Hdem as [-> | ->]; discriminate).
  rewrite (targeted_test m api a Htg).
  destruct Hdem as [Hty | Hty]; rewrite Hty; reflexivity.
Qed.

Lemma handle_action p a s m api :
  activeMeeting s = Some m → id m ≠ "" → jitsiApi s = Some api →
  handle p (ActionInserted a) s = onActionInserted p m api a s.
Proof.
  intros Hm Hid Hapi. unfold handle. rewrite Hm, Hapi, decide_False by exact Hid.
  reflexivity.
Qed.

(** In a tab with a widget and an active meeting:
    - when the override is set, the computed boolean is the override's
      value, whatever the widget reports, the lists hold and [isHost]
      says;
    - an inserted row that names the viewer, by participant id or by
      normalized display name, sets the override to forced-true when it
      promotes and to forced-false when it demotes, and the computed
      boolean follows;
    - no event unsets the override: after any event it is still set, and
      the computed boolean is its value as long as the widget is there. *)
Theorem override_precedence p s api m a ev :
  jitsiApi s = Some api → activeMeeting s = Some m → id m ≠ "" →
  (∀ b, localAdminOverride s = Some b → isCurrentAdmin (settle s) = b) ∧
  (targeted m api a → promotes a →
   localAdminOverride (step p (ActionInserted (Some a)) s) = Some true ∧
   isCurrentAdmin (step p (ActionInserted (Some a)) s) = true) ∧
  (targeted m api a → demotes a →
   localAdminOverride (step p (ActionInserted (Some a)) s) = Some false ∧
   isCurrentAdmin (step p (ActionInserted (Some a)) s) = false) ∧
  (∀ b, localAdminOverride s = Some b →
        ∃ b', localAdminOverride (step p ev s) = Some b' ∧
              (jitsiApi (step p ev s) ≠ None → isCurrentAdmin (step p ev s) = b')).
Proof.
  intros Hapi Hm Hid. split; [|split; [|split]].
  - intros b Hb. rewrite settle_current, Hapi. apply next_override, Hb.
  - intros Htg Hpro. unfold step.
    rewrite (handle_action p (Some a) s m api Hm Hid Hapi).
    rewrite (watcher_promotes p m api a s Htg Hpro).
    destruct (settle_inputs (s |> showToast granted |> tick
                               |> setLocalAdminOverride (Some true)))
      as (_ & _ & _ & _ & Ho).
    split; [exact Ho|]. rewrite settle_current. simpl. rewrite Hapi.
    apply next_override. reflexivity.
  - intros Htg Hdem. unfold step.
    rewrite (handle_action p (Some a) s m api Hm Hid Hapi).
    rewrite (watcher_demotes p m api a s Htg Hdem).
    destruct (settle_inputs (s |> showToast removed |> tick
                               |> setLocalAdminOverride (Some false)))
      as (_ & _ & _ & _ & Ho).
    split; [exact Ho|]. rewrite settle_current. simpl. rewrite Hapi.
    apply next_override. reflexivity.
  - intros b Hb. destruct (handle_override p ev s b Hb) as [b' Hb'].
    exists b'. unfold step.
    destruct (settle_inputs (handle p ev s)) as (Ha & _ & _ & _ & Ho).
    split; [rewrite Ho; exact Hb'|].
    rewrite Ha, settle_current. destruct (jitsiApi (handle p ev s)) as [api'|].
    + intros _. apply next_override, Hb'.
    + intros H. contradiction.
Qed.

Lemma override_precedence_witness :
  let api := widget_of "p7" [Jitsi.mkParticipantInfo (Some "p7") (Some "Bob") None false
                               (Some "participant")] in
  let s := tab_of "Bob" false api in
  let a := mkActionRow "a1" "grant-moderator" None (Some "bob") None None None
             "pending" None None None in
  let s' := step (mkProps "user" "Bob") (ActionInserted (Some a)) s in
  isCurrentAdmin s = false ∧
  localAdminOverride s' = Some true ∧ isCurrentAdmin s' = true.
Proof.
  intros api s a s'. split; [reflexivity|].
  apply (override_precedence (mkProps "user" "Bob") s api
           (mkMeetingConfig "abc123" "Bob" false
              (mkMeetingRow "abc123" (Some "T1") None None None None false))
           a Poll).
  - reflexivity.
  - reflexivity.
  - discriminate.
  - right. exists "bob". split; reflexivity.
  - left. reflexivity.
Defined.

(** *** The override across meetings *)

(** No branch of [initializeMeeting] writes the override, and neither
    does [handleApiReady]. *)
Lemma initializeMeeting_override e s :
  localAdminOverride (Resolver.initializeMeeting e s) = localAdminOverride s.
Proof.
  unfold Resolver.initializeMeeting, Resolver.join, Resolver.handleHostJoin,
    Resolver.handleParticipantJoin.
  repeat (case_match; simpl; try reflexivity).
Qed.

Lemma handleApiReady_override api s :
  localAdminOverride (handleApiReady api s) = localAdminOverride s ∧
  jitsiApi (handleApiReady api s) = Some api.
Proof.
  unfold handleApiReady, try_command. repeat (case_match; simpl); split; reflexivity.
Qed.

(** The page a viewer comes back to for the meeting [xyz789], of which
    the viewer holds the host token; the credential is issued. *)
Definition returning_host : Resolver.Env :=
  Resolver.mkEnv (Some "xyz789") "/meeting/xyz789" "admin"
    {[ "hostToken_xyz789" := "T2" ]}
    (Some (mkUser (Some "bob@example.org") None None)) "Bob" false None
    (λ _, Resolver.Found (mkMeetingRow "xyz789" (Some "T2") None None None None false))
    (λ _, Resolver.Issued "jwt").

(** C2.  The override is not reset by a navigation.  In a tab where it
    is set, no event unsets it; in particular an [end-meeting] row makes
    the page drop the meeting and navigate to its home route with the
    override as it was.  When the page then resolves another meeting
    and its widget becomes ready, the override is still the old one and
    the computed boolean is its value, whatever the viewer is in the
    new meeting. *)
Theorem override_outlives_meeting p s m api a e api' b :
  activeMeeting s = Some m → id m ≠ "" → jitsiApi s = Some api →
  localAdminOverride s = Some b →
  type a = "end-meeting" →
  let gone := step p (ActionInserted (Some a)) s in
  let back := settle (handleApiReady api' (Resolver.initializeMeeting e gone)) in
  (∀ ev, localAdminOverride (step p ev s) ≠ None) ∧
  activeMeeting gone = None ∧
  navigations gone = navigations s ++ [mkNavigation (home p) false] ∧
  localAdminOverride gone = Some b ∧
  localAdminOverride back = Some b ∧
  isCurrentAdmin back = b.
Proof.
  intros Hm Hid Hapi Hb Hty gone back.
  assert (Hgone : activeMeeting gone = None ∧
                  navigations gone = navigations s ++ [mkNavigation (home p) false] ∧
                  localAdminOverride gone = Some b).
  { subst gone. unfold step.
    rewrite (handle_action p (Some a) s m api Hm Hid Hapi).
    unfold onActionInserted. rewrite decide_True by exact Hty.
    unfold settle, recompute, toast_effect, try_command.
    destruct (Jitsi.raises api Jitsi.hangup); simpl;
      case_bool_decide; simpl; repeat split; exact Hb. }
  destruct Hgone as (Hg1 & Hg2 & Hg3).
  assert (Hback : localAdminOverride
                    (handleApiReady api' (Resolver.initializeMeeting e gone)) = Some b).
  { rewrite (proj1 (handleApiReady_override _ _)), initializeMeeting_override. exact Hg3. }
  split; [|repeat split; try assumption].
  - intros ev Hnone. destruct (handle_override p ev s b Hb) as [b' Hb'].
    destruct (settle_inputs (handle p ev s)) as (_ & _ & _ & _ & Ho).
    unfold step in Hnone. congruence.
  - subst back.
    destruct (settle_inputs (handleApiReady api' (Resolver.initializeMeeting e gone)))
      as (_ & _ & _ & _ & Ho).
    rewrite Ho. exact Hback.
  - subst back. rewrite settle_current.
    rewrite (proj2 (handleApiReady_override _ _)). apply next_override, Hback.
Qed.

Lemma override_outlives_meeting_witness :
  let p := mkProps "admin" "Bob" in
  let s := step p (RoleChanged (Some "p7") (Some "participant"))
             (tab_of "Bob" false (widget_of "p7" [])) in
  let a := mkActionRow "a9" "end-meeting" None None None None None "pending" None None None in
  let gone := step p (ActionInserted (Some a)) s in
  let back := settle (handleApiReady (widget_of "p9" [])
                        (Resolver.initializeMeeting returning_host gone)) in
  localAdminOverride s = Some false ∧
  navigations gone = [mkNavigation "/meeting" false] ∧
  isHost <$> activeMeeting back = Some true ∧
  adminJwt back = Some "jwt" ∧
  localAdminOverride back = Some false ∧
  isCurrentAdmin back = false.
Proof.
  intros p s a gone back.
  destruct (override_outlives_meeting p s
              (mkMeetingConfig "abc123" "Bob" false
                 (mkMeetingRow "abc123" (Some "T1") None None None None false))
              (widget_of "p7" []) a returning_host (widget_of "p9" []) false)
    as (_ & _ & Hnav & _ & Ho & Hc);
    [reflexivity | discriminate | reflexivity | reflexivity | reflexivity |].
  split; [reflexivity|]. split; [exact Hnav|]. split; [reflexivity|].
  split; [reflexivity|]. split; [exact Ho | exact Hc].
Defined.

(** *** The toasts of a transition *)

Lemma handle_prev p ev s : prevIsAdminRef (handle p ev s) = prevIsAdminRef s.
Proof.
  unfold handle, onRoleChanged, onEndpointMessage, onActionInserted, onMeetingRow,
    own_role_changed, try_command, tick.
  repeat (case_match; simpl; try reflexivity).
Qed.

(** The toast of the transition effect for a value of the computed
    boolean. *)
Definition toast_of (b : bool) : Toast := if b then granted else removed.

(** What a handler does to the override and the toasts: it drops the
    widget; or it leaves the override and shows nothing or one notice;
    or it sets the override and shows the toast of the value it set. *)
Lemma handle_cases p ev s :
  let s1 := handle p ev s in
  jitsiApi s1 = None ∨
  (localAdminOverride s1 = localAdminOverride s ∧
   (toasts s1 = toasts s ∨ toasts s1 = toasts s ++ [granted]
    ∨ toasts s1 = toasts s ++ [removed])) ∨
  (∃ b, localAdminOverride s1 = Some b ∧ toasts s1 = toasts s ++ [toast_of b]).
Proof.
  unfold handle, onRoleChanged, onEndpointMessage, onActionInserted, onMeetingRow,
    own_role_changed, try_command, tick.
  repeat (case_match; simpl);
    first [ left; reflexivity
          | right; left; split; [reflexivity|];
            first [left; reflexivity | right; left; reflexivity | right; right; reflexivity]
          | right; right; exists true; split; reflexivity
          | right; right; exists false; split; reflexivity
          | idtac ].
  all: try congruence.
  all: exfalso; repeat case_bool_decide; simpl in *; congruence.
Qed.


Lemma next_host api s :
  localAdminOverride s = None → from_option isHost false (activeMeeting s) = true →
  next api s = true.
Proof. intros Ho Hh. unfold next. rewrite Ho, Hh. apply orb_true_r. Qed.

(** The toasts of an event and its effects, when the computed boolean
    changes. *)
Lemma step_toasts p ev s :
  prevIsAdminRef s = isCurrentAdmin s →
  isCurrentAdmin (step p ev s) ≠ isCurrentAdmin s →
  (∃ api, jitsiApi (handle p ev s) = Some api ∧
          isCurrentAdmin (step p ev s) = next api (handle p ev s)) ∧
  toasts (step p ev s) =
  if from_option isHost false (activeMeeting (handle p ev s))
  then toasts (handle p ev s)
  else toasts (handle p ev s) ++ [toast_of (isCurrentAdmin (step p ev s))].
Proof.
  intros Hprev. unfold step. rewrite settle_current.
  pose proof (handle_prev p ev s) as Hp. pose proof (handle_current p ev s) as Hc.
  unfold settle, recompute, toast_effect.
  destruct (jitsiApi (handle p ev s)) as [api|]; [|intros H; congruence].
  intros Hchg. split; [exists api; split; reflexivity|]. simpl.
  rewrite bool_decide_eq_true_2 by congruence.
  destruct (from_option isHost false (activeMeeting (handle p ev s))); reflexivity.
Qed.

(** The two conditions under which a transition is observed hold
    after every event and its effects: the remembered value is the
    computed boolean, and a set override is the computed boolean. *)
Lemma step_keeps_invariants p ev s :
  (∀ b, localAdminOverride s = Some b → isCurrentAdmin s = b) →
  prevIsAdminRef (step p ev s) = isCurrentAdmin (step p ev s) ∧
  (∀ b, localAdminOverride (step p ev s) = Some b → isCurrentAdmin (step p ev s) = b).
Proof.
  intros Hinv. split.
  - unfold step, settle, toast_effect. case_bool_decide as H; simpl; [reflexivity|].
    destruct (decide (prevIsAdminRef (recompute (handle p ev s))
                      = isCurrentAdmin (recompute (handle p ev s)))); tauto.
  - intros b. unfold step.
    destruct (settle_inputs (handle p ev s)) as (_ & _ & _ & _ & Ho). rewrite Ho.
    rewrite settle_current. intros Hb.
    destruct (jitsiApi (handle p ev s)) as [api|] eqn:Hapi; [apply next_override, Hb|].
    rewrite handle_current. apply Hinv. rewrite <- Hb. symmetry.
    revert Hapi. clear.
    unfold handle, onRoleChanged, onEndpointMessage, onActionInserted, onMeetingRow,
      own_role_changed, try_command, tick.
    repeat (case_match; simpl); intros; try reflexivity; congruence.
Qed.

(** C7, as stated, fails: in the tab of a viewer who is not the host the
    widget reports that the viewer's own role changed to moderator; the
    computed boolean goes from false to true, one transition, and
    "Admin rights granted" is shown twice, by the listener and by the
    transition effect. *)
Lemma own_promotion_toasted_twice :
  let s := tab_of "Bob" false (widget_of "p7" []) in
  let s' := step (mkProps "user" "Bob") (RoleChanged (Some "p7") (Some "moderator")) s in
  prevIsAdminRef s = isCurrentAdmin s ∧
  isCurrentAdmin s = false ∧ isCurrentAdmin s' = true ∧
  toasts s = [] ∧ toasts s' = [granted; granted].
Proof. vm_compute. repeat split; reflexivity. Qed.

(** C7, amended.  Take an event and the effects that follow it, in a tab
    where the previous transition was seen (the remembered value is the
    computed boolean, and a set override is the computed boolean), and
    let the computed boolean change.
    - In the tab of a viewer who is not the meeting's host the transition
      effect shows one toast for the new value, after what the event's
      handler showed: nothing, or one "Admin rights granted" or "Admin
      rights removed".  When the handler changed the override (the
      viewer's own role change, a role broadcast about the viewer, a
      queued notification addressed to the viewer), its toast is the
      one for the new value too: that transition shows it twice.
    - In the host's tab the transition effect shows nothing.  Either no
      override is set and the new value is true, which is the host's
      bootstrap into moderator status; or the handler set the override
      to the new value and showed the one toast for it. *)
Theorem transition_toasts p ev s :
  prevIsAdminRef s = isCurrentAdmin s →
  (∀ b, localAdminOverride s = Some b → isCurrentAdmin s = b) →
  isCurrentAdmin (step p ev s) ≠ isCurrentAdmin s →
  let s1 := handle p ev s in
  let s' := step p ev s in
  let t := if isCurrentAdmin s' then granted else removed in
  if from_option isHost false (activeMeeting s1) then
    (localAdminOverride s1 = None ∧ isCurrentAdmin s' = true ∧ toasts s' = toasts s1)
    ∨ (localAdminOverride s1 = Some (isCurrentAdmin s') ∧ toasts s' = toasts s ++ [t])
  else
    toasts s' = toasts s1 ++ [t] ∧
    (toasts s1 = toasts s ∨ toasts s1 = toasts s ++ [granted]
     ∨ toasts s1 = toasts s ++ [removed]) ∧
    (localAdminOverride s1 ≠ localAdminOverride s →
     toasts s' = toasts s ++ [t; t]).
Proof.
  intros Hprev Hinv Hchg s1 s' t.
  destruct (step_toasts p ev s Hprev Hchg) as ((api & Hapi & Hnew) & Htoasts).
  fold s1 s' in Hapi, Hnew, Htoasts, Hchg.
  change (toast_of (isCurrentAdmin s')) with t in Htoasts.
  pose proof (handle_cases p ev s) as Hcases. simpl in Hcases. fold s1 in Hcases.
  destruct Hcases as [Hnone | [(Hsame & Hshown) | (b & Hset & Hshown)]]; [congruence| |].
  - (* the handler left the override *)
    destruct (from_option isHost false (activeMeeting s1)) eqn:Hhost.
    + left. destruct (localAdminOverride s1) as [b|] eqn:Ho.
      * exfalso. apply Hchg. rewrite Hnew, (next_override api s1 b Ho).
        symmetry. apply Hinv. congruence.
      * split; [reflexivity|]. split; [|exact Htoasts].
        rewrite Hnew. apply next_host; assumption.
    + split; [exact Htoasts|]. split; [exact Hshown|]. intros Hne. contradiction.
  - (* the handler set the override *)
    assert (Hb : isCurrentAdmin s' = b) by (rewrite Hnew; apply next_override, Hset).
    assert (Ht : toast_of b = t) by (subst t; rewrite Hb; reflexivity).
    rewrite Ht in Hshown.
    destruct (from_option isHost false (activeMeeting s1)) eqn:Hhost.
    + right. split; [congruence|]. rewrite Htoasts. exact Hshown.
    + split; [exact Htoasts|]. split.
      * subst t. destruct (isCurrentAdmin s'); auto.
      * intros _. rewrite Htoasts, Hshown, <- app_assoc. reflexivity.
Qed.


Lemma transition_toasts_witness :
  let s := tab_of "Ann" true (widget_of "h" []) in
  let s' := step (mkProps "user" "Ann") (RoleChanged (Some "h") (Some "participant")) s in
  isCurrentAdmin s = true ∧ isCurrentAdmin s' = false ∧
  toasts s' = toasts s ++ [removed].
Proof.
  intros s s'. split; [reflexivity|]. split; [reflexivity|].
  assert (H1 : prevIsAdminRef s = isCurrentAdmin s) by reflexivity.
  assert (H2 : ∀ b, localAdminOverride s = Some b → isCurrentAdmin s = b)
    by (intros b; discriminate).
  assert (H3 : isCurrentAdmin
                 (step (mkProps "user" "Ann") (RoleChanged (Some "h") (Some "participant")) s)
               ≠ isCurrentAdmin s) by (vm_compute; discriminate).
  pose proof (transition_toasts (mkProps "user" "Ann")
                (RoleChanged (Some "h") (Some "participant")) s H1 H2 H3) as H.
  vm_compute in H. destruct H as [(Hn & _) | (_ & Ht)]; [discriminate Hn | exact Ht].
Defined.


(** *** Further properties of the reconciler *)


(** After an event and its effects the remembered value is the computed
    boolean again; and when the event changed the computed boolean in
    the tab of a viewer who is not the meeting's host, the last toast
    shown is the one for the new value. *)
Theorem non_host_transition_toasted p ev s :
  prevIsAdminRef (step p ev s) = isCurrentAdmin (step p ev s) ∧
  (prevIsAdminRef s = isCurrentAdmin s →
   from_option isHost false (activeMeeting (handle p ev s)) = false →
   isCurrentAdmin (step p ev s) ≠ isCurrentAdmin s →
   last (toasts (step p ev s))
     = Some (if isCurrentAdmin (step p ev s) then granted else removed)).
Proof.
  unfold step, settle. split.
  - unfold toast_effect. case_bool_decide as H; simpl; [reflexivity|].
    destruct (decide (prevIsAdminRef (recompute (handle p ev s))
                      = isCurrentAdmin (recompute (handle p ev s)))); tauto.
  - intros Hprev Hhost Hchg. revert Hchg. unfold toast_effect, recompute.
    pose proof (handle_prev p ev s) as Hp. pose proof (handle_current p ev s) as Hc.
    destruct (jitsiApi (handle p ev s)) as [api|]; simpl.
    + rewrite Hp, Hhost. simpl. case_bool_decide as Hd; simpl.
      * intros _. rewrite last_snoc. reflexivity.
      * intros Hchg. exfalso. apply Hchg. rewrite <- Hprev.
        destruct (decide (prevIsAdminRef s = next api (handle p ev s))); [congruence | tauto].
    + case_bool_decide as Hd; simpl; rewrite ?Hhost; simpl; intros Hchg;
        exfalso; apply Hchg; exact Hc.
Qed.

(** An inserted [end-meeting] row makes every tab of the meeting leave,
    whatever its status and target: the widget is asked to hang up, the
    meeting and the widget are dropped, and the page goes home; the
    override and the computed boolean stay as they were. *)
Theorem end_meeting_leaves p s m api a :
  activeMeeting s = Some m → id m ≠ "" → jitsiApi s = Some api →
  type a = "end-meeting" →
  let s' := step p (ActionInserted (Some a)) s in
  activeMeeting s' = None ∧ jitsiApi s' = None ∧
  navigations s' = navigations s ++ [mkNavigation (home p) false] ∧
  localAdminOverride s' = localAdminOverride s ∧
  isCurrentAdmin s' = isCurrentAdmin s ∧
  (Jitsi.raises api Jitsi.hangup = None → commands s' = commands s ++ [Jitsi.hangup]).
Proof.
  intros Hm Hid Hapi Hty s'. subst s'. unfold step.
  rewrite (handle_action p (Some a) s m api Hm Hid Hapi).
  unfold onActionInserted. rewrite decide_True by exact Hty.
  unfold settle, recompute, toast_effect, try_command.
  destruct (Jitsi.raises api Jitsi.hangup); simpl;
    case_bool_decide; simpl; repeat split; intros; congruence.
Qed.

Lemma end_meeting_leaves_witness :
  let s := tab_of "Bob" false (widget_of "p7" []) in
  let a := mkActionRow "a9" "end-meeting" None None None None None "done" None None None in
  let s' := step (mkProps "admin" "Bob") (ActionInserted (Some a)) s in
  activeMeeting s' = None ∧ jitsiApi s' = None ∧
  navigations s' = [mkNavigation "/meeting" false] ∧
  commands s' = [Jitsi.hangup].
Proof.
  intros s a s'. subst s'.
  destruct (end_meeting_leaves (mkProps "admin" "Bob") s
              (mkMeetingConfig "abc123" "Bob" false
                 (mkMeetingRow "abc123" (Some "T1") None None None None false))
              (widget_of "p7" []) a) as (H1 & H2 & H3 & _ & _ & H4);
    [reflexivity | discriminate | reflexivity | reflexivity |].
  rewrite H1, H2, H3, H4 by reflexivity. repeat split.
Defined.

(** A snapshot of the meeting's row whose banned-name list holds the
    viewer's name (both trimmed and lower-cased) removes the viewer,
    host or not: the toast "Removed by host" is shown, the meeting and
    the widget are dropped and the page goes home; the moderator lists
    of the snapshot were stored before. *)
Theorem banned_viewer_removed p s m data entry :
  activeMeeting s = Some m → id m ≠ "" →
  entry ∈ array_or_empty (banned_display_names data) →
  toLowerCase (trim (default "" entry)) = toLowerCase (trim (viewer_name p m)) →
  let s' := handle p (MeetingRowChanged data) s in
  activeMeeting s' = None ∧ jitsiApi s' = None ∧
  toasts s' = toasts s ++
    [mkToast "Removed by host" "You cannot rejoin this meeting." "error"] ∧
  navigations s' = navigations s ++ [mkNavigation (home p) false] ∧
  adminIds s' = array_or_empty (admin_ids data) ∧
  adminDisplayNames s' = normalize <$> array_or_empty (admin_display_names data).
Proof.
  intros Hm Hid Hin Heq s'. subst s'.
  rewrite handle_meeting_row, Hm, decide_False by exact Hid.
  unfold onMeetingRow.
  assert (Hb : isBanned (array_or_empty (banned_display_names data)) (viewer_name p m) = true)
    by (apply isBanned_spec; exists entry; split; assumption).
  rewrite Hb. destruct (truthy (host_participant_id data)); repeat split.
Qed.

Lemma banned_viewer_removed_witness :
  let s := tab_of "Bob" true (widget_of "p7" []) in
  let data := mkMeetingRow "abc123" (Some "T1") None (Some ["p1"]) None
                (Some [Some " BOB"]) false in
  let s' := handle (mkProps "user" "Bob") (MeetingRowChanged data) s in
  activeMeeting s' = None ∧ jitsiApi s' = None ∧
  toasts s' = [mkToast "Removed by host" "You cannot rejoin this meeting." "error"] ∧
  navigations s' = [mkNavigation "/home" false] ∧
  adminIds s' = ["p1"] ∧ adminDisplayNames s' = [].
Proof.
  intros s data.
  apply (banned_viewer_removed (mkProps "user" "Bob") s
           (mkMeetingConfig "abc123" "Bob" true
              (mkMeetingRow "abc123" (Some "T1") None None None None false))
           data (Some " BOB")).
  - reflexivity.
  - discriminate.
  - left.
  - reflexivity.
Defined.

Lemma non_host_transition_toasted_witness :
  let api := widget_of "p7" [] in
  let s := tab_of "Bob" false api in
  let ev := RoleChanged (Some "p7") (Some "moderator") in
  last (toasts (step (mkProps "user" "Bob") ev s)) = Some granted.
Proof.
  intros api s ev.
  apply (proj2 (non_host_transition_toasted (mkProps "user" "Bob") ev s));
    [reflexivity | reflexivity | discriminate].
Defined.

(** The test of the watcher: the row names the viewer. *)
Lemma targeted_test_inv m api a :
  match truthy (target_participant_id a), truthy (Jitsi.myUserId api) with
  | Some t, Some myId => bool_decide (t = myId)
  | _, _ => false
  end
  || match truthy (target_display_name_normalized a),
           truthy (Some (normalize (displayName m))) with
     | Some t, Some myName => bool_decide (t = myName)
     | _, _ => false
     end = true →
  targeted m api a.
Proof.
  intros H. apply orb_true_iff in H as [H|H].
  - left. destruct (truthy (target_participant_id a)) as [t|]; [|discriminate].
    destruct (truthy (Jitsi.myUserId api)) as [i|]; [|discriminate].
    apply bool_decide_eq_true_1 in H as ->. exists i. split; reflexivity.
  - right. destruct (truthy (target_display_name_normalized a)) as [t|]; [|discriminate].
    destruct (truthy (Some (normalize (displayName m)))) as [n|] eqn:Hn; [|discriminate].
    apply bool_decide_eq_true_1 in H as ->.
    apply truthy_Some in Hn as [[= <-] _]. exists (normalize (displayName m)).
    split; reflexivity.
Qed.

(** An inserted row that does not name the viewer and does not end the
    meeting leaves the tab as it is, whatever its type. *)
Theorem other_rows_ignored p s m api a :
  activeMeeting s = Some m → id m ≠ "" → jitsiApi s = Some api →
  type a ≠ "end-meeting" → ¬ targeted m api a →
  handle p (ActionInserted (Some a)) s = s.
Proof.
  intros Hm Hid Hapi Hty Htg.
  rewrite (handle_action p (Some a) s m api Hm Hid Hapi).
  unfold onActionInserted. rewrite decide_False by exact Hty.
  match goal with
  | |- (if ?t then _ else _) = _ => destruct t eqn:Ht
  end; [|reflexivity].
  exfalso. apply Htg, targeted_test_inv, Ht.
Qed.

Lemma other_rows_ignored_witness :
  let s := tab_of "Bob" false (widget_of "p7" []) in
  handle (mkProps "user" "Bob")
    (ActionInserted (Some (mkActionRow "a1" "grant-moderator" (Some "p8") (Some "carol")
                             None None None "pending" None None None))) s = s.
Proof.
  intros s.
  apply (other_rows_ignored (mkProps "user" "Bob") s
           (mkMeetingConfig "abc123" "Bob" false
              (mkMeetingRow "abc123" (Some "T1") None None None None false))
           (widget_of "p7" [])).
  - reflexivity.
  - discriminate.
  - reflexivity.
  - discriminate.
  - intros [(t & Ht & Hme) | (t & Ht & Hn)].
    + vm_compute in Ht, Hme. congruence.
    + vm_compute in Ht, Hn. congruence.
Defined.

(** A snapshot of the meeting's row that lists the viewer's participant
    id among the moderators makes the viewer a moderator in the tab,
    when no override is set and the snapshot does not ban the viewer. *)
Theorem listed_id_is_admin p s m api data i :
  activeMeeting s = Some m → id m ≠ "" → jitsiApi s = Some api →
  truthy (Jitsi.myUserId api) = Some i →
  i ∈ array_or_empty (admin_ids data) →
  localAdminOverride s = None →
  isBanned (array_or_empty (banned_display_names data)) (viewer_name p m) = false →
  isCurrentAdmin (step p (MeetingRowChanged data) s) = true.
Proof.
  intros Hm Hid Hapi Hi Hin Ho Hb. unfold step.
  rewrite settle_current, handle_meeting_row, Hm, decide_False by exact Hid.
  pose proof (onMeetingRow_inputs p m data s) as Hs. simpl in Hs. rewrite Hb in Hs.
  pose proof Hs as (Ha & _). simpl in Ha. rewrite Ha, Hapi.
  rewrite (next_ext api _ _ Hs). unfold next. simpl. rewrite Ho, Hi.
  rewrite (bool_decide_eq_true_2 _ Hin). rewrite orb_true_r. reflexivity.
Qed.

Lemma listed_id_is_admin_witness :
  let s := tab_of "Bob" false (widget_of "p7" []) in
  let data := mkMeetingRow "abc123" (Some "T1") (Some "h") (Some ["h"; "p7"]) None None false in
  isCurrentAdmin s = false ∧
  isCurrentAdmin (step (mkProps "user" "Bob") (MeetingRowChanged data) s) = true.
Proof.
  intros s data. split; [reflexivity|].
  apply (listed_id_is_admin (mkProps "user" "Bob") s
           (mkMeetingConfig "abc123" "Bob" false
              (mkMeetingRow "abc123" (Some "T1") None None None None false))
           (widget_of "p7" []) data "p7"); try reflexivity.
  - discriminate.
  - right. left.
Defined.

(** The messages [admin-granted] and [admin-revoked] only show a toast:
    they leave the override and the lists alone, so the computed boolean
    is what it would be without them. *)
Theorem notices_only_toast p s api payload :
  jitsiApi s = Some api →
  Jitsi.payload_type payload = Some "admin-granted"
  ∨ Jitsi.payload_type payload = Some "admin-revoked" →
  let s' := handle p (EndpointMessage (Some payload)) s in
  toasts s' = toasts s ++
    [if decide (Jitsi.payload_type payload = Some "admin-granted")
     then granted else removed] ∧
  same_inputs s' s ∧
  isCurrentAdmin (settle s') = isCurrentAdmin (settle s).
Proof.
  intros Hapi Hty s'. subst s'.
  assert (Hh : handle p (EndpointMessage (Some payload)) s
               = onEndpointMessage api (Some payload) s).
  { unfold handle. rewrite Hapi. repeat case_match; reflexivity. }
  rewrite Hh. clear Hh. unfold onEndpointMessage.
  destruct Hty as [Hty | Hty]; rewrite Hty; simpl;
    (split; [reflexivity|]); (split; [repeat split|]);
    rewrite !settle_current; simpl; rewrite Hapi;
    apply next_ext; repeat split.
Qed.

Lemma notices_only_toast_witness :
  let s := tab_of "Bob" false (widget_of "p7" []) in
  let s' := handle (mkProps "user" "Bob")
              (EndpointMessage (Some (Jitsi.mkPayload (Some "admin-granted") None None))) s in
  toasts s' = [granted] ∧ same_inputs s' s ∧
  isCurrentAdmin (settle s') = isCurrentAdmin (settle s).
Proof.
  intros s.
  apply (notices_only_toast (mkProps "user" "Bob") s (widget_of "p7" [])
           (Jitsi.mkPayload (Some "admin-granted") None None)).
  - reflexivity.
  - left. reflexivity.
Defined.

(** *** Idempotence for every event *)

(** The override after an inserted row. *)
Definition action_override (m : MeetingConfig) (api : Jitsi.Widget) (a : ActionRow)
    (override : option bool) : option bool :=
  if match truthy (target_participant_id a), truthy (Jitsi.myUserId api) with
     | Some t, Some myId => bool_decide (t = myId)
     | _, _ => false
     end
     || match truthy (target_display_name_normalized a),
              truthy (Some (normalize (displayName m))) with
        | Some t, Some myName => bool_decide (t = myName)
        | _, _ => false
        end
  then
    let override :=
      if bool_decide (type a = "grant-moderator")
         || bool_decide (type a = "notify-admin-granted")
      then Some true else override in
    if bool_decide (type a = "revoke-moderator")
       || bool_decide (type a = "notify-admin-revoked")
    then Some false else override
  else override.

Lemma action_override_idem m api a o :
  action_override m api a (action_override m api a o) = action_override m api a o.
Proof. unfold action_override. repeat case_match; reflexivity. Qed.

Lemma onActionInserted_inputs p m api a s :
  same_inputs (onActionInserted p m api (Some a) s)
    (if decide (type a = "end-meeting")
     then s |> setActiveMeeting None |> setJitsiApi None
     else setLocalAdminOverride (action_override m api a (localAdminOverride s)) s).
Proof.
  unfold onActionInserted, action_override, try_command, tick.
  repeat case_match; repeat split.
Qed.

Lemma handle_action_cases p a s :
  handle p (ActionInserted a) s =
  match activeMeeting s, jitsiApi s with
  | Some m, Some api => if decide (id m = "") then s else onActionInserted p m api a s
  | _, _ => s
  end.
Proof. unfold handle. repeat case_match; simplify_eq; reflexivity. Qed.

Lemma handle_action_idem p a s s1 :
  same_inputs s1 (handle p (ActionInserted a) s) →
  same_inputs (handle p (ActionInserted a) s1) (handle p (ActionInserted a) s).
Proof.
  rewrite !handle_action_cases. intros H.
  destruct (activeMeeting s) as [m|] eqn:Hm;
    [destruct (jitsiApi s) as [api|] eqn:Hapi;
     [destruct (decide (id m = "")) as [Hid|Hid]|]|].
  - pose proof H as (Ha1 & Hm1 & _). rewrite Hm1, Hm, Ha1, Hapi, decide_True by exact Hid.
    exact H.
  - destruct a as [a|].
    + pose proof (onActionInserted_inputs p m api a s) as Hs.
      pose proof (same_inputs_trans _ _ _ H Hs) as H1.
      destruct (decide (type a = "end-meeting")) as [Hty|Hty].
      * pose proof H1 as (_ & Hm1 & _). simpl in Hm1. rewrite Hm1. exact H.
      * pose proof H1 as (Ha1 & Hm1 & Hi1 & Hn1 & Ho1).
        simpl in Ha1, Hm1, Hi1, Hn1, Ho1.
        rewrite Hm1, Hm, Ha1, Hapi, decide_False by exact Hid.
        eapply same_inputs_trans; [apply onActionInserted_inputs|].
        eapply same_inputs_trans; [|apply same_inputs_sym, Hs].
        rewrite !decide_False by exact Hty.
        rewrite Ho1, action_override_idem. repeat split; simpl; assumption.
    + pose proof H as (Ha1 & Hm1 & _). simpl in Ha1, Hm1.
      rewrite Hm1, Hm, Ha1, Hapi, decide_False by exact Hid. exact H.
  - pose proof H as (Ha1 & Hm1 & _). rewrite Hm1, Hm, Ha1, Hapi. exact H.
  - pose proof H as (_ & Hm1 & _). rewrite Hm1, Hm. exact H.
Qed.

(** The override after an endpoint message. *)
Definition message_override (api : Jitsi.Widget) (payload : option Jitsi.Payload)
    (override : option bool) : option bool :=
  match payload with
  | Some payload =>
      if decide (Jitsi.payload_type payload = Some "role-broadcast")
      then own_override api (Jitsi.payload_id payload) (Jitsi.payload_role payload) override
      else override
  | None => override
  end.

Lemma onEndpointMessage_inputs api payload s :
  same_inputs (onEndpointMessage api payload s)
    (setLocalAdminOverride (message_override api payload (localAdminOverride s)) s).
Proof.
  unfold onEndpointMessage, message_override. destruct payload as [payload|]; [|repeat split].
  destruct (decide (Jitsi.payload_type payload = Some "role-broadcast")) as [Hty|Hty].
  - rewrite Hty. simpl.
    eapply same_inputs_trans; [apply own_role_changed_inputs|]. repeat split.
  - repeat case_match; repeat split.
Qed.

Lemma handle_message_idem p payload s s1 :
  same_inputs s1 (handle p (EndpointMessage payload) s) →
  same_inputs (handle p (EndpointMessage payload) s1) (handle p (EndpointMessage payload) s).
Proof.
  assert (Hh : ∀ t, handle p (EndpointMessage payload) t =
                    match jitsiApi t with
                    | Some api => onEndpointMessage api payload t
                    | None => t
                    end)
    by (intros t; unfold handle; repeat case_match; reflexivity).
  rewrite !Hh. intros H.
  destruct (jitsiApi s) as [api|] eqn:Hapi.
  - pose proof (onEndpointMessage_inputs api payload s) as Hs.
    pose proof (same_inputs_trans _ _ _ H Hs) as (Ha & Hm & Hi & Hn & Ho).
    simpl in Ha, Hm, Hi, Hn, Ho. rewrite Ha, Hapi.
    eapply same_inputs_trans; [apply onEndpointMessage_inputs|].
    eapply same_inputs_trans; [|apply same_inputs_sym, Hs].
    rewrite Ho. unfold message_override. destruct payload as [payload|].
    + case_decide; [rewrite own_override_idem|]; repeat split; simpl; assumption.
    + repeat split; simpl; assumption.
  - destruct H as (Ha & Hm & Hi & Hn & Ho). rewrite Ha, Hapi.
    repeat split; assumption.
Qed.

Lemma handle_poll_inputs p s : same_inputs (handle p Poll s) s.
Proof. unfold handle, tick. repeat case_match; repeat split. Qed.

(** Delivering any event a second time, right after the first, leaves
    the computed moderator boolean as the first delivery left it. *)
Theorem every_event_idempotent p ev s :
  isCurrentAdmin (step p ev (step p ev s)) = isCurrentAdmin (step p ev s).
Proof.
  unfold step. apply settle_same; [|apply handle_current].
  destruct ev as [id role | payload | a | data | ].
  - apply handle_role_changed_idem, settle_inputs.
  - apply handle_message_idem, settle_inputs.
  - apply handle_action_idem, settle_inputs.
  - apply handle_meeting_row_idem, settle_inputs.
  - eapply same_inputs_trans; [apply handle_poll_inputs | apply settle_inputs].
Qed.

End Reconciler.

(* ===================================================================== *)
(** ** The user-management server *)
(* ===================================================================== *)

Module AdminApi.
Import Js.

(** *** JavaScript numbers *)

(** The handlers compute on query strings, defaults and counts with the
    language's own operators, whose values are IEEE 754 doubles.  The
    model takes the type of numbers and the operations the handlers use
    as given and writes the handlers with them, operator by operator.
    What an operation returns is assumed only where a theorem says so
    ([Exact] below), and only on integers that a double holds exactly. *)
Class JsNumbers := {
  Number : Type;
  (** the number that an integer literal, or a count, denotes *)
  lit : Z → Number;
  (** [Number(s)]: a string operand of [-], [*] or [/] *)
  StringToNumber : string → Number;
  (** [String(n)]: a number operand of a concatenation, the argument of
      [parseInt] *)
  NumberToString : Number → string;
  (** [parseInt(s)] *)
  parseInt : string → Number;
  (** [a - b], [a * b], [a + b] and [a / b] on numbers *)
  num_sub : Number → Number → Number;
  num_mul : Number → Number → Number;
  num_add : Number → Number → Number;
  num_div : Number → Number → Number;
  (** [Math.ceil(n)] *)
  Math_ceil : Number → Number;
  (** falsiness of a number: of [0], [-0] and [NaN] *)
  falsy : Number → bool
}.

(** The integers below [2^53 = 9007199254740992] in absolute value: a
    double holds each of them exactly ([Number.MAX_SAFE_INTEGER] is
    [2^53 - 1]). *)
Definition safe (z : Z) : Prop := (-9007199254740992 < z < 9007199254740992)%Z.

(** The value of a decimal digit. *)
Definition digit (c : ascii) : option N :=
  let n := N_of_ascii c in
  if ((48 <=? n) && (n <=? 57))%N then Some (n - 48)%N else None.

(** The value of a string of decimal digits read after the value [acc],
    and of a plain numeral: one digit or more, nothing else. *)
Fixpoint numeral_from (acc : N) (s : string) : option N :=
  match s with
  | EmptyString => Some acc
  | String c s =>
      match digit c with
      | Some d => numeral_from (10 * acc + d) s
      | None => None
      end
  end.

Definition numeral (s : string) : option N :=
  match s with EmptyString => None | _ => numeral_from 0 s end.

(** The decimal numeral of a natural number. *)
Definition decimal (n : N) : string := NilEmpty.string_of_uint (N.to_uint n).

Section Server.
Context {J : JsNumbers}.

(** What the theorems on the row window and the page count assume of
    the numbers: the arithmetic of safe integers is exact, a plain
    numeral denotes its value, and a safe natural number is written as
    its decimal numeral.  The product is taken of non-negative factors
    only, which keeps [-0] out. *)
Record Exact : Prop := {
  num_sub_lit a b : safe a → safe b → safe (a - b) → num_sub (lit a) (lit b) = lit (a - b);
  num_add_lit a b : safe a → safe b → safe (a + b) → num_add (lit a) (lit b) = lit (a + b);
  num_mul_lit a b :
    (0 ≤ a)%Z → (0 ≤ b)%Z → safe (a * b) → num_mul (lit a) (lit b) = lit (a * b);
  ceil_zero_over b :
    (0 < b)%Z → safe b → Math_ceil (num_div (lit 0) (lit b)) = lit 0;
  StringToNumber_numeral s n :
    numeral s = Some n → safe (Z.of_N n) → StringToNumber s = lit (Z.of_N n);
  parseInt_numeral s n :
    numeral s = Some n → safe (Z.of_N n) → parseInt s = lit (Z.of_N n);
  NumberToString_lit n : safe (Z.of_N n) → NumberToString (lit (Z.of_N n)) = decimal n
}.

(** *** Values, responses, the backend *)

(** JSON values: bodies of requests and responses, rows and user
    objects of the backend.  A missing property ([undefined]) is [None]
    of [option Json]. *)
#[warnings="-register-all"]
Inductive Json :=
  | JNull
  | JBool (b : bool)
  | JNum (n : Number)
  | JStr (s : string)
  | JArr (items : list Json)
  | JObj (fields : list (string * Json)).

(** [o.k] for a value that may be missing; the keys of an object are
    taken to be distinct. *)
Definition get (k : string) (o : option Json) : option Json :=
  match o with
  | Some (JObj fields) => snd <$> find (λ f, bool_decide (fst f = k)) fields
  | _ => None
  end.

(** Truthiness. *)
Definition truthy (v : option Json) : bool :=
  match v with
  | None | Some JNull => false
  | Some (JBool b) => b
  | Some (JNum n) => negb (falsy n)
  | Some (JStr s) => negb (String.eqb s "")
  | Some (JArr _) | Some (JObj _) => true
  end.

(** [v || null] *)
Definition or_null (v : option Json) : Json :=
  match v with Some x => if truthy v then x else JNull | None => JNull end.

(** What [res.status(statusCode).json(body)] is given: the value
    [body], before it is written out. *)
Record Response := mkResponse { statusCode : nat; body : Json }.

(** [sendSuccess(res, data, statusCode = 200)] *)
Definition sendSuccess (data : Json) (statusCode : nat) : Response :=
  mkResponse statusCode
    (JObj [("success", JBool true); ("data", data); ("error", JNull)]).

(** [sendError(res, message, statusCode = 400, details)] for a message
    that is a string, as every caller passes one; [details] is added
    when truthy. *)
Definition sendError (message : string) (statusCode : nat) (details : option string)
    : Response :=
  let errorPayload :=
    ("message", JStr message) ::
    match Js.truthy details with
    | Some d => [("details", JStr d)]
    | None => []
    end in
  mkResponse statusCode
    (JObj [("success", JBool false); ("data", JNull); ("error", JObj errorPayload)]).

(** The [error] of a backend reply: an object whose [message] may be
    missing. *)
Record SbError := mkSbError { message : option string }.

(** [error.message || fallback] *)
Definition message_or (e : SbError) (fallback : string) : string :=
  default fallback (Js.truthy (message e)).

(** What an awaited call of the backend client comes back with:
    [{ data, error, count }], or a rejected promise.  The count is a
    number of rows or [null]. *)
Inductive Reply :=
  | Returned (data : Json) (error : option SbError) (count : option N)
  | Thrown (e : JsError).

(** The calls the handlers make on the backend client.  [count_rows] is
    [select('*', { count: 'exact', head: true })] with its filters;
    [select_range] is [select(columns).range(from, to).order('created_at',
    { ascending: false })] with its filter, a select without the
    [count] option. *)
Inductive Call :=
  | count_rows (table : string) (is_active : option bool) (created_since : option string)
  | select_range (table columns : string) (from to : Number) (is_active : option bool)
  | auth_createUser (email password first_name last_name : Json)
  | auth_updateUserById (id : string) (payload : Json)
  | auth_getUserById (id : string)
  | auth_deleteUser (id : Json)
  | users_insert (payload : Json)
  | users_update (payload : Json) (uid : string)
  | users_select (uid : string)
  | users_delete (uid : string).

Definition Backend : Type := Call -> Reply.

(** A handler's run: the response it sends and the calls it made, in
    order. *)
Definition Run : Type := Response * list Call.

(** *** The list routes *)

(** The query parameters the two list routes read, each absent or a
    string: a key of the query string written once and without
    brackets. *)
Record Query := mkQuery {
  page : option string;
  limit : option string;
  active : option string
}.

(** A parameter after [const { page = 1, limit = 10 } = req.query]: the
    string of the query, or the default, a number. *)
Inductive Val := VStr (s : string) | VNum (n : Number).

Definition page_of (q : Query) : Val :=
  match page q with Some s => VStr s | None => VNum (lit 1) end.

Definition limit_of (q : Query) : Val :=
  match limit q with Some s => VStr s | None => VNum (lit 10) end.

(** The coercions of an operand to a number and to a string. *)
Definition ToNumber (v : Val) : Number :=
  match v with VStr s => StringToNumber s | VNum n => n end.

Definition ToString (v : Val) : string :=
  match v with VStr s => s | VNum n => NumberToString n end.

(** [a + b]: the sum of two numbers, a concatenation when an operand is
    a string. *)
Definition js_add (a b : Val) : Val :=
  match a, b with
  | VNum x, VNum y => VNum (num_add x y)
  | _, _ => VStr (ToString a +:+ ToString b)
  end.

(** [const from = (page - 1) * limit] *)
Definition range_from (q : Query) : Number :=
  num_mul (num_sub (ToNumber (page_of q)) (lit 1)) (ToNumber (limit_of q)).

(** [const to = from + limit - 1] *)
Definition range_to (q : Query) : Number :=
  num_sub (ToNumber (js_add (VNum (range_from q)) (limit_of q))) (lit 1).

(** A count as a JSON value, and as an operand of [/], where [null] is
    [0]. *)
Definition json_of_count (count : option N) : Json :=
  match count with Some c => JNum (lit (Z.of_N c)) | None => JNull end.

Definition number_of_count (count : option N) : Number :=
  match count with Some c => lit (Z.of_N c) | None => lit 0 end.

(** [{ page: parseInt(page), limit: parseInt(limit), total: count,
       totalPages: Math.ceil(count / limit) }] *)
Definition pagination (q : Query) (count : option N) : Json :=
  JObj [("page", JNum (parseInt (ToString (page_of q))));
        ("limit", JNum (parseInt (ToString (limit_of q))));
        ("total", json_of_count count);
        ("totalPages",
         JNum (Math_ceil (num_div (number_of_count count) (ToNumber (limit_of q)))))].

(** [rows || []] *)
Definition or_empty (rows : Json) : Json :=
  if truthy (Some rows) then rows else JArr [].

(** [err?.message] of a caught exception. *)
Definition thrown_message (e : JsError) : option string := Some (err_message e).

(** GET /users *)
Definition get_users (db : Backend) (q : Query) : Run :=
  let is_active := (λ a, bool_decide (a = "true")) <$> active q in
  let call := select_range "users"
                "uid, email, first_name, last_name, role, is_active, created_at"
                (range_from q) (range_to q) is_active in
  match db call with
  | Thrown err =>
      (sendError "Unexpected error fetching users" 500 (thrown_message err), [call])
  | Returned users (Some error) count =>
      (sendError "Failed to fetch users" 500 (message error), [call])
  | Returned users None count =>
      (sendSuccess (JObj [("users", or_empty users);
                          ("pagination", pagination q count)]) 200,
       [call])
  end.

(** GET /meetings *)
Definition get_meetings (db : Backend) (q : Query) : Run :=
  let call := select_range "meetings" "*" (range_from q) (range_to q) None in
  match db call with
  | Thrown err =>
      (sendError "Unexpected error fetching meetings" 500 (thrown_message err), [call])
  | Returned meetings (Some error) count =>
      (sendError "Failed to fetch meetings" 500 (message error), [call])
  | Returned meetings None count =>
      (sendSuccess (JObj [("meetings", or_empty meetings);
                          ("pagination", pagination q count)]) 200,
       [call])
  end.

(** *** The other routes *)

(** The row POST /users inserts into [users]. *)
Definition insertPayload (id : Json) (body : option Json) : Json :=
  JObj [("uid", id);
        ("email", default JNull (get "email" body));
        ("first_name", or_null (get "first_name" body));
        ("last_name", or_null (get "last_name" body));
        ("role", JStr "user");
        ("is_active", JBool true)].

(** POST /users *)
Definition post_users (db : Backend) (body : option Json) : Run :=
  let email := get "email" body in
  let password := get "password" body in
  if negb (truthy email) || negb (truthy password) then
    (sendError "email and password are required" 400 None, [])
  else
    let create := auth_createUser (default JNull email) (default JNull password)
                    (or_null (get "first_name" body)) (or_null (get "last_name" body)) in
    match db create with
    | Thrown err =>
        (sendError "Unexpected error creating user" 500 (thrown_message err), [create])
    | Returned created (Some createError) _ =>
        (sendError (message_or createError "Failed to create auth user") 400 None, [create])
    | Returned created None _ =>
        let authUser := get "user" (Some created) in
        match get "id" authUser with
        | Some id =>
            if truthy (Some id) then
              let insert := users_insert (insertPayload id body) in
              match db insert with
              | Thrown err =>
                  (sendError "Unexpected error creating user" 500 (thrown_message err),
                   [create; insert])
              | Returned profile (Some insertError) _ =>
                  (sendError "Failed to insert user profile" 500 (message insertError),
                   [create; insert; auth_deleteUser id])
              | Returned profile None _ =>
                  (sendSuccess (JObj [("authUser", default JNull authUser);
                                      ("profile", profile)]) 201,
                   [create; insert])
              end
            else (sendError "Auth user created but user id missing" 500 None, [create])
        | None => (sendError "Auth user created but user id missing" 500 None, [create])
        end
    end.

(** GET /health *)
Definition health : Run := (sendSuccess (JObj [("status", JStr "ok")]) 200, []).

(** [count || 0] *)
Definition count_or_0 (count : option N) : Json :=
  JNum (lit (Z.of_N (default 0%N count))).

(** GET /dashboard/stats, at time [now], thirty days after [thirtyDaysAgo]
    (both ISO strings). *)
Definition dashboard_stats (db : Backend) (thirtyDaysAgo now : string) : Run :=
  let unexpected err calls :=
    (sendError "Unexpected error fetching dashboard stats" 500 (thrown_message err), calls) in
  let c1 := count_rows "users" None None in
  let c2 := count_rows "users" (Some true) None in
  let c3 := count_rows "meetings" None None in
  let c4 := count_rows "users" None (Some thirtyDaysAgo) in
  match db c1 with
  | Thrown err => unexpected err [c1]
  | Returned _ (Some e) _ =>
      (sendError "Failed to fetch total users" 500 (message e), [c1])
  | Returned _ None totalUsers =>
      match db c2 with
      | Thrown err => unexpected err [c1; c2]
      | Returned _ (Some e) _ =>
          (sendError "Failed to fetch active users" 500 (message e), [c1; c2])
      | Returned _ None activeUsers =>
          match db c3 with
          | Thrown err => unexpected err [c1; c2; c3]
          | Returned _ (Some e) _ =>
              (sendError "Failed to fetch total meetings" 500 (message e), [c1; c2; c3])
          | Returned _ None totalMeetings =>
              match db c4 with
              | Thrown err => unexpected err [c1; c2; c3; c4]
              | Returned _ recentUsersError recentUsers =>
                  (sendSuccess
                     (JObj [("totalUsers", count_or_0 totalUsers);
                            ("activeUsers", count_or_0 activeUsers);
                            ("totalMeetings", count_or_0 totalMeetings);
                            ("recentUsers",
                             match recentUsersError with
                             | Some _ => JNull
                             | None => json_of_count recentUsers
                             end);
                            ("lastUpdated", JStr now)]) 200,
                   [c1; c2; c3; c4])
              end
          end
      end
  end.

(** The properties of an object literal that were assigned. *)
Definition props (l : list (string * option Json)) : list (string * Json) :=
  omap (λ kv, (λ v, (fst kv, v)) <$> snd kv) l.

(** [cond ? value : undefined], for the conditional assignments. *)
Definition when (c : bool) (v : option Json) : option Json := if c then v else None.

(** [value || null] of a reply's part. *)
Definition part_or_null (v : option Json) : Json := or_null v.

(** PUT /users/:id *)
Definition put_user (db : Backend) (id : string) (body : option Json) : Run :=
  let email := get "email" body in
  let password := get "password" body in
  let first_name := get "first_name" body in
  let last_name := get "last_name" body in
  let unexpected err calls :=
    (sendError "Unexpected error updating user" 500 (thrown_message err), calls) in
  if negb (truthy email) && negb (truthy password)
     && bool_decide (first_name = None) && bool_decide (last_name = None)
  then (sendError "No fields to update" 400 None, [])
  else
    let user_metadata := props [("first_name", first_name); ("last_name", last_name)] in
    let adminUpdatePayload :=
      props [("email", when (truthy email) email);
             ("password", when (truthy password) password);
             ("user_metadata",
              when (0 <? length user_metadata) (Some (JObj user_metadata)))] in
    let auth_call :=
      if 0 <? length adminUpdatePayload
      then auth_updateUserById id (JObj adminUpdatePayload)
      else auth_getUserById id in
    let auth_fallback :=
      if 0 <? length adminUpdatePayload then "Failed to update auth user"
      else "Failed to fetch auth user" in
    match db auth_call with
    | Thrown err => unexpected err [auth_call]
    | Returned _ (Some e) _ => (sendError (message_or e auth_fallback) 400 None, [auth_call])
    | Returned updated None _ =>
        let authUser := part_or_null (get "user" (Some updated)) in
        let profileUpdate :=
          props [("email", email); ("first_name", first_name); ("last_name", last_name)] in
        if 0 <? length profileUpdate then
          let table_call := users_update (JObj profileUpdate) id in
          match db table_call with
          | Thrown err => unexpected err [auth_call; table_call]
          | Returned _ (Some e) _ =>
              (sendError (message_or e "Failed to update user profile") 400 None,
               [auth_call; table_call])
          | Returned data None _ =>
              (sendSuccess (JObj [("authUser", authUser);
                                  ("profile", part_or_null (Some data))]) 200,
               [auth_call; table_call])
          end
        else
          let table_call := users_select id in
          match db table_call with
          | Thrown err => unexpected err [auth_call; table_call]
          | Returned data _ _ =>
              (sendSuccess (JObj [("authUser", authUser);
                                  ("profile", part_or_null (Some data))]) 200,
               [auth_call; table_call])
          end
    end.

(** PATCH /users/:id/enable and PATCH /users/:id/disable *)
Definition patch_active (db : Backend) (id : string) (is_active : bool) : Run :=
  let verb := if is_active then "enable" else "disable" in
  let verbing := if is_active then "enabling" else "disabling" in
  let call := users_update (JObj [("is_active", JBool is_active)]) id in
  match db call with
  | Thrown err =>
      (sendError ("Unexpected error " +:+ verbing +:+ " user") 500 (thrown_message err),
       [call])
  | Returned _ (Some e) _ =>
      (sendError (message_or e ("Failed to " +:+ verb +:+ " user")) 400 None, [call])
  | Returned data None _ =>
      if truthy (Some data) then (sendSuccess data 200, [call])
      else (sendError "User not found" 404 None, [call])
  end.

(** DELETE /users/:id *)
Definition delete_user (db : Backend) (id : string) : Run :=
  let unexpected err calls :=
    (sendError "Unexpected error deleting user" 500 (thrown_message err), calls) in
  let c1 := auth_deleteUser (JStr id) in
  let c2 := users_delete id in
  match db c1 with
  | Thrown err => unexpected err [c1]
  | Returned _ (Some e) _ =>
      (sendError (message_or e "Failed to delete auth user") 400 None, [c1])
  | Returned _ None _ =>
      match db c2 with
      | Thrown err => unexpected err [c1; c2]
      | Returned _ (Some e) _ =>
          (sendError (message_or e "Failed to delete user profile") 400 None, [c1; c2])
      | Returned data None _ =>
          (sendSuccess (JObj [("deletedAuthUserId", JStr id);
                              ("deletedProfile", data)]) 200,
           [c1; c2])
      end
  end.

(** The error-handling middleware, for an error object passed to
    [next]. *)
Definition error_handler (err : JsError) : Run :=
  if decide (err_message err = "Not allowed by CORS")
  then (sendError "CORS: Origin not allowed" 403 None, [])
  else (sendError "Internal server error" 500 (thrown_message err), []).

(** The [origin] callback of the CORS middleware: whether the request
    passes. *)
Definition cors_allows (origin : option string) : bool :=
  match Js.truthy origin with
  | None => true
  | Some origin =>
      String.prefix "http://localhost:" origin
      || String.prefix "https://localhost:" origin
      || bool_decide (origin ∈ ["http://localhost:5173"; "https://localhost:5173";
                                "http://localhost:5174"; "https://localhost:5174"])
  end.

(** The requests the server has a route for, and an error on its way to
    the error handler. *)
Inductive Request :=
  | GET_health
  | GET_dashboard_stats (thirtyDaysAgo now : string)
  | GET_users (q : Query)
  | GET_meetings (q : Query)
  | POST_users (body : option Json)
  | PUT_users (id : string) (body : option Json)
  | PATCH_users_enable (id : string)
  | PATCH_users_disable (id : string)
  | DELETE_users (id : string)
  | Failing (err : JsError).

Definition serve (db : Backend) (r : Request) : Run :=
  match r with
  | GET_health => health
  | GET_dashboard_stats thirtyDaysAgo now => dashboard_stats db thirtyDaysAgo now
  | GET_users q => get_users db q
  | GET_meetings q => get_meetings db q
  | POST_users body => post_users db body
  | PUT_users id body => put_user db id body
  | PATCH_users_enable id => patch_active db id true
  | PATCH_users_disable id => patch_active db id false
  | DELETE_users id => delete_user db id
  | Failing err => error_handler err
  end.

(** *** Shape of the responses *)

(** A body of the shape [{ success, data, error }]: a success carries
    no error, a failure no data. *)
Definition shaped (r : Response) : Prop :=
  (∃ data, body r = JObj [("success", JBool true); ("data", data); ("error", JNull)]) ∨
  (∃ error, body r = JObj [("success", JBool false); ("data", JNull); ("error", JObj error)]).

Lemma sendSuccess_shaped data statusCode : shaped (sendSuccess data statusCode).
Proof. left. exists data. reflexivity. Qed.

Lemma sendError_shaped message statusCode details :
  shaped (sendError message statusCode details).
Proof. right. eexists. reflexivity. Qed.

#[local] Hint Resolve sendSuccess_shaped sendError_shaped : frame.

Lemma serve_shaped db r : shaped (fst (serve db r)).
Proof.
  destruct r; simpl;
    unfold health, dashboard_stats, get_users, get_meetings, post_users, put_user,
      patch_active, delete_user, error_handler;
    repeat case_match; simpl; auto with frame.
Qed.

Definition data_of (r : Response) : option Json := get "data" (Some (body r)).

Definition pagination_of (r : Response) : option Json := get "pagination" (data_of r).

(** *** Numerals *)

Lemma numeral_from_app a b acc :
  numeral_from acc (a +:+ b) = numeral_from acc a ≫= λ x, numeral_from x b.
Proof.
  revert acc. induction a as [|c a IH]; intros acc; simpl; [reflexivity|].
  destruct (digit c); [apply IH | reflexivity].
Qed.

Lemma numeral_from_acc s acc :
  numeral_from acc s
  = (λ v, acc * 10 ^ N.of_nat (String.length s) + v)%N <$> numeral_from 0 s.
Proof.
  revert acc. induction s as [|c s IH]; intros acc; simpl.
  - f_equal. lia.
  - destruct (digit c) as [d|]; [|reflexivity].
    change (numeral_from (10 * 0 + d) s) with (numeral_from d s).
    rewrite (IH (10 * acc + d)%N), (IH d).
    destruct (numeral_from 0 s) as [v|]; [|reflexivity]. simpl. f_equal.
    rewrite Nat2N.inj_succ, N.pow_succ_r'. lia.
Qed.

Lemma numeral_from_uint d acc :
  numeral_from (N.pos acc) (NilEmpty.string_of_uint d) = Some (N.pos (Pos.of_uint_acc d acc)).
Proof.
  revert acc. induction d as [|d IH|d IH|d IH|d IH|d IH|d IH|d IH|d IH|d IH|d IH];
    intros acc; [reflexivity|..];
    cbn [NilEmpty.string_of_uint numeral_from Pos.of_uint_acc];
    (change (digit _) with (Some 0%N) || change (digit _) with (Some 1%N)
     || change (digit _) with (Some 2%N) || change (digit _) with (Some 3%N)
     || change (digit _) with (Some 4%N) || change (digit _) with (Some 5%N)
     || change (digit _) with (Some 6%N) || change (digit _) with (Some 7%N)
     || change (digit _) with (Some 8%N) || change (digit _) with (Some 9%N));
    cbv iota beta; rewrite <- IH; f_equal; lia.
Qed.

Lemma numeral_from_decimal n : numeral_from 0 (decimal n) = Some n.
Proof.
  unfold decimal. rewrite <- (Unsigned.of_to n) at 2.
  generalize (N.to_uint n). unfold N.of_uint. intros d.
  induction d as [|d IH|d IH|d IH|d IH|d IH|d IH|d IH|d IH|d IH|d IH];
    [reflexivity | exact IH | ..];
    apply (numeral_from_uint d).
Qed.

(** Reading back the decimal numeral of a number gives the number, and
    reading it back followed by a string of digits shifts it by their
    count. *)
Lemma numeral_decimal_app n s v :
  numeral_from 0 s = Some v →
  numeral (decimal n +:+ s) = Some (n * 10 ^ N.of_nat (String.length s) + v)%N.
Proof.
  intros Hv.
  assert (H : numeral_from 0 (decimal n +:+ s)
              = Some (n * 10 ^ N.of_nat (String.length s) + v)%N).
  { rewrite numeral_from_app, numeral_from_decimal. simpl.
    rewrite numeral_from_acc, Hv. reflexivity. }
  unfold numeral. destruct (decimal n +:+ s) eqn:E; [|exact H].
  destruct (decimal n) eqn:En; [|discriminate E].
  pose proof (numeral_from_decimal n) as Hn. rewrite En in Hn. injection Hn as <-.
  discriminate En.
Qed.

Lemma numeral_from_numeral s v : numeral s = Some v → numeral_from 0 s = Some v.
Proof. destruct s; [discriminate | intros H; exact H]. Qed.

(** *** The row window *)

(** A query parameter that is absent, or a plain numeral: its value,
    [d] when absent. *)
Definition plain (param : option string) (d : Z) (v : Z) : Prop :=
  match param with
  | None => v = d
  | Some s => ∃ n, numeral s = Some n ∧ v = Z.of_N n
  end.

(** The last row of the window for a page that starts at row [from]:
    nine rows further for the default limit; for a limit [s] of the
    query, the number written as [from] followed by [s], less one. *)
Definition window_end (q : Query) (from l : Z) : Z :=
  match limit q with
  | None => from + 9
  | Some s => from * 10 ^ Z.of_nat (String.length s) + l - 1
  end.

Lemma ToNumber_plain (E : Exact) param d v :
  plain param d v → safe v →
  ToNumber (match param with Some s => VStr s | None => VNum (lit d) end) = lit v.
Proof.
  destruct param as [s|]; simpl.
  - intros (n & Hn & ->) Hs. apply (StringToNumber_numeral E), Hs. exact Hn.
  - intros -> _. reflexivity.
Qed.

Lemma range_spec (E : Exact) q p l :
  plain (page q) 1 p → plain (limit q) 10 l →
  (1 ≤ p)%Z → safe p → safe (window_end q ((p - 1) * l) l + 1) →
  range_from q = lit ((p - 1) * l) ∧
  range_to q = lit (window_end q ((p - 1) * l) l).
Proof.
  intros Hp Hl Hp1 Hps Hsafe.
  assert (Hl0 : (0 ≤ l)%Z).
  { destruct (limit q); simpl in Hl; [destruct Hl as (n & _ & ->)|]; lia. }
  assert (Hpow : ∀ k : nat, (1 ≤ 10 ^ Z.of_nat k)%Z).
  { intros k. pose proof (Z.pow_pos_nonneg 10 (Z.of_nat k)). lia. }
  assert (Hfrom0 : (0 ≤ (p - 1) * l)%Z) by nia.
  assert (Hbounds : ((p - 1) * l ≤ window_end q ((p - 1) * l) l + 1
                     ∧ l ≤ window_end q ((p - 1) * l) l + 1)%Z).
  { unfold window_end in *. destruct (limit q) as [s|]; simpl in Hl.
    - specialize (Hpow (String.length s)). nia.
    - subst l. lia. }
  assert (Hls : safe l) by (unfold safe in *; lia).
  assert (Hfs : safe ((p - 1) * l)) by (unfold safe in *; lia).
  assert (Hfrom : range_from q = lit ((p - 1) * l)).
  { unfold range_from, page_of, limit_of.
    rewrite (ToNumber_plain E (page q) 1 p Hp Hps).
    rewrite (ToNumber_plain E (limit q) 10 l Hl Hls).
    rewrite (num_sub_lit E) by (unfold safe in *; lia).
    apply (num_mul_lit E); [lia | exact Hl0 | exact Hfs]. }
  split; [exact Hfrom|].
  unfold range_to. rewrite Hfrom. unfold window_end in *. unfold limit_of.
  destruct (limit q) as [s|]; simpl in Hl |- *.
  - destruct Hl as (n & Hn & ->).
    rewrite <- (Z2N.id ((p - 1) * Z.of_N n)) by exact Hfrom0.
    rewrite (NumberToString_lit E) by (rewrite Z2N.id by exact Hfrom0; exact Hfs).
    rewrite (StringToNumber_numeral E _ _
               (numeral_decimal_app _ s n (numeral_from_numeral s n Hn))).
    + rewrite (num_sub_lit E).
      * f_equal. rewrite N2Z.inj_add, N2Z.inj_mul, N2Z.inj_pow, nat_N_Z. lia.
      * revert Hsafe. rewrite N2Z.inj_add, N2Z.inj_mul, N2Z.inj_pow, nat_N_Z.
        unfold safe. specialize (Hpow (String.length s)).
        rewrite !Z2N.id by exact Hfrom0. nia.
      * unfold safe. lia.
      * revert Hsafe. rewrite N2Z.inj_add, N2Z.inj_mul, N2Z.inj_pow, nat_N_Z.
        unfold safe. specialize (Hpow (String.length s)).
        rewrite !Z2N.id by exact Hfrom0. nia.
    + revert Hsafe. rewrite N2Z.inj_add, N2Z.inj_mul, N2Z.inj_pow, nat_N_Z.
      unfold safe. specialize (Hpow (String.length s)).
      rewrite !Z2N.id by exact Hfrom0. nia.
  - subst l. rewrite (num_add_lit E) by (unfold safe in *; lia).
    rewrite (num_sub_lit E) by (unfold safe in *; lia).
    f_equal. lia.
Qed.

(** Whether a call asks the backend for a count of rows: a select with
    [{ count: 'exact' }] does, and no other call of the handlers. *)
Definition asks_count (c : Call) : bool :=
  match c with count_rows _ _ _ => true | _ => false end.

(** The backend client reports a count only to a call that asks for
    one: in the reply to any other call [count] is [null]. *)
Definition counts_on_request (db : Backend) : Prop :=
  ∀ c data error count,
    asks_count c = false → db c = Returned data error count → count = None.

(** The rows the list routes ask for.  For a page [p] of one or more
    and a limit [l], each absent or a plain numeral, and as long as the
    numbers stay safe, the one call of GET /users and of GET /meetings
    is a select of the rows from [(p - 1) * l]; without a limit in the
    query the window ends nine rows further; with a limit in the query
    it ends at the number written as the first row followed by the
    limit's digits, less one, since [from + limit] is then a
    concatenation. *)
Theorem list_window db q p l :
  Exact → plain (page q) 1 p → plain (limit q) 10 l →
  (1 ≤ p)%Z → safe p → safe (window_end q ((p - 1) * l) l + 1) →
  let from := lit ((p - 1) * l) in
  let to := lit (window_end q ((p - 1) * l) l) in
  snd (get_users db q)
    = [select_range "users"
         "uid, email, first_name, last_name, role, is_active, created_at"
         from to ((λ a, bool_decide (a = "true")) <$> active q)] ∧
  snd (get_meetings db q) = [select_range "meetings" "*" from to None].
Proof.
  intros E Hp Hl Hp1 Hps Hsafe from to. subst from to.
  destruct (range_spec E q p l Hp Hl Hp1 Hps Hsafe) as [Hfrom Hto].
  unfold get_users, get_meetings. rewrite Hfrom, Hto.
  split; repeat case_match; reflexivity.
Qed.

(** *** The pagination object *)

(** C8.  Every response of the server has the shape [{ success, data,
    error }].  GET /users and GET /meetings make one call of the
    backend, a select of a row window that asks for no count.  With a
    client that reports a count only when asked for one, the route
    answers HTTP 200 exactly when that call comes back without an
    error, and then, whatever rows came back, the pagination object has
    [total: null]; for a limit that is absent or a plain numeral above
    zero, [limit] is that number and [totalPages] is [0]. *)
Theorem list_total_is_null db q route key :
  counts_on_request db →
  (route, key) ∈ [(GET_users q, "users"); (GET_meetings q, "meetings")] →
  let resp := fst (serve db route) in
  shaped resp ∧
  ∃ call,
    snd (serve db route) = [call] ∧ asks_count call = false ∧
    (statusCode resp = 200 ↔ ∃ rows, db call = Returned rows None None) ∧
    (∀ rows, db call = Returned rows None None →
       data_of resp
         = Some (JObj [(key, or_empty rows); ("pagination", pagination q None)]) ∧
       get "total" (pagination_of resp) = Some JNull ∧
       (∀ l, Exact → plain (limit q) 10 l → (0 < l)%Z → safe l →
             get "limit" (pagination_of resp) = Some (JNum (lit l)) ∧
             get "totalPages" (pagination_of resp) = Some (JNum (lit 0)))).
Proof.
  intros Hdb Hin resp. subst resp. split; [apply serve_shaped|].
  assert (Hpag : ∀ l, Exact → plain (limit q) 10 l → (0 < l)%Z → safe l →
            get "limit" (Some (pagination q None)) = Some (JNum (lit l)) ∧
            get "totalPages" (Some (pagination q None)) = Some (JNum (lit 0))).
  { intros l E Hl Hpos Hs. unfold pagination, limit_of. simpl. split.
    - do 2 f_equal. destruct (limit q) as [s|]; simpl in Hl |- *.
      + destruct Hl as (n & Hn & ->). apply (parseInt_numeral E); assumption.
      + subst l. change (lit 10) with (lit (Z.of_N 10)).
        rewrite (NumberToString_lit E 10) by exact Hs.
        apply (parseInt_numeral E _ 10); [reflexivity | exact Hs].
    - do 2 f_equal.
      rewrite (ToNumber_plain E (limit q) 10 l Hl Hs).
      apply (ceil_zero_over E); assumption. }
  apply elem_of_cons in Hin as [[= -> ->] | Hin];
    [|apply list_elem_of_singleton in Hin as [= -> ->]];
    simpl; unfold get_users, get_meetings;
    match goal with |- context [db ?c] => exists c; pose proof (Hdb c) as Hc end;
    (destruct (db _) as [rows [e|] count | err]; simpl;
     [ | specialize (Hc rows None count eq_refl eq_refl); subst count | ];
     (split; [reflexivity|]); (split; [reflexivity|]); split;
     [ split; [discriminate | intros (? & ?); discriminate]
     | intros ? ?; discriminate
     | split; [intros _; eexists; reflexivity | reflexivity]
     | intros rows' [= <-]; split; [reflexivity|]; split; [reflexivity | exact Hpag]
     | split; [discriminate | intros (? & ?); discriminate]
     | intros ? ?; discriminate ]).
Qed.

(** *** POST /users *)

(** The call that creates the auth user for a body. *)
Definition create_call (body : option Json) : Call :=
  auth_createUser (default JNull (get "email" body)) (default JNull (get "password" body))
    (or_null (get "first_name" body)) (or_null (get "last_name" body)).



(** *** Further properties of the server *)

(** What a handler sends: a success with status 200 or 201, or an error
    with status 400, 403, 404 or 500. *)
Definition answered (r : Response) : Prop :=
  (∃ data code, r = sendSuccess data code ∧ (code = 200 ∨ code = 201)) ∨
  (∃ message code details,
     r = sendError message code details ∧
     (code = 400 ∨ code = 403 ∨ code = 404 ∨ code = 500)).

Lemma serve_answered db r : answered (fst (serve db r)).
Proof.
  destruct r; simpl;
    unfold health, dashboard_stats, get_users, get_meetings, post_users, put_user,
      patch_active, delete_user, error_handler;
    repeat case_match; simpl;
    first [ left; do 2 eexists; split; [reflexivity | tauto]
          | right; do 3 eexists; split; [reflexivity | tauto] ].
Qed.

(** The status of a response tells its [success] flag: the flag is true
    under status 200 and 201 and false under 400, 403, 404 and 500, and
    no handler sends another status. *)
Theorem status_tells_success db r :
  let resp := fst (serve db r) in
  statusCode resp ∈ [200; 201; 400; 403; 404; 500] ∧
  (get "success" (Some (body resp)) = Some (JBool true) ↔ statusCode resp < 400) ∧
  (get "success" (Some (body resp)) = Some (JBool false) ↔ 400 ≤ statusCode resp).
Proof.
  intros resp. subst resp.
  destruct (serve_answered db r)
    as [(data & code & -> & Hc) | (message & code & details & -> & Hc)]; simpl.
  - split; [destruct Hc as [-> | ->]; set_solver|].
    split; split; try discriminate; try reflexivity; lia.
  - split; [destruct Hc as [-> | [-> | [-> | ->]]]; set_solver|].
    split; split; try discriminate; try reflexivity; lia.
Qed.

(** An exception in any call of the backend is answered with HTTP 500. *)
Theorem thrown_is_500 db r call e :
  call ∈ snd (serve db r) → db call = Thrown e →
  statusCode (fst (serve db r)) = 500.
Proof.
  intros Hin Hth. destruct r; simpl in *;
    unfold health, dashboard_stats, get_users, get_meetings, post_users, put_user,
      patch_active, delete_user, error_handler in *;
    repeat (case_match; simpl in * ); try reflexivity;
    repeat (apply elem_of_cons in Hin as [-> | Hin]; [congruence|]);
    inversion Hin.
Qed.

(** PUT /users/:id never fetches the auth user: whenever the body passes
    the first check, there is something to update in the auth user, so
    the handler's [getUserById] branch is never taken. *)
Theorem put_never_fetches_auth_user db id req call :
  call ∈ snd (put_user db id req) → call ≠ auth_getUserById id.
Proof.
  unfold put_user.
  destruct (get "email" req) as [em|]; destruct (get "password" req) as [pw|];
    destruct (get "first_name" req) as [fn|]; destruct (get "last_name" req) as [ln|];
    try destruct (truthy (Some em)); try destruct (truthy (Some pw)); simpl;
    repeat (case_match; simpl);
    intros Hin;
    repeat (apply elem_of_cons in Hin as [-> | Hin]; [discriminate|]);
    inversion Hin.
Qed.

(** The list of allowed origins adds nothing to the CORS check: a
    request passes exactly when it has no origin or its origin starts
    with [http://localhost:] or [https://localhost:]. *)
Theorem cors_list_redundant origin :
  cors_allows origin =
  match Js.truthy origin with
  | None => true
  | Some o => String.prefix "http://localhost:" o || String.prefix "https://localhost:" o
  end.
Proof.
  unfold cors_allows. destruct (Js.truthy origin) as [o|]; [|reflexivity].
  case_bool_decide as H; [|apply orb_false_r].
  repeat (apply elem_of_cons in H as [-> | H]; [reflexivity|]). inversion H.
Qed.

(** DELETE /users/:id deletes the auth user first and touches the
    [users] table only when that deletion came back without an error;
    an error of either deletion is answered with HTTP 400. *)
Theorem delete_auth_first db id :
  let c1 := auth_deleteUser (JStr id) in
  let c2 := users_delete id in
  let calls := snd (delete_user db id) in
  (calls = [c1] ∨ calls = [c1; c2]) ∧
  (calls = [c1; c2] ↔ ∃ data count, db c1 = Returned data None count) ∧
  ((∃ data e count, db c1 = Returned data (Some e) count) →
   calls = [c1] ∧ statusCode (fst (delete_user db id)) = 400) ∧
  (statusCode (fst (delete_user db id)) = 200 →
   ∃ data count, db c2 = Returned data None count ∧
     data_of (fst (delete_user db id))
       = Some (JObj [("deletedAuthUserId", JStr id); ("deletedProfile", data)])).
Proof.
  intros c1 c2 calls. subst c1 c2 calls. unfold delete_user.
  destruct (db (auth_deleteUser (JStr id))) as [d1 [e1|] n1 | err1];
    [| destruct (db (users_delete id)) as [d2 [e2|] n2 | err2] |]; simpl;
    repeat split; eauto; try discriminate;
    try (intros (? & ? & ?); discriminate);
    try (intros (? & ? & ? & ?); discriminate);
    match goal with
    | H : ∃ _, _ |- _ => destruct H as (? & ? & ? & ?); discriminate
    end.
Qed.

(** PATCH /users/:id/enable and /disable make one call, the update of
    [is_active] for that uid, and answer HTTP 404 exactly when it comes
    back without an error and without a row. *)
Theorem patch_not_found db id flag :
  let call := users_update (JObj [("is_active", JBool flag)]) id in
  snd (patch_active db id flag) = [call] ∧
  (statusCode (fst (patch_active db id flag)) = 404 ↔
   ∃ data count, db call = Returned data None count ∧ truthy (Some data) = false) ∧
  (statusCode (fst (patch_active db id flag)) = 200 ↔
   ∃ data count, db call = Returned data None count ∧ truthy (Some data) = true).
Proof.
  intros call. subst call. unfold patch_active.
  destruct (db _) as [data [e|] count | err];
    [| destruct (truthy (Some data)) eqn:Ht |];
    cbn [fst snd statusCode sendSuccess sendError];
    (split; [reflexivity|]); split; split;
    first [ intros (d & c & Heq & H); injection Heq as <- <-;
            first [reflexivity | congruence]
          | intros (d & c & Heq & H); discriminate
          | intros H; exfalso; lia
          | intros _; exists data, count; split; [reflexivity | exact Ht] ].
Qed.

End Server.

(** *** Sample runs *)

(** Numbers for the sample runs, a model of [Exact]: the integers,
    computed exactly, the quotient of two integers, and one more value
    for whatever else an operation may return. *)
Inductive SampleNumber := Int (z : Z) | Quotient (a b : Z) | Other.

Definition sample_of_string (s : string) : SampleNumber :=
  match numeral s with Some n => Int (Z.of_N n) | None => Other end.

Definition sample_binary (f : Z → Z → Z) (a b : SampleNumber) : SampleNumber :=
  match a, b with Int x, Int y => Int (f x y) | _, _ => Other end.

#[local] Instance sample_numbers : JsNumbers := {|
  Number := SampleNumber;
  lit := Int;
  StringToNumber := sample_of_string;
  NumberToString n :=
    match n with
    | Int z => if (0 <=? z)%Z then decimal (Z.to_N z) else "-" +:+ decimal (Z.to_N (- z))
    | _ => "NaN"
    end;
  parseInt := sample_of_string;
  num_sub := sample_binary Z.sub;
  num_mul := sample_binary Z.mul;
  num_add := sample_binary Z.add;
  num_div a b :=
    match a, b with
    | Int x, Int y => if (y =? 0)%Z then Other else Quotient x y
    | _, _ => Other
    end;
  Math_ceil n :=
    match n with
    | Int z => Int z
    | Quotient a b => Int (- (- a / b))
    | Other => Other
    end;
  falsy n :=
    match n with
    | Int z => (z =? 0)%Z
    | Quotient a _ => (a =? 0)%Z
    | Other => true
    end
|}.

Lemma sample_exact : Exact.
Proof.
  split; simpl; intros.
  - reflexivity.
  - reflexivity.
  - reflexivity.
  - rewrite (proj2 (Z.eqb_neq b 0)) by lia. reflexivity.
  - unfold sample_of_string. rewrite H. reflexivity.
  - unfold sample_of_string. rewrite H. reflexivity.
  - rewrite (proj2 (Z.leb_le 0 (Z.of_N n))) by lia. rewrite N2Z.id. reflexivity.
Qed.

(** A backend with three users, which answers a select with the rows
    and no count, and a counting select with the count. *)
Definition three_users : Backend :=
  λ call, match call with
          | select_range "users" _ _ _ _ =>
              Returned (JArr [JObj [("uid", JStr "u1")]; JObj [("uid", JStr "u2")];
                              JObj [("uid", JStr "u3")]]) None None
          | count_rows "users" _ _ => Returned JNull None (Some 3%N)
          | _ => Thrown (mkJsError Error "network")
          end.

Lemma three_users_counts_on_request : counts_on_request three_users.
Proof.
  intros c data error count Hc. destruct c; try discriminate Hc; simpl;
    repeat case_match; intros [=]; subst; reflexivity.
Qed.

Lemma list_total_is_null_witness :
  let resp := fst (serve three_users (GET_users (mkQuery None None None))) in
  three_users (count_rows "users" None None) = Returned JNull None (Some 3%N) ∧
  statusCode resp = 200 ∧
  get "total" (pagination_of resp) = Some JNull ∧
  get "limit" (pagination_of resp) = Some (JNum (Int 10)) ∧
  get "totalPages" (pagination_of resp) = Some (JNum (Int 0)).
Proof.
  intros resp. subst resp. split; [reflexivity|].
  destruct (list_total_is_null three_users (mkQuery None None None)
              (GET_users (mkQuery None None None)) "users"
              three_users_counts_on_request)
    as (_ & call & Hcall & _ & Hok & Hbody); [left|].
  injection Hcall as <-.
  split; [apply Hok; eexists; reflexivity|].
  destruct (Hbody _ eq_refl) as (_ & Htotal & Hrest).
  split; [exact Htotal|].
  apply (Hrest 10%Z sample_exact); [reflexivity | lia | unfold safe; lia].
Defined.

Lemma list_window_witness :
  snd (get_users three_users (mkQuery (Some "2") (Some "10") (Some "true")))
    = [select_range "users"
         "uid, email, first_name, last_name, role, is_active, created_at"
         (Int 10) (Int 1009) (Some true)].
Proof.
  destruct (list_window three_users (mkQuery (Some "2") (Some "10") (Some "true")) 2 10
              sample_exact) as [H _].
  - exists 2%N. split; reflexivity.
  - exists 10%N. split; reflexivity.
  - lia.
  - unfold safe; lia.
  - vm_compute. split; reflexivity.
  - exact H.
Defined.

(** A backend that creates every auth user with id [u1] and refuses
    every insert. *)
Definition refusing_inserts : Backend :=
  λ call, match call with
          | users_insert _ => Returned JNull (Some (mkSbError (Some "duplicate key"))) None
          | auth_createUser _ _ _ _ =>
              Returned (JObj [("user", JObj [("id", JStr "u1")])]) None None
          | _ => Thrown (mkJsError Error "network")
          end.

Definition sample_body : option Json :=
  Some (JObj [("email", JStr "a@example.org"); ("password", JStr "secret");
              ("role", JStr "admin"); ("is_active", JBool false)]).


(** A backend that creates every auth user with id [u1] and returns the
    row it is asked to insert. *)
Definition accepting : Backend :=
  λ call, match call with
          | users_insert payload => Returned payload None None
          | auth_createUser _ _ _ _ =>
              Returned (JObj [("user", JObj [("id", JStr "u1")])]) None None
          | _ => Thrown (mkJsError Error "network")
          end.


Lemma thrown_is_500_witness :
  statusCode (fst (serve (λ _, Thrown (mkJsError TypeError "fetch failed"))
                     (DELETE_users "u1"))) = 500.
Proof.
  apply (thrown_is_500 _ _ (auth_deleteUser (JStr "u1")) (mkJsError TypeError "fetch failed")).
  - left.
  - reflexivity.
Defined.

Lemma put_never_fetches_auth_user_witness :
  let req := Some (JObj [("password", JStr "secret2")]) in
  snd (put_user accepting "u1" req)
    = [auth_updateUserById "u1" (JObj [("password", JStr "secret2")])] ∧
  auth_updateUserById "u1" (JObj [("password", JStr "secret2")]) ≠ auth_getUserById "u1".
Proof.
  intros req. split; [reflexivity|].
  apply (put_never_fetches_auth_user accepting "u1" req). left.
Defined.

Lemma delete_auth_first_witness :
  snd (delete_user refusing_inserts "u1") = [auth_deleteUser (JStr "u1")].
Proof.
  destruct (delete_auth_first refusing_inserts "u1") as ([H | H] & Hiff & _).
  - exact H.
  - exfalso. apply Hiff in H as (data & count & H). discriminate.
Defined.

End AdminApi.
